(** * ML_Intro: the two notebooks, embedded and checked

    [RF_Feature_Selection_7.ipynb] (the first notebook) and
    [Pipeline_ML_6.ipynb] (the second notebook) are glue code over numpy,
    pandas and scikit-learn.  The notebooks' own statements are embedded
    here as they are written.  What the libraries compute (which rows a
    split draws, what a fitted forest predicts, how long a call takes) is
    not in the repository: it enters through the interfaces [Float64] and
    [Library] below, as operations with the part of their documented
    contract that the notebooks rely on.

    Numbers.  Feature importances are float64 in the notebooks.  Here a
    float64 number is held as the rational it denotes, and every sum the
    code computes is rounded: [float64 q] is the float64 nearest to [q].
    The literal [0.9] is [float64 (9 # 10)], not [9 # 10], and an
    element [x] of a float64 array is [float64 x]: [x] itself when it is
    a float64 number. *)

From Stdlib Require Import QArith Qround Qpower Lia Lqa.
From stdpp Require Import base list sorting gmap strings.

(** ** numpy: the array operations the first notebook calls *)

Module Numpy.
Local Open Scope Q_scope.

#[global] Instance Qle_dec : RelDecision Qle :=
  fun x y => decide (Qnum x * QDen y ≤ Qnum y * QDen x)%Z.

(** [a[i]] for an index that an [argsort] of [a] produced. *)
Definition getitem (a : list Q) (i : nat) : Q := nth i a 0.

(** [a[idx]] with an index array: one entry per index. *)
Definition take_idx (a : list Q) (idx : list nat) : list Q :=
  map (getitem a) idx.

(** The order [np.argsort(a)] sorts indices by. *)
Definition by_value (a : list Q) : relation nat :=
  fun i j => getitem a i <= getitem a j.

#[global] Instance by_value_dec a : RelDecision (by_value a) :=
  fun i j => Qle_dec (getitem a i) (getitem a j).

(** numpy on float64 arrays: what is numpy's and the machine's, not the
    notebook's.

    [float64 q] is the float64 that a computation with exact result [q]
    stores.  Rounding never reverses an order, a float64 is stored as it
    is, and zero is a float64.

    [np.argsort(a)] gives the indices of [a] by ascending value.  In
    which order it gives the indices of equal values is numpy's choice
    (its default sort is not stable) and is left open here. *)
Class Float64 := {
  float64 : Q → Q;
  float64_monotone x y : x <= y → float64 x <= float64 y;
  float64_stored x : float64 (float64 x) == float64 x;
  float64_zero : float64 0 == 0;
  argsort : list Q → list nat;
  argsort_permutation a : argsort a ≡ₚ seq 0 (length a);
  argsort_ascending a : Sorted (by_value a) (argsort a);
}.

Section float64.
Context `{Float64}.

(** [x] is a float64 number: the elements of a float64 array are. *)
Definition is_float64 (x : Q) : Prop := float64 x == x.

Fixpoint cumsum_from (acc : Q) (l : list Q) : list Q :=
  match l with
  | [] => []
  | x :: l' => let s := float64 (acc + float64 x) in s :: cumsum_from s l'
  end.

(** [np.cumsum(a)] of a float64 array: a float64 array of running sums,
    each the float64 sum of the one before and the next element; the
    first is [a[0]]. *)
Definition cumsum (l : list Q) : list Q :=
  match l with
  | [] => []
  | x :: l' => float64 x :: cumsum_from (float64 x) l'
  end.

End float64.

(** The exact sum of a list, left to right. *)
Definition Qsum (l : list Q) : Q := fold_left Qplus l 0.

End Numpy.

(** ** First notebook, cell 6: feature selection *)

Module FeatureSelection.
Import Numpy.
Local Open Scope Q_scope.

Section selection.
Context `{Float64}.

(** The literal [0.9] of the comprehension: the float64 nearest to 9/10. *)
Definition threshold : Q := float64 (9 # 10).

(** [indices = np.argsort(importances)[::-1]] *)
Definition indices (importances : list Q) : list nat :=
  reverse (argsort importances).

(** [cum_important = np.cumsum(importances[indices])] *)
Definition cum_important (importances : list Q) : list Q :=
  cumsum (take_idx importances (indices importances)).

(** [[feature for feature, cumulative_importance in zs
      if cumulative_importance <= 0.9]] *)
Fixpoint comprehension (zs : list (nat * Q)) : list nat :=
  match zs with
  | [] => []
  | (feature, cumulative_importance) :: zs' =>
      if Qle_bool cumulative_importance threshold
      then feature :: comprehension zs'
      else comprehension zs'
  end.

(** [selected_features = [... for ... in zip(indices, cum_important) if ...]] *)
Definition selected_features (importances : list Q) : list nat :=
  comprehension (zip (indices importances) (cum_important importances)).

End selection.

(** The exact importance mass of a set of features. *)
Definition mass (importances : list Q) (features : list nat) : Q :=
  Qsum (take_idx importances features).

End FeatureSelection.

(** ** Python: exceptions and results *)

Module Python.

Inductive exn :=
| FileNotFoundError
| ParserError
| KeyError
| IndexError
| ValueError
| NameError
| TypeError
| AttributeError
| NotFittedError.

(** What a call gives back: a value, or an exception on its way up. *)
Inductive result (A : Type) :=
| Ok (a : A)
| Raise (e : exn).
Arguments Ok {A} a.
Arguments Raise {A} e.

#[global] Instance result_ret : MRet result := @Ok.
#[global] Instance result_bind : MBind result :=
  fun A B f m => match m with Ok a => f a | Raise e => Raise e end.
#[global] Instance result_fmap : FMap result :=
  fun A B f m => match m with Ok a => Ok (f a) | Raise e => Raise e end.

Definition of_option {A} (e : exn) (o : option A) : result A :=
  match o with Some a => Ok a | None => Raise e end.

End Python.

(** ** pandas: tables *)

(** The values a table holds.  The notebooks never compute with a cell
    themselves: they hand tables to the libraries, which compare and order
    the cells. *)
Class Cells := {
  cell : Type;
  cell_eq_dec :: EqDecision cell;
  cell_le : relation cell;
  cell_le_dec :: RelDecision cell_le;
}.

Module Pandas.
Import Python.

Section frames.
Context `{Cells}.

(** A row: its index label and its cells.  [read_csv] labels the rows of
    a file 0, 1, 2, ...; every operation below keeps the label of a row it
    keeps.  A 2-d numpy array is held the same way: the label then only
    records which row of the table the array row was computed from. *)
Definition row : Type := nat * list cell.

Record frame := Frame { columns : list string; rows : list row }.

(** A column taken out of a table, with the index labels of its rows. *)
Definition series : Type := list (nat * cell).

Definition index (f : frame) : list nat := (rows f).*1.
Definition series_index (s : series) : list nat := s.*1.
Definition values (s : series) : list cell := s.*2.

(** [len(df)] and [df.shape[1]] *)
Definition n_rows (f : frame) : nat := length (rows f).
Definition n_columns (f : frame) : nat := length (columns f).

(** [df.iloc[:, :-1]]: every column but the last. *)
Definition iloc_but_last (f : frame) : frame :=
  {| columns := removelast (columns f);
     rows := (fun r : row => (r.1, removelast r.2)) <$> rows f |}.

(** [df.iloc[:, -1]]: the last column; an [IndexError] when there is
    none.  A table shows by its rows that it has no column, and a table
    without rows by its header. *)
Definition iloc_last (f : frame) : result series :=
  match columns f, rows f with
  | [], [] => Raise IndexError
  | _, _ =>
      of_option IndexError (mapM (fun r : row => (fun c => (r.1, c)) <$> last r.2) (rows f))
  end.

(** The position of a column name. *)
Definition column_position (name : string) (f : frame) : result nat :=
  of_option KeyError (fst <$> list_find (fun c => c = name) (columns f)).

(** [df[name]] *)
Definition getitem_column (name : string) (f : frame) : result series :=
  j ← column_position name f;
  of_option IndexError (mapM (fun r : row => (fun c => (r.1, c)) <$> r.2 !! j) (rows f)).

(** [df.drop(name, axis=1)]: a new table without that column; [df] stays. *)
Definition drop_column (name : string) (f : frame) : result frame :=
  j ← column_position name f;
  Ok {| columns := delete j (columns f);
        rows := (fun r : row => (r.1, delete j r.2)) <$> rows f |}.

(** Rows by position: what [train_test_split] does with the positions it
    drew, on a table and on a column. *)
Definition take_rows {A} (l : list A) (positions : list nat) : list A :=
  omap (fun i => l !! i) positions.

Definition iloc_rows (f : frame) (positions : list nat) : frame :=
  {| columns := columns f; rows := take_rows (rows f) positions |}.

(** [df.head()] *)
Definition head (f : frame) : frame :=
  {| columns := columns f; rows := take 5 (rows f) |}.

(** [pd.concat([a, b])] of two columns: the entries of [a], then those
    of [b], each with the index label it had. *)
Definition concat_series (a b : series) : series := a ++ b.

(** [X[:, cols]] on a 2-d array: every row keeps the listed columns, in
    the listed order; an [IndexError] for a column that is not there. *)
Definition select_columns (X : frame) (cols : list nat) : result frame :=
  rows' ← of_option IndexError
    (mapM (fun r : row => (fun cs => (r.1, cs)) <$> mapM (fun j => r.2 !! j) cols) (rows X));
  Ok {| columns := take_rows (columns X) cols; rows := rows' |}.

End frames.
End Pandas.

(** ** The libraries behind the notebooks *)

(** The estimators the notebooks construct, with the arguments they pass. *)
Inductive estimator_spec :=
| DecisionTreeClassifier
| BaggingClassifier (n_estimators random_state : nat)
| RandomForestClassifier (n_estimators max_depth : option nat) (random_state : nat)
| PCA_RandomForest (n_components n_estimators random_state : nat)
| GridSearchCV (base : estimator_spec) (grid_n_estimators grid_max_depth : list nat) (cv : nat).

(** What [feature_names_in_] of an estimator holds. *)
Inductive names_attr :=
| ColumnNames (names : list string)
| FeatureIndex (i : nat).

(** [ceil(test_size * n_samples)]: the size of the test part. *)
Definition n_test (test_size : Q) (n_samples : nat) : nat :=
  Z.to_nat (Qceiling (test_size * inject_Z (Z.of_nat n_samples))).

(** When [train_test_split] has a split to return: both parts non-empty
    and, for a stratified split, at least two rows of every class and room
    for every class in both parts. *)
Definition splittable `{Cells} (stratify : option (list cell)) (test_size : Q) (n : nat) : Prop :=
  (0 < n_test test_size n < n)%nat ∧
  match stratify with
  | None => True
  | Some y =>
      length y = n ∧
      (∀ c, c ∈ y → 2 ≤ length (filter (fun c' => c' = c) y))%nat ∧
      (length (remove_dups y) ≤ n - n_test test_size n)%nat ∧
      (length (remove_dups y) ≤ n_test test_size n)%nat
  end.

(** The operations whose code is numpy's, pandas', scikit-learn's or the
    machine's.  Each field is a call the notebooks make; the laws are the
    parts of the libraries' documented behaviour that the notebooks rely
    on. *)
Class Library `{Cells} := {
  (** numpy's float64 arithmetic and [np.argsort]. *)
  numpy :: Numpy.Float64;
  (** [pd.read_csv(path)]: the table in the file, or the exception raised
      for a missing or malformed file. *)
  read_csv : string → Python.result Pandas.frame;
  read_csv_index path f :
    read_csv path = Python.Ok f → Pandas.index f = seq 0 (Pandas.n_rows f);
  (** [pd.concat([a, b])] of two tables: the rows of [a], then the rows of
      [b], each with the index label it had.  Tables with the same
      columns keep their cells; tables whose columns differ are aligned
      on the column names, which is pandas' doing and left open here. *)
  concat : Pandas.frame → Pandas.frame → Pandas.frame;
  concat_index a b : Pandas.index (concat a b) = Pandas.index a ++ Pandas.index b;
  concat_same_columns a b :
    Pandas.columns a = Pandas.columns b →
    concat a b = Pandas.Frame (Pandas.columns a) (Pandas.rows a ++ Pandas.rows b);
  (** [Series.value_counts()] *)
  value_counts : list cell → list (cell * nat);
  (** The row positions [train_test_split] draws for the train and the
      test part, from [stratify], [test_size], [random_state] and the
      number of rows. *)
  split_positions : option (list cell) → Q → nat → nat → Python.result (list nat * list nat);
  split_positions_partition stratify test_size random_state n train test :
    split_positions stratify test_size random_state n = Python.Ok (train, test) →
    train ++ test ≡ₚ seq 0 n;
  split_positions_n_test stratify test_size random_state n train test :
    split_positions stratify test_size random_state n = Python.Ok (train, test) →
    length test = n_test test_size n;
  split_positions_returns stratify test_size random_state n :
    splittable stratify test_size n →
    ∃ train test, split_positions stratify test_size random_state n = Python.Ok (train, test);
  (** [StandardScaler]: the fitted statistics, and the cell-wise transform
      of a column's cell. *)
  scaler : Type;
  scaler_fit : list (list cell) → Python.result scaler;
  scale_cell : scaler → nat → cell → cell;
  (** Estimators: [fit], [predict] and the attributes read afterwards. *)
  fitted : Type;
  fit : estimator_spec → list (list cell) → list cell → Python.result fitted;
  predict : fitted → list (list cell) → Python.result (list cell);
  feature_importances : fitted → list Q;
  feature_importances_length spec X y f :
    fit spec X y = Python.Ok f →
    Forall (fun r => length r = length (feature_importances f)) X;
  (** What [fit(X, y)] leaves in [feature_names_in_]. *)
  names_after_fit : Pandas.frame → option names_attr → option names_attr;
  best_params : fitted → nat * nat;
  best_score : fitted → Q;
  (** [sklearn.metrics]: scores of predictions against the truth. *)
  accuracy_score : list cell → list cell → Python.result Q;
  f1_score : list cell → list cell → Python.result Q;
  recall_score : list cell → list cell → Python.result Q;
  precision_score : list cell → list cell → Python.result Q;
  (** [import m], and a [matplotlib.pyplot] call: done, or an exception. *)
  import_module : string → Python.result unit;
  pyplot : string → Python.result unit;
  (** Wall-clock seconds (in ticks) that a library call takes, by call. *)
  cost : string → nat;
}.

Module Sklearn.
Import Python Pandas.

Section sklearn.
Context `{Library}.

(** [train_test_split(X, y, test_size=, stratify=, random_state=)]: the
    rows of [X] and of [y] at the train positions and at the test
    positions. *)
Definition train_test_split (X : frame) (y : series) (test_size : Q)
    (stratify : option series) (random_state : nat)
    : result (frame * frame * series * series) :=
  if decide (n_rows X = length y) then
    '(train, test) ← split_positions (values <$> stratify) test_size random_state (n_rows X);
    Ok (iloc_rows X train, iloc_rows X test, take_rows y train, take_rows y test)
  else Raise ValueError.

(** [scaler.transform(X)]: every cell scaled by its column's statistics;
    rows stay in place. *)
Definition transform (s : scaler) (X : frame) : frame :=
  {| columns := columns X;
     rows := (fun r : row => (r.1, imap (scale_cell s) r.2)) <$> rows X |}.

(** [scaler.fit_transform(X)] *)
Definition fit_transform (X : frame) : result (scaler * frame) :=
  s ← scaler_fit (rows X).*2;
  Ok (s, transform s X).

(** The labels of a confusion matrix: the values that occur in either
    vector, sorted. *)
Definition unique_labels (y_true y_pred : list cell) : list cell :=
  merge_sort cell_le (remove_dups (y_true ++ y_pred)).

Definition count_pairs (a b : cell) (zs : list (cell * cell)) : nat :=
  length (filter (fun z : cell * cell => z.1 = a ∧ z.2 = b) zs).

(** [confusion_matrix(y_true, y_pred)]: cell (i, j) counts the rows whose
    true label is the i-th label and whose predicted label is the j-th. *)
Definition confusion_matrix (y_true y_pred : list cell) : result (list (list nat)) :=
  if decide (length y_true = length y_pred) then
    let labels := unique_labels y_true y_pred in
    Ok ((fun a => (fun b => count_pairs a b (zip y_true y_pred)) <$> labels) <$> labels)
  else Raise ValueError.

(** The sum of all cells of a matrix. *)
Definition sum_cells (m : list (list nat)) : nat := sum_list (sum_list <$> m).

End sklearn.
End Sklearn.

(** ** The notebook kernel: names, output, clock, exceptions *)

Module Kernel.
Import Python Pandas.

Section kernel.
Context `{Library}.

(** An estimator object: what it was constructed with, what [fit] left in
    it, and its [feature_names_in_] attribute. *)
Record estimator := Estimator {
  spec : estimator_spec;
  fitted_ : option fitted;
  feature_names_in_ : option names_attr;
}.

(** The objects the notebooks bind names to or print. *)
Inductive value :=
| VStr (s : string)
| VInt (n : nat)
| VTime (t : nat)
| VNum (q : Q)
| VVec (v : list Q)
| VIdx (l : list nat)
| VLabels (l : list cell)
| VCounts (l : list (cell * nat))
| VMatrix (m : list (list nat))
| VParams (p : nat * nat)
| VGrid (grid_n_estimators grid_max_depth : list nat)
| VFrame (f : frame)
| VSeries (s : series)
| VScaler (s : option scaler)
| VEstimator (m : estimator)
| VFunction (name : string).

(** The state of a run: the wall clock, the files read so far, the lines
    printed so far (each the list of printed objects) and the global
    names. *)
Record world := World {
  clock : nat;
  files_read : list string;
  stdout : list (list value);
  globals : gmap string value;
}.

(** How a computation ends: with a value, or with an exception that
    nothing caught. *)
Inductive outcome (A : Type) :=
| Returns (a : A) (w : world)
| Raises (e : exn) (w : world).
Arguments Returns {A} a w.
Arguments Raises {A} e w.

Definition Py (A : Type) : Type := world → outcome A.

#[global] Instance Py_ret : MRet Py := fun A a w => Returns a w.
#[global] Instance Py_bind : MBind Py := fun A B f m w =>
  match m w with
  | Returns a w' => f a w'
  | Raises e w' => Raises e w'
  end.

#[global] Instance Py_fmap : FMap Py := fun A B f m w =>
  match m w with
  | Returns a w' => Returns (f a) w'
  | Raises e w' => Raises e w'
  end.

Definition raise {A} (e : exn) : Py A := fun w => Raises e w.

(** A call that takes no time: Python's own indexing and arithmetic. *)
Definition lift {A} (r : result A) : Py A :=
  fun w => match r with Ok a => Returns a w | Raise e => Raises e w end.

(** The four ways a statement changes the state. *)
Definition advance (n : nat) (w : world) : world :=
  {| clock := clock w + n; files_read := files_read w;
     stdout := stdout w; globals := globals w |}.
Definition emit (line : list value) (w : world) : world :=
  {| clock := clock w; files_read := files_read w;
     stdout := stdout w ++ [line]; globals := globals w |}.
Definition opened (path : string) (w : world) : world :=
  {| clock := clock w; files_read := files_read w ++ [path];
     stdout := stdout w; globals := globals w |}.
Definition bound (x : string) (v : value) (w : world) : world :=
  {| clock := clock w; files_read := files_read w;
     stdout := stdout w; globals := <[x := v]> (globals w) |}.

Definition tick (n : nat) : Py unit := fun w => Returns tt (advance n w).

(** A library call: the clock advances by what the call costs, then the
    call's result or exception comes back. *)
Definition call {A} (site : string) (r : result A) : Py A :=
  tick (cost site) ;; lift r.

(** [time.time()] *)
Definition time_time : Py nat := fun w => Returns (clock w) w.

(** [print(...)] *)
Definition print (line : list value) : Py unit := fun w => Returns tt (emit line w).

(** [pd.read_csv(path)] *)
Definition pd_read_csv (path : string) : Py frame := fun w =>
  call ("pd.read_csv " +:+ path) (read_csv path) (opened path w).

(** [import m] *)
Definition import_ (m : string) : Py unit :=
  call ("import " +:+ m) (import_module m).

(** [plt.f(...)] *)
Definition plt (f : string) : Py unit :=
  call ("plt." +:+ f) (pyplot f).

(** Reading and binding a global name. *)
Definition load (x : string) : Py value := fun w =>
  match globals w !! x with
  | Some v => Returns v w
  | None => Raises NameError w
  end.

Definition store (x : string) (v : value) : Py unit := fun w => Returns tt (bound x v w).

Definition load_frame (x : string) : Py frame :=
  v ← load x; match v with VFrame f => mret f | _ => raise TypeError end.
Definition load_series (x : string) : Py series :=
  v ← load x; match v with VSeries s => mret s | _ => raise TypeError end.
Definition load_labels (x : string) : Py (list cell) :=
  v ← load x; match v with VLabels l => mret l | _ => raise TypeError end.
Definition load_vec (x : string) : Py (list Q) :=
  v ← load x; match v with VVec l => mret l | _ => raise TypeError end.
Definition load_idx (x : string) : Py (list nat) :=
  v ← load x; match v with VIdx l => mret l | _ => raise TypeError end.
Definition load_time (x : string) : Py nat :=
  v ← load x; match v with VTime t => mret t | _ => raise TypeError end.
Definition load_scaler (x : string) : Py (option scaler) :=
  v ← load x; match v with VScaler s => mret s | _ => raise TypeError end.
Definition load_estimator (x : string) : Py estimator :=
  v ← load x; match v with VEstimator m => mret m | _ => raise TypeError end.

(** [x = e] *)
Definition assign (x : string) (e : Py value) : Py unit :=
  v ← e; store x v.

(** [for x in l: body], threading what the body updates. *)
Fixpoint for_each {A S} (l : list A) (body : A → S → Py S) (s : S) : Py S :=
  match l with
  | [] => mret s
  | x :: l' => s' ← body x s; for_each l' body s'
  end.

(** [Estimator(...)]: a fresh, unfitted object. *)
Definition new_estimator (sp : estimator_spec) : estimator :=
  {| spec := sp; fitted_ := None; feature_names_in_ := None |}.

(** [m.fit(X, y)]: the object after the call. *)
Definition fit_method (site : string) (m : estimator) (X : frame) (y : series) : Py estimator :=
  f ← call site (fit (spec m) (rows X).*2 (values y));
  mret {| spec := spec m; fitted_ := Some f;
          feature_names_in_ := names_after_fit X (feature_names_in_ m) |}.

(** [m.predict(X)]; an unfitted estimator raises. *)
Definition predict_method (site : string) (m : estimator) (X : frame) : Py (list cell) :=
  match fitted_ m with
  | Some f => call site (predict f (rows X).*2)
  | None => raise NotFittedError
  end.

(** Trees and forests have [feature_importances_]; the bagging
    classifier, the pipeline and the grid search have no such attribute. *)
Definition has_feature_importances (sp : estimator_spec) : bool :=
  match sp with
  | DecisionTreeClassifier | RandomForestClassifier _ _ _ => true
  | BaggingClassifier _ _ | PCA_RandomForest _ _ _ | GridSearchCV _ _ _ _ => false
  end.

(** [m.feature_importances_] *)
Definition feature_importances_ (m : estimator) : Py (list Q) :=
  if has_feature_importances (spec m) then
    match fitted_ m with
    | Some f => mret (feature_importances f)
    | None => raise NotFittedError
    end
  else raise AttributeError.

(** Running statements one after the other, as the kernel runs the lines
    of a cell and the cells of a notebook: the first exception ends the
    run. *)
Fixpoint run (p : list (Py unit)) : Py unit :=
  match p with
  | [] => mret tt
  | s :: p' => s ;; run p'
  end.

(** The state a computation ends in, returning or raising. *)
Definition world_of {A} (o : outcome A) : world :=
  match o with Returns _ w => w | Raises _ w => w end.

(** Whether a computation returned. *)
Definition returned {A} (o : outcome A) : bool :=
  match o with Returns _ _ => true | Raises _ _ => false end.

(** The time a computation takes from a state: the clock's advance. *)
Definition elapsed {A} (m : Py A) (w : world) : nat :=
  clock (world_of (m w)) - clock w.

Definition fresh : world :=
  {| clock := 0; files_read := []; stdout := []; globals := ∅ |}.

End kernel.

Arguments Returns {_ _ _} a w.
Arguments Raises {_ _ _} e w.

End Kernel.

(** ** Second notebook: [Pipeline_ML_6.ipynb] *)

Module Pipeline.
Import Python Pandas Sklearn Kernel.

Section pipeline.
Context `{Library}.

(** [def myTrainTestSplit(normalData, anomalousData)] *)
Definition myTrainTestSplit (normalData anomalousData : frame)
    : Py (frame * frame * series * series) :=
  let X_normal := iloc_but_last normalData in
  y_normal ← lift (iloc_last normalData);
  let X_anomalous := iloc_but_last anomalousData in
  y_anomalous ← lift (iloc_last anomalousData);
  '(X_train_normal, X_test_normal, y_train_normal, y_test_normal) ←
    call "train_test_split(X_normal, y_normal)"
      (train_test_split X_normal y_normal (3 # 10) None 42);
  '(X_train_anomalous, X_test_anomalous, y_train_anomalous, y_test_anomalous) ←
    call "train_test_split(X_anomalous, y_anomalous)"
      (train_test_split X_anomalous y_anomalous (3 # 10) None 42);
  let X_train := concat X_train_normal X_train_anomalous in
  let X_test := concat X_test_normal X_test_anomalous in
  let y_train := concat_series y_train_normal y_train_anomalous in
  let y_test := concat_series y_test_normal y_test_anomalous in
  mret (X_train, X_test, y_train, y_test).

(** [def myDecisionTree(X_train, y_train)] *)
Definition myDecisionTree (X_train : frame) (y_train : series) : Py estimator :=
  let clf := new_estimator DecisionTreeClassifier in
  clf ← fit_method "myDecisionTree: clf.fit" clf X_train y_train;
  mret clf.

(** [def myBagging(X_train, y_train)] *)
Definition myBagging (X_train : frame) (y_train : series) : Py estimator :=
  let bagging_clf := new_estimator (BaggingClassifier 10 42) in
  bagging_clf ← fit_method "myBagging: bagging_clf.fit" bagging_clf X_train y_train;
  mret bagging_clf.

(** [def myRandomForest(X_train, y_train)] *)
Definition myRandomForest (X_train : frame) (y_train : series) : Py estimator :=
  let clf := new_estimator (RandomForestClassifier (Some 10) None 42) in
  clf ← fit_method "myRandomForest: clf.fit" clf X_train y_train;
  mret clf.

(** [def myPCARF(X_train, y_train)] *)
Definition myPCARF (X_train : frame) (y_train : series) : Py estimator :=
  let pipeline := new_estimator (PCA_RandomForest 2 50 42) in
  pipeline ← fit_method "myPCARF: pipeline.fit" pipeline X_train y_train;
  mret pipeline.

(** [def plot_feature_importance(model, feature_names)] *)
Definition plot_feature_importance (model : estimator) (feature_names : list string) : Py unit :=
  importances ← feature_importances_ model;
  let indices := Numpy.argsort importances in
  plt "figure";; plt "title";;
  plt "barh";;
  ticks ← lift (of_option IndexError (mapM (fun i => feature_names !! i) indices));
  plt "yticks";;
  plt "xlabel";; plt "show".

(** The three score arrays [recalls], [precisions], [f1_scores]. *)
Definition scores : Type := list Q * list Q * list Q.

(** One model of an evaluation: timed training, the printed duration,
    prediction, the three scores written at [i], the printed confusion
    matrix. *)
Definition evaluate_one (heading : list value) (model_func : frame → series → Py estimator)
    (X_train : frame) (y_train : series) (X_test : frame) (y_test : series)
    (i : nat) (s : scores) : Py scores :=
  let '(recalls, precisions, f1_scores) := s in
  start ← time_time;
  model ← model_func X_train y_train;
  end_ ← time_time;
  print (VStr "Training time for model" :: heading ++ [VTime (end_ - start); VStr "seconds"]);;
  y_pred ← predict_method "model.predict(X_test)" model X_test;
  r ← call "recall_score(y_test, y_pred)" (recall_score (values y_test) y_pred);
  p ← call "precision_score(y_test, y_pred)" (precision_score (values y_test) y_pred);
  f ← call "f1_score(y_test, y_pred)" (f1_score (values y_test) y_pred);
  m ← call "confusion_matrix(y_test, y_pred)" (confusion_matrix (values y_test) y_pred);
  print (VStr "Confusion matrix for model" :: heading ++ [VMatrix m]);;
  mret (<[i := r]> recalls, <[i := p]> precisions, <[i := f]> f1_scores).

Definition print_scores (s : scores) : Py unit :=
  print [VStr "Recalls:"; VVec s.1.1];;
  print [VStr "Precisions:"; VVec s.1.2];;
  print [VStr "F1 scores:"; VVec s.2].

(** [def myEvaluateSupervisedModelPerformance(X_train, y_train, X_test, y_test)] *)
Definition myEvaluateSupervisedModelPerformance
    (X_train : frame) (y_train : series) (X_test : frame) (y_test : series) : Py scores :=
  let zeros := replicate 3 0%Q in
  let model_funcs := [myDecisionTree; myBagging; myRandomForest] in
  s ← for_each (imap (fun i f => (i, f)) model_funcs)
        (fun '(i, model_func) s =>
           evaluate_one [VInt (i + 1)] model_func X_train y_train X_test y_test i s)
        (zeros, zeros, zeros);
  print_scores s;;
  mret s.

(** [def myEvaluateUnsupervisedModelPerformance(X_train, y_train, X_test, y_test)] *)
Definition myEvaluateUnsupervisedModelPerformance
    (X_train : frame) (y_train : series) (X_test : frame) (y_test : series) : Py scores :=
  let zeros := replicate 1 0%Q in
  s ← evaluate_one [] myPCARF X_train y_train X_test y_test 0 (zeros, zeros, zeros);
  print_scores s;;
  mret s.

(** The cells, top to bottom.  A [def] binds the function's name. *)
Definition def (name : string) : Py unit := store name (VFunction name).

Definition notebook : list (Py unit) :=
  [ import_ "numpy";
    call "np.random.seed(42)" (Ok tt);
    import_ "os"; import_ "pandas"; import_ "sklearn.model_selection";
    import_ "sklearn.pipeline"; import_ "sklearn.ensemble"; import_ "sklearn.tree";
    import_ "sklearn.decomposition"; import_ "sklearn.preprocessing";
    import_ "sklearn.metrics"; import_ "time"; import_ "zipfile";
    import_ "matplotlib.pyplot";
    assign "normalData" (VFrame <$> pd_read_csv "normal.csv");
    (d ← load_frame "normalData";
     print [VStr "Shape of normal dataset:"; VInt (n_rows d); VInt (n_columns d)]);
    assign "anomalousData" (VFrame <$> pd_read_csv "anomalous.csv");
    (d ← load_frame "anomalousData";
     print [VStr "Shape of anomalous dataset:"; VInt (n_rows d); VInt (n_columns d)]);
    def "myTrainTestSplit"; def "myDecisionTree"; def "myBagging";
    def "myRandomForest"; def "plot_feature_importance";
    import_ "time";
    def "myEvaluateSupervisedModelPerformance"; def "myPCARF";
    def "myEvaluateUnsupervisedModelPerformance" ].

End pipeline.
End Pipeline.

(** ** First notebook: [RF_Feature_Selection_7.ipynb] *)

Module Notebook1.
Import Python Pandas Sklearn Kernel.

Section notebook1.
Context `{Library}.

(** [y_pred = m.predict(X)] for the model bound to [m] and the array
    bound to [X]. *)
Definition predict_into (site m X : string) : Py unit :=
  assign "y_pred"
    (model ← load_estimator m; X ← load_frame X;
     VLabels <$> predict_method site model X).

(** [m.fit(X, y_train)] for the model bound to [m]: the object [m] names
    is the fitted one afterwards. *)
Definition fit_global (site m X : string) : Py unit :=
  model ← load_estimator m; X ← load_frame X; y ← load_series "y_train";
  model' ← fit_method site model X y;
  store m (VEstimator model').

(** [f1 = f1_score(y_test, y_pred)] *)
Definition assign_f1 : Py unit :=
  assign "f1"
    (y_test ← load_series "y_test"; y_pred ← load_labels "y_pred";
     VNum <$> call "f1_score(y_test, y_pred)" (f1_score (values y_test) y_pred)).

(** [confusion = confusion_matrix(y_test, y_pred)] *)
Definition assign_confusion : Py unit :=
  assign "confusion"
    (y_test ← load_series "y_test"; y_pred ← load_labels "y_pred";
     VMatrix <$> call "confusion_matrix(y_test, y_pred)"
                   (confusion_matrix (values y_test) y_pred)).

(** The three metric lines every model's cell has:
    [accuracy = accuracy_score(y_test, y_pred)], [f1 = f1_score(...)],
    [confusion = confusion_matrix(...)]. *)
Definition metrics : list (Py unit) :=
  [ assign "accuracy"
      (y_test ← load_series "y_test"; y_pred ← load_labels "y_pred";
       VNum <$> call "accuracy_score(y_test, y_pred)" (accuracy_score (values y_test) y_pred));
    assign_f1;
    assign_confusion ].

(** [x = end_time - start_time] *)
Definition assign_duration (x : string) : Py unit :=
  assign x (end_time ← load_time "end_time"; start_time ← load_time "start_time";
            mret (VTime (end_time - start_time))).

(** The four closing prints of a model's cell; [label] and [x] are the
    heading and the name of the printed duration. *)
Definition report (label x : string) : list (Py unit) :=
  [ (v ← load "accuracy"; print [VStr "Accuracy:"; v]);
    (v ← load "f1"; print [VStr "F1-score:"; v]);
    (v ← load "confusion"; print [VStr "Confusion matrix:"; v]);
    (v ← load x; print [VStr label; v]) ].

(** Cell 1: the imports. *)
Definition cell1 : list (Py unit) :=
  [ import_ "matplotlib.pyplot"; import_ "pandas"; import_ "numpy"; import_ "seaborn";
    import_ "sklearn.model_selection"; import_ "sklearn.preprocessing";
    import_ "sklearn.linear_model"; import_ "sklearn.ensemble"; import_ "sklearn.metrics";
    import_ "time"; import_ "random";
    import_ "torch"; import_ "torch.nn"; import_ "torch.optim"; import_ "torch.utils.data" ].

(** [df = pd.read_csv("IP_Activity_Dataset_5000.csv")] *)
Definition load_df : Py unit :=
  assign "df" (VFrame <$> pd_read_csv "IP_Activity_Dataset_5000.csv").

(** Cell 2: load the table and describe it. *)
Definition cell2 : list (Py unit) :=
  [ load_df;
    (df ← load_frame "df"; print [VStr "# of observations:"; VInt (n_rows df)]);
    (df ← load_frame "df"; print [VStr "# of variables:"; VInt (n_columns df)]);
    (df ← load_frame "df"; label ← lift (getitem_column "label" df);
     print [VStr "Observations for each class in 'label':"; VCounts (value_counts (values label))]);
    assign "nn" (df ← load_frame "df"; mret (VInt (n_columns df)));
    (df ← load_frame "df"; print [VFrame (head df)]) ].

(** [X_train, X_test, y_train, y_test =
      train_test_split(X, y, test_size=0.5, stratify=y, random_state=42)] *)
Definition split : Py unit :=
  X ← load_frame "X"; y ← load_series "y"; stratify ← load_series "y";
  '(X_train, X_test, y_train, y_test) ←
    call "train_test_split(X, y)" (train_test_split X y (1 # 2) (Some stratify) 42);
  store "X_train" (VFrame X_train);; store "X_test" (VFrame X_test);;
  store "y_train" (VSeries y_train);; store "y_test" (VSeries y_test).

(** Cell 3: features, labels and the stratified 50-50 split. *)
Definition cell3 : list (Py unit) :=
  [ assign "X" (df ← load_frame "df"; VFrame <$> lift (drop_column "label" df));
    assign "y" (df ← load_frame "df"; VSeries <$> lift (getitem_column "label" df));
    split ].

(** [X_train = scaler.fit_transform(X_train)]: the scaler object is fitted,
    and the name [X_train] is bound to the new, scaled array. *)
Definition scale_train : Py unit :=
  _ ← load_scaler "scaler"; X_train ← load_frame "X_train";
  '(s, scaled) ← call "scaler.fit_transform(X_train)" (fit_transform X_train);
  store "scaler" (VScaler (Some s));; store "X_train" (VFrame scaled).

(** [X_test = scaler.transform(X_test)] *)
Definition scale_test : Py unit :=
  assign "X_test"
    (s ← load_scaler "scaler"; X_test ← load_frame "X_test";
     match s with
     | Some s => call "scaler.transform(X_test)" (Ok (VFrame (transform s X_test)))
     | None => raise NotFittedError
     end).

(** Cell 4: standardization. *)
Definition cell4 : list (Py unit) :=
  [ assign "scaler" (mret (VScaler None)); scale_train; scale_test ].

(** Cell 5: the first forest, timed. *)
Definition cell5 : list (Py unit) :=
  [ assign "rf" (mret (VEstimator (new_estimator (RandomForestClassifier (Some 5) (Some 5) 42))));
    assign "start_time" (VTime <$> time_time);
    fit_global "cell 5: rf.fit(X_train, y_train)" "rf" "X_train";
    assign "end_time" (VTime <$> time_time);
    predict_into "cell 5: rf.predict(X_test)" "rf" "X_test" ]
  ++ metrics ++
  [ assign_duration "exce" ]
  ++ report "Execution time:" "exce".

(** Cell 6, first part: the second forest, the ranking of its feature
    importances and the selection. *)
Definition cell6_select : list (Py unit) :=
  [ assign "rf" (mret (VEstimator (new_estimator (RandomForestClassifier (Some 10) (Some 10) 42))));
    fit_global "cell 6: rf.fit(X_train, y_train)" "rf" "X_train";
    assign "importances" (rf ← load_estimator "rf"; VVec <$> feature_importances_ rf);
    assign "indices" (importances ← load_vec "importances";
                      mret (VIdx (FeatureSelection.indices importances)));
    assign "cum_important"
      (importances ← load_vec "importances"; indices ← load_idx "indices";
       mret (VVec (Numpy.cumsum (Numpy.take_idx importances indices))));
    assign "selected_features"
      (indices ← load_idx "indices"; cum_important ← load_vec "cum_important";
       mret (VIdx (FeatureSelection.comprehension (zip indices cum_important))));
    (rf ← load_estimator "rf"; df ← load_frame "df"; X_train ← load_frame "X_train";
     names ← lift (of_option IndexError
                     (mapM (fun i => columns df !! i) (seq 0 (n_columns X_train))));
     store "rf" (VEstimator {| spec := spec rf; fitted_ := fitted_ rf;
                               feature_names_in_ := Some (ColumnNames names) |})) ].

(** Cell 6, the plot. *)
Definition cell6_plot : list (Py unit) :=
  [ plt "figure";
    (_ ← load_frame "X_train"; _ ← load_vec "importances"; _ ← load_idx "indices"; plt "barh");
    (_ ← load_frame "X_train"; _ ← load_idx "indices"; plt "yticks");
    plt "xlabel"; plt "ylabel"; plt "title"; plt "show" ].

(** [for rf.feature_names_in_ in selected_features: print(...)]: each turn
    assigns the next element to the attribute of the object [rf] names,
    then runs the body, which reads the attribute back. *)
Definition print_loop_turn (feature : nat) (_ : unit) : Py unit :=
  rf ← load_estimator "rf";
  store "rf" (VEstimator {| spec := spec rf; fitted_ := fitted_ rf;
                            feature_names_in_ := Some (FeatureIndex feature) |});;
  rf ← load_estimator "rf"; importances ← load_vec "importances";
  match feature_names_in_ rf with
  | Some (FeatureIndex i) =>
      x ← lift (of_option IndexError (importances !! i));
      print [VStr "Feature"; VInt i; VNum x]
  | _ => raise TypeError
  end.

Definition print_loop : Py unit :=
  selected_features ← load_idx "selected_features";
  for_each selected_features print_loop_turn tt.

(** [target = X[:, selected_features]] for the array bound to [X]. *)
Definition select_into (target X : string) : Py unit :=
  assign target
    (X ← load_frame X; selected_features ← load_idx "selected_features";
     VFrame <$> lift (select_columns X selected_features)).

(** Cell 6, last part: the listing, the column selection and the refined
    forest, timed. *)
Definition cell6_heading : Py unit :=
  print [VStr "Selected features and their importance scores:"].

Definition cell6_slices : list (Py unit) :=
  [ select_into "Xtrain_sel" "X_train";
    select_into "X_test_selected" "X_test";
    assign "start_time" (VTime <$> time_time) ].

Definition cell6_refit : Py unit :=
  fit_global "cell 6: rf.fit(Xtrain_sel, y_train)" "rf" "Xtrain_sel".

Definition cell6_scores : list (Py unit) :=
  [ assign "end_time" (VTime <$> time_time);
    predict_into "cell 6: rf.predict(X_test_selected)" "rf" "X_test_selected" ]
  ++ metrics ++
  [ assign_duration "execution_time" ]
  ++ report "Time Execution:" "execution_time".

Definition cell6 : list (Py unit) :=
  cell6_select ++ cell6_plot ++
  cell6_heading :: print_loop :: cell6_slices ++ cell6_refit :: cell6_scores.

(** Cell 7: the grid search, timed, and the final forest. *)
Definition cell7 : list (Py unit) :=
  [ assign "param_grid" (mret (VGrid [10; 20]%nat [10; 20]%nat));
    assign "grid_search"
      (g ← load "param_grid";
       match g with
       | VGrid ns ds =>
           mret (VEstimator (new_estimator (GridSearchCV (RandomForestClassifier None None 42) ns ds 3)))
       | _ => raise TypeError
       end);
    assign "start_time" (VTime <$> time_time);
    fit_global "cell 7: grid_search.fit(Xtrain_sel, y_train)" "grid_search" "Xtrain_sel";
    assign "end_time" (VTime <$> time_time);
    (g ← load_estimator "grid_search";
     match fitted_ g with
     | Some f => print [VStr "Optimal hyperparameters:"; VParams (best_params f)]
     | None => raise AttributeError
     end);
    (g ← load_estimator "grid_search";
     match fitted_ g with
     | Some f => print [VStr "Optimal cross-validation score:"; VNum (best_score f)]
     | None => raise AttributeError
     end);
    assign "rf_best" (mret (VEstimator (new_estimator (RandomForestClassifier (Some 10) (Some 10) 42))));
    fit_global "cell 7: rf_best.fit(Xtrain_sel, y_train)" "rf_best" "Xtrain_sel";
    predict_into "cell 7: rf_best.predict(X_test_selected)" "rf_best" "X_test_selected" ]
  ++ metrics ++
  [ assign_duration "execution_time" ]
  ++ report "Execution time:" "execution_time".

Definition notebook : list (Py unit) :=
  cell1 ++ cell2 ++ cell3 ++ cell4 ++ cell5 ++ cell6 ++ cell7.

(** The statements that follow the split, and those that follow the
    loading of [df]. *)
Definition after_split : list (Py unit) := cell4 ++ cell5 ++ cell6 ++ cell7.
Definition after_load : list (Py unit) := tail cell2 ++ cell3 ++ after_split.

End notebook1.
End Notebook1.

(** ** Python's exception handling *)

(** Neither notebook has a [try] statement.  To say what that means, this
    is the statement they do not have, and the reading of a computation
    as code: operations of the kernel and the libraries, put one after
    the other, with or without handlers around them. *)
Module Handlers.
Import Python Pandas Kernel.

Section handlers.
Context `{Library}.







End handlers.
End Handlers.

(** ** float64: rounding to the nearest number with a 53-bit significand *)

(** IEEE 754 binary64 with round-to-nearest, ties to even, over an
    unbounded exponent range: overflow and underflow are left out, the
    importances of the notebooks and their sums being far from both. *)
Module Binary64.
Local Open Scope Q_scope.

Definition pow2 (e : Z) : Q := 2 ^ e.

(** The nearest integer, the even one of two equally near. *)
Definition rint (x : Q) : Z :=
  let f := Qfloor x in
  match Qcompare (x - inject_Z f) (1 # 2) with
  | Lt => f
  | Gt => (f + 1)%Z
  | Eq => if Z.even f then f else (f + 1)%Z
  end.

(** The exponent [e] of a positive number: [2^e <= x < 2^(e+1)]. *)
Definition binade (x : Q) : Z :=
  let e := (Z.log2 (Qnum x) - Z.log2 (Z.pos (Qden x)))%Z in
  if Qle_bool (pow2 e) x then e else (e - 1)%Z.

(** The significand of a positive number: between 2^52 and 2^53. *)
Definition significand (x : Q) : Z := rint (x * pow2 (- (binade x - 52))).

Definition round_positive (x : Q) : Q :=
  inject_Z (significand x) * pow2 (binade x - 52).

Definition round (x : Q) : Q :=
  Qred match Qcompare x 0 with
       | Eq => 0
       | Gt => round_positive x
       | Lt => - round_positive (- x)
       end.

End Binary64.

(** ** A small library to run the notebooks on

    Cells are natural numbers.  Numbers are float64, rounded as
    [Binary64.round] does, and [argsort] keeps equal values in their
    order.  The disk holds three small CSV files, the two of the second
    notebook with the same columns, and [pd.concat] appends the rows of
    such tables; a split takes the first rows as the test part; a fitted
    forest holds the importances 1/2, 1/4, 1/8, ... of its columns (or,
    in a second library, 15/16, 1/32, 1/32, 0, ...) and predicts class
    0; [fit] refuses an array without columns, as scikit-learn does, and,
    on an array, drops [feature_names_in_]; the grid search takes 254
    ticks, the final forest 14, every other call 1. *)

Module Reference.
Import Python Pandas.

#[global] Instance nat_cells : Cells :=
  {| cell := nat; cell_le := le |}.

Definition table (header : list string) (lines : list (list nat)) : frame :=
  {| columns := header; rows := imap (fun i r => (i, r)) lines |}.

Definition disk (path : string) : result frame :=
  if decide (path = "IP_Activity_Dataset_5000.csv") then
    Ok (table ["requests"; "nodes"; "contents"; "label"]
          [[18; 2; 9; 0]; [5; 1; 5; 0]; [1141; 5; 703; 1];
           [80; 2; 76; 0]; [1; 1; 1; 0]; [950; 4; 650; 1]])
  else if decide (path = "normal.csv") then
    Ok (table ["requests"; "nodes"; "label"]
          [[18; 2; 0]; [5; 1; 0]; [80; 2; 0]; [1; 1; 0]])
  else if decide (path = "anomalous.csv") then
    Ok (table ["requests"; "nodes"; "label"]
          [[1141; 5; 1]; [950; 4; 1]; [700; 6; 1]])
  else Raise FileNotFoundError.

Definition split_first (stratify : option (list nat)) (test_size : Q)
    (random_state n : nat) : result (list nat * list nat) :=
  let t := n_test test_size n in
  if decide (0 < t < n) then Ok (seq t (n - t), seq 0 t) else Raise ValueError.

(** Sorting by insertion: an index goes before the first index whose
    value is not smaller. *)
Fixpoint insert_by (a : list Q) (i : nat) (l : list nat) : list nat :=
  match l with
  | [] => [i]
  | j :: l' =>
      if Qle_bool (Numpy.getitem a i) (Numpy.getitem a j)
      then i :: j :: l'
      else j :: insert_by a i l'
  end.

Definition stable_argsort (a : list Q) : list nat :=
  foldr (insert_by a) [] (seq 0 (length a)).

Definition halving (k : nat) : list Q :=
  (fun i => 1 # Pos.pow 2 (Pos.of_succ_nat i)) <$> seq 0 k.

(** One feature far ahead of the others. *)
Definition dominating (k : nat) : list Q :=
  take k ([15 # 16; 1 # 32; 1 # 32] ++ replicate k 0%Q).

Definition fit_with (importances : nat → list Q)
    (sp : estimator_spec) (X : list (list nat)) (y : list nat) : result (list Q) :=
  match X with
  | [] => Raise ValueError
  | r :: _ =>
      if decide (r ≠ [] ∧ Forall (fun r' => length r' = length r) X)
      then Ok (importances (length r))
      else Raise ValueError
  end.

Definition ticks (site : string) : nat :=
  if decide (site = "cell 7: grid_search.fit(Xtrain_sel, y_train)") then 254
  else if decide (site = "cell 7: rf_best.fit(Xtrain_sel, y_train)") then 14
  else 1.

End Reference.

(** * Properties *)

(** ** Feature selection (first notebook, cell 6) *)

Module FeatureSelectionFacts.
Import Numpy FeatureSelection.
Local Open Scope Q_scope.

#[local] Instance by_value_trans a : Transitive (by_value a).
Proof. intros i j k. unfold by_value. apply Qle_trans. Qed.

Section selection.
Context `{Float64}.

Lemma argsort_perm a : argsort a ≡ₚ seq 0 (length a).
Proof. apply argsort_permutation. Qed.

Lemma indices_perm a : indices a ≡ₚ seq 0 (length a).
Proof. unfold indices. rewrite reverse_Permutation. apply argsort_perm. Qed.

(** The ranking is by descending importance. *)
Lemma indices_descending a : StronglySorted (flip (by_value a)) (indices a).
Proof.
  apply Sorted_StronglySorted; [apply _|].
  apply Sorted_reverse, argsort_ascending.
Qed.

Lemma indices_in_range a i : i ∈ indices a → (i < length a)%nat.
Proof. rewrite indices_perm, elem_of_seq. lia. Qed.

Lemma getitem_nonneg a i : Forall (fun x => 0 <= x) a → 0 <= getitem a i.
Proof.
  intros Ha. unfold getitem. revert i.
  induction Ha as [|x a Hx _ IH]; intros [|i]; simpl; auto; lra.
Qed.

Lemma take_idx_nonneg a idx :
  Forall (fun x => 0 <= x) a → Forall (fun x => 0 <= x) (take_idx a idx).
Proof.
  intros Ha. unfold take_idx. apply Forall_fmap, Forall_true.
  intros i. by apply getitem_nonneg.
Qed.

Lemma getitem_elem_of a i : (i < length a)%nat → getitem a i ∈ a.
Proof. intros Hi. unfold getitem. by apply list_elem_of_In, nth_In. Qed.

Lemma length_cumsum_from acc l : length (cumsum_from acc l) = length l.
Proof. revert acc. induction l; simpl; auto. Qed.

Lemma length_cumsum l : length (cumsum l) = length l.
Proof. destruct l; simpl; [done|]. by rewrite length_cumsum_from. Qed.

(** Rounding respects equality of rationals. *)
Lemma float64_proper x y : x == y → float64 x == float64 y.
Proof.
  intros Hxy. apply Qle_antisym; apply float64_monotone; rewrite Hxy; apply Qle_refl.
Qed.

Lemma float64_nonneg x : 0 <= x → 0 <= float64 x.
Proof. intros Hx. rewrite <-float64_zero. by apply float64_monotone. Qed.

(** Adding a non-negative number to a float64 and rounding does not go
    below it. *)
Lemma float64_add_nonneg acc x :
  is_float64 acc → 0 <= x → acc <= float64 (acc + float64 x).
Proof.
  unfold is_float64. intros Hacc Hx. apply Qle_trans with (float64 acc).
  - rewrite Hacc. apply Qle_refl.
  - apply float64_monotone. pose proof (float64_nonneg x Hx). lra.
Qed.

(** Running sums of non-negative numbers never fall below where they
    started. *)
Lemma cumsum_from_lower acc l :
  is_float64 acc → Forall (fun x => 0 <= x) l → Forall (fun c => acc <= c) (cumsum_from acc l).
Proof.
  intros Hacc Hl. revert acc Hacc. induction Hl as [|x l Hx _ IH]; intros acc Hacc; simpl.
  - constructor.
  - pose proof (float64_add_nonneg acc x Hacc Hx) as Hstep.
    constructor; [exact Hstep|].
    eapply Forall_impl; [apply IH, float64_stored|]. intros c Hc. simpl in Hc.
    by apply Qle_trans with (float64 (acc + float64 x)).
Qed.

Lemma cumsum_from_sorted acc l :
  is_float64 acc → Forall (fun x => 0 <= x) l → StronglySorted Qle (cumsum_from acc l).
Proof.
  intros Hacc Hl. revert acc Hacc. induction Hl as [|x l Hx Hl IH]; intros acc Hacc; simpl.
  - constructor.
  - constructor; [apply IH, float64_stored|].
    by apply cumsum_from_lower; [apply float64_stored|].
Qed.

(** The running sums of non-negative numbers never decrease. *)
Lemma cumsum_sorted l :
  Forall (fun x => 0 <= x) l → StronglySorted Qle (cumsum l).
Proof.
  intros Hl. destruct Hl as [|x l Hx Hl]; simpl; constructor.
  - by apply cumsum_from_sorted; [apply float64_stored|].
  - by apply cumsum_from_lower; [apply float64_stored|].
Qed.

Lemma cumsum_from_step acc l j c :
  cumsum_from acc l !! j = Some c →
  ∃ x, l !! j = Some x ∧
       c = float64 (match j with
                    | O => acc
                    | S j' => default 0 (cumsum_from acc l !! j')
                    end + float64 x).
Proof.
  revert acc j. induction l as [|x l IH]; intros acc j; simpl; [done|].
  destruct j as [|j]; simpl.
  - intros [= <-]. eauto.
  - intros Hc. destruct (IH _ _ Hc) as (y & Hy & ->). exists y. split; [done|].
    by destruct j.
Qed.

(** What [np.cumsum] computes: the first running sum is the first element
    as a float64, and each later one is the float64 sum of the running
    sum before it and the next element. *)
Lemma cumsum_step l j c :
  cumsum l !! j = Some c →
  ∃ x, l !! j = Some x ∧
       c = match j with
           | O => float64 x
           | S j' => float64 (default 0 (cumsum l !! j') + float64 x)
           end.
Proof.
  destruct l as [|x l]; simpl; [done|].
  destruct j as [|j]; simpl.
  - intros [= <-]. eauto.
  - intros Hc. destruct (cumsum_from_step _ _ _ _ Hc) as (y & Hy & ->).
    exists y. split; [done|]. by destruct j.
Qed.

(** Over running sums that never decrease, the filter of the
    comprehension keeps a prefix: once a sum is over the threshold, so is
    every later one. *)
Lemma comprehension_over_threshold idx cs :
  Forall (fun c => ¬ c <= threshold) cs → comprehension (zip idx cs) = [].
Proof.
  intros Hcs. revert idx. induction Hcs as [|c cs Hc _ IH]; intros [|i idx]; simpl; try done.
  destruct (Qle_bool c threshold) eqn:E; [|apply IH].
  apply Qle_bool_iff in E. done.
Qed.

Lemma comprehension_prefix idx cs :
  StronglySorted Qle cs → length idx = length cs →
  ∃ k, (k ≤ length idx)%nat ∧
       comprehension (zip idx cs) = take k idx ∧
       Forall (fun c => c <= threshold) (take k cs) ∧
       Forall (fun c => ¬ c <= threshold) (drop k cs).
Proof.
  intros Hcs. revert idx.
  induction Hcs as [|c cs Hcs IH Hc]; intros [|i idx] Hlen; simplify_eq/=.
  { exists 0%nat. by repeat split. }
  destruct (Qle_bool c threshold) eqn:E.
  - apply Qle_bool_iff in E.
    destruct (IH idx) as (k & Hk & -> & Hle & Hnext); [done|].
    exists (S k). repeat split; simpl; auto with lia.
  - assert (¬ c <= threshold) as Hnot by (rewrite <-Qle_bool_iff, E; done).
    assert (Forall (fun c' => ¬ c' <= threshold) cs) as Hrest.
    { eapply Forall_impl; [exact Hc|]. intros c' Hc' Hle. apply Hnot. lra. }
    exists 0%nat. repeat split; simpl; auto with lia.
    by apply comprehension_over_threshold.
Qed.

Lemma selected_features_take a :
  Forall (fun x => 0 <= x) a →
  ∃ k, (k ≤ length a)%nat ∧
       selected_features a = take k (indices a) ∧
       Forall (fun c => c <= threshold) (take k (cum_important a)) ∧
       Forall (fun c => ¬ c <= threshold) (drop k (cum_important a)).
Proof.
  intros Ha. unfold selected_features.
  destruct (comprehension_prefix (indices a) (cum_important a)) as (k & Hk & ?).
  - by apply cumsum_sorted, take_idx_nonneg.
  - unfold cum_important, take_idx. by rewrite length_cumsum, length_fmap.
  - exists k. split; [|done]. by rewrite indices_perm, length_seq in Hk.
Qed.

Lemma comprehension_subset idx cs i : i ∈ comprehension (zip idx cs) → i ∈ idx.
Proof.
  revert cs. induction idx as [|j idx IH]; intros [|c cs]; simpl; try by rewrite ?elem_of_nil.
  destruct (Qle_bool c threshold).
  - rewrite !elem_of_cons. intros [->|Hi]; eauto.
  - rewrite elem_of_cons. eauto.
Qed.

Lemma selected_features_in_range a :
  Forall (fun i => (i < length a)%nat) (selected_features a).
Proof.
  apply Forall_forall. intros i Hi.
  apply indices_in_range. by eapply comprehension_subset.
Qed.

Lemma getitem_lookup a j x : a !! j = Some x → getitem a j = x.
Proof.
  unfold getitem. revert j. induction a as [|y a IH]; intros [|j]; simpl; try done.
  - by intros [= ->].
  - apply IH.
Qed.

(** The first running sum is the largest importance, as a float64. *)
Lemma cum_important_head a i0 rest :
  indices a = i0 :: rest →
  cum_important a =
    float64 (getitem a i0) :: cumsum_from (float64 (getitem a i0)) (take_idx a rest).
Proof. intros Hidx. unfold cum_important. by rewrite Hidx. Qed.

(** When one importance is over the threshold, so is the first running
    sum, and with it every running sum. *)
Lemma dominant_selects_nothing a :
  Forall (fun x => 0 <= x) a → (∃ x, x ∈ a ∧ threshold < float64 x) →
  selected_features a = [].
Proof.
  intros Ha (x & [j Hj]%list_elem_of_lookup & Hx).
  assert (j ∈ indices a) as Hin.
  { rewrite indices_perm, elem_of_seq. apply lookup_lt_Some in Hj. lia. }
  apply getitem_lookup in Hj.
  pose proof (indices_descending a) as Hsorted.
  destruct (indices a) as [|i0 rest] eqn:Hidx; [by apply elem_of_nil in Hin|].
  apply StronglySorted_inv in Hsorted as [_ Hmax].
  assert (x <= getitem a i0) as Hle.
  { apply elem_of_cons in Hin as [->|Hin]; [rewrite Hj; apply Qle_refl|].
    rewrite Forall_forall in Hmax. rewrite <-Hj. by apply Hmax. }
  apply float64_monotone in Hle.
  unfold selected_features. rewrite (cum_important_head a i0 rest Hidx).
  apply comprehension_over_threshold. constructor.
  - intros Hc. apply (Qlt_not_le _ _ Hx). by apply Qle_trans with (float64 (getitem a i0)).
  - eapply Forall_impl;
      [apply cumsum_from_lower; [apply float64_stored|by apply take_idx_nonneg]|].
    intros c Hc Hc'. simpl in Hc. apply (Qlt_not_le _ _ Hx).
    apply Qle_trans with (float64 (getitem a i0)); [done|]. by apply Qle_trans with c.
Qed.

(** C1, as the code has it.  For every vector of non-negative
    importances: [indices] ranks all features by descending importance;
    the running sums [cum_important], computed in float64 along the
    ranking, never decrease; [selected_features] is a prefix of the
    ranking, the longest one whose running sums are at most the float64
    [0.9]: every running sum of the prefix is within the threshold and
    every later running sum is over it. *)
Theorem selected_features_longest_prefix_within_threshold (importances : list Q) :
  Forall (fun x => 0 <= x) importances →
  indices importances ≡ₚ seq 0 (length importances) ∧
  StronglySorted (fun i j => getitem importances j <= getitem importances i)
    (indices importances) ∧
  (∀ j c, cum_important importances !! j = Some c →
     ∃ i, indices importances !! j = Some i ∧
          c = match j with
              | O => float64 (getitem importances i)
              | S j' => float64 (default 0 (cum_important importances !! j')
                                 + float64 (getitem importances i))
              end) ∧
  StronglySorted Qle (cum_important importances) ∧
  ∃ k, (k ≤ length importances)%nat ∧
    selected_features importances = take k (indices importances) ∧
    Forall (fun c => c <= threshold) (take k (cum_important importances)) ∧
    Forall (fun c => threshold < c) (drop k (cum_important importances)).
Proof.
  intros Ha. split; [apply indices_perm|]. split; [apply indices_descending|].
  split.
  { intros j c Hc. unfold cum_important in Hc.
    destruct (cumsum_step _ _ _ Hc) as (x & Hx & ->).
    unfold take_idx in Hx. apply list_lookup_fmap_Some in Hx as (i & -> & Hi).
    exists i. split; [done|]. reflexivity. }
  split; [by apply cumsum_sorted, take_idx_nonneg|].
  destruct (selected_features_take importances Ha) as (k & Hk & Hsel & Hle & Hnext).
  exists k. do 3 (split; [done|]).
  eapply Forall_impl; [exact Hnext|]. intros c Hc. simpl in Hc. by apply Qnot_le_lt.
Qed.

End selection.
End FeatureSelectionFacts.

(** ** float64 rounding keeps the order and the float64 numbers *)

Module Binary64Facts.
Import Binary64.
Local Open Scope Q_scope.

Lemma pow2_pos e : 0 < pow2 e.
Proof. apply Qpower_0_lt. reflexivity. Qed.

Lemma pow2_add a b : pow2 (a + b) == pow2 a * pow2 b.
Proof. apply Qpower_plus. discriminate. Qed.

Lemma pow2_le a b : (a <= b)%Z → pow2 a <= pow2 b.
Proof. intros. apply Qpower_le_compat_l; [assumption|discriminate]. Qed.

Lemma pow2_lt_inv a b : pow2 a < pow2 b → (a < b)%Z.
Proof. intros. eapply Qpower_lt_compat_l_inv; [eassumption|reflexivity]. Qed.

Lemma pow2_cancel a : pow2 (- a) * pow2 a == 1.
Proof. rewrite <-pow2_add, Z.add_opp_diag_l. reflexivity. Qed.

Lemma pow2_Z n : (0 <= n)%Z → pow2 n == inject_Z (2 ^ n).
Proof. intros. unfold pow2. rewrite Zpower_Qpower by assumption. reflexivity. Qed.

Lemma rint_cases x :
  (rint x = Qfloor x \/ rint x = Qfloor x + 1)%Z.
Proof.
  unfold rint. destruct (Qcompare _ _); [destruct (Z.even _)| |]; auto.
Qed.

Lemma rint_comp x y : x == y → rint x = rint y.
Proof.
  intros Hxy. unfold rint. rewrite (Qfloor_comp _ _ Hxy).
  assert (x - inject_Z (Qfloor y) == y - inject_Z (Qfloor y)) as -> by (rewrite Hxy; reflexivity).
  reflexivity.
Qed.

Lemma rint_Z z : rint (inject_Z z) = z.
Proof.
  unfold rint. rewrite Qfloor_Z.
  assert (inject_Z z - inject_Z z == 0) as -> by ring.
  reflexivity.
Qed.

Lemma rint_le x y : x <= y → (rint x <= rint y)%Z.
Proof.
  intros Hxy. pose proof (Qfloor_resp_le _ _ Hxy) as Hfloor.
  destruct (Z.eq_dec (Qfloor x) (Qfloor y)) as [Heq|Hne].
  - unfold rint. rewrite Heq.
    destruct (Qcompare (x - inject_Z (Qfloor y)) (1 # 2)) eqn:Ex;
      destruct (Qcompare (y - inject_Z (Qfloor y)) (1 # 2)) eqn:Ey;
      first [apply Qeq_alt in Ex|apply Qlt_alt in Ex|apply Qgt_alt in Ex];
      first [apply Qeq_alt in Ey|apply Qlt_alt in Ey|apply Qgt_alt in Ey];
      try destruct (Z.even _); try lia; exfalso; lra.
  - destruct (rint_cases x) as [-> | ->], (rint_cases y) as [-> | ->]; lia.
Qed.

Lemma rint_bounds a b x :
  inject_Z a <= x → x <= inject_Z b → (a <= rint x <= b)%Z.
Proof.
  intros Ha Hb. apply rint_le in Ha, Hb. rewrite rint_Z in Ha, Hb. lia.
Qed.

Lemma Q_num_den x : x * inject_Z (Z.pos (Qden x)) == inject_Z (Qnum x).
Proof.
  destruct x as [n d]. unfold Qeq, Qmult, inject_Z. simpl. lia.
Qed.

Lemma log2_bounds n :
  (0 < n)%Z → pow2 (Z.log2 n) <= inject_Z n /\ inject_Z n < pow2 (Z.log2 n + 1).
Proof.
  intros Hn. pose proof (Z.log2_spec n Hn) as [Hlo Hhi].
  pose proof (Z.log2_nonneg n).
  rewrite !pow2_Z by lia. rewrite <-Zle_Qle, <-Zlt_Qlt.
  split; [assumption|]. replace (Z.log2 n + 1)%Z with (Z.succ (Z.log2 n)) by lia. assumption.
Qed.

Lemma binade_spec x : 0 < x → pow2 (binade x) <= x /\ x < pow2 (binade x + 1).
Proof.
  intros Hx. unfold binade.
  set (n := Qnum x). set (d := Z.pos (Qden x)).
  assert (0 < n)%Z as Hn.
  { destruct x as [n' d']. unfold Qlt in Hx. simpl in *. subst n. lia. }
  destruct (log2_bounds n Hn) as [Hn1 Hn2].
  destruct (log2_bounds d eq_refl) as [Hd1 Hd2].
  pose proof (Q_num_den x) as Hxd. fold n d in Hxd.
  set (a := Z.log2 n) in *. set (b := Z.log2 d) in *.
  assert (x < pow2 (a - b + 1)) as Hupper.
  { apply Qmult_lt_r with (pow2 b); [apply pow2_pos|].
    rewrite <-pow2_add. replace (a - b + 1 + b)%Z with (a + 1)%Z by lia.
    apply Qle_lt_trans with (x * inject_Z d); [|rewrite Hxd; assumption].
    apply Qmult_le_l; assumption. }
  assert (pow2 (a - b - 1) <= x) as Hlower.
  { apply Qmult_le_r with (pow2 (b + 1)); [apply pow2_pos|].
    rewrite <-pow2_add. replace (a - b - 1 + (b + 1))%Z with a by lia.
    apply Qle_trans with (x * inject_Z d); [rewrite Hxd; assumption|].
    apply Qmult_le_l; [assumption|]. apply Qlt_le_weak. assumption. }
  destruct (Qle_bool (pow2 (a - b)) x) eqn:E.
  - apply Qle_bool_iff in E. split; assumption.
  - assert (x < pow2 (a - b)) as Hlt.
    { apply Qnot_le_lt. intros Hle. apply Qle_bool_iff in Hle. congruence. }
    replace (a - b - 1 + 1)%Z with (a - b)%Z by lia. split; assumption.
Qed.

Lemma binade_unique x e : pow2 e <= x → x < pow2 (e + 1) → binade x = e.
Proof.
  intros Hlo Hhi.
  assert (0 < x) as Hx by (eapply Qlt_le_trans; [apply pow2_pos|eassumption]).
  destruct (binade_spec x Hx) as [Hlo' Hhi'].
  assert (binade x < e + 1)%Z by (apply pow2_lt_inv; eapply Qle_lt_trans; eassumption).
  assert (e < binade x + 1)%Z by (apply pow2_lt_inv; eapply Qle_lt_trans; eassumption).
  lia.
Qed.

Lemma binade_le x y : 0 < x → x <= y → (binade x <= binade y)%Z.
Proof.
  intros Hx Hxy.
  assert (0 < y) as Hy by (eapply Qlt_le_trans; eassumption).
  destruct (binade_spec x Hx) as [Hlo _]. destruct (binade_spec y Hy) as [_ Hhi].
  assert (binade x < binade y + 1)%Z; [|lia].
  apply pow2_lt_inv. eapply Qle_lt_trans; [eassumption|]. eapply Qle_lt_trans; eassumption.
Qed.

Lemma significand_bounds x : 0 < x → (2 ^ 52 <= significand x <= 2 ^ 53)%Z.
Proof.
  intros Hx. destruct (binade_spec x Hx) as [Hlo Hhi].
  unfold significand. apply rint_bounds.
  - rewrite <-pow2_Z by lia.
    apply Qle_trans with (pow2 (binade x) * pow2 (- (binade x - 52))).
    + rewrite <-pow2_add. apply pow2_le. lia.
    + apply Qmult_le_compat_r; [assumption|]. apply Qlt_le_weak, pow2_pos.
  - rewrite <-pow2_Z by lia.
    apply Qle_trans with (pow2 (binade x + 1) * pow2 (- (binade x - 52))).
    + apply Qmult_le_compat_r; [apply Qlt_le_weak; assumption|].
      apply Qlt_le_weak, pow2_pos.
    + rewrite <-pow2_add. apply pow2_le. lia.
Qed.

Lemma round_positive_bounds x :
  0 < x → pow2 (binade x) <= round_positive x /\ round_positive x <= pow2 (binade x + 1).
Proof.
  intros Hx. pose proof (significand_bounds x Hx) as [Hlo Hhi].
  unfold round_positive.
  rewrite Zle_Qle, <-pow2_Z in Hlo, Hhi by lia.
  split.
  - apply Qle_trans with (pow2 52 * pow2 (binade x - 52)).
    + rewrite <-pow2_add. apply pow2_le. lia.
    + apply Qmult_le_compat_r; [assumption|]. apply Qlt_le_weak, pow2_pos.
  - apply Qle_trans with (pow2 53 * pow2 (binade x - 52)).
    + apply Qmult_le_compat_r; [assumption|]. apply Qlt_le_weak, pow2_pos.
    + rewrite <-pow2_add. apply pow2_le. lia.
Qed.

Lemma round_positive_pos x : 0 < x → 0 < round_positive x.
Proof.
  intros Hx. eapply Qlt_le_trans; [apply pow2_pos|]. apply round_positive_bounds, Hx.
Qed.

Lemma round_positive_le x y : 0 < x → x <= y → round_positive x <= round_positive y.
Proof.
  intros Hx Hxy.
  assert (0 < y) as Hy by (eapply Qlt_le_trans; eassumption).
  pose proof (binade_le x y Hx Hxy) as He.
  destruct (Z.eq_dec (binade x) (binade y)) as [Heq|Hne].
  - unfold round_positive, significand. rewrite Heq.
    apply Qmult_le_compat_r; [|apply Qlt_le_weak, pow2_pos].
    rewrite <-Zle_Qle. apply rint_le.
    apply Qmult_le_compat_r; [assumption|]. apply Qlt_le_weak, pow2_pos.
  - apply Qle_trans with (pow2 (binade x + 1)); [apply round_positive_bounds, Hx|].
    apply Qle_trans with (pow2 (binade y)); [apply pow2_le; lia|].
    apply round_positive_bounds, Hy.
Qed.

Lemma round_positive_comp x y : x == y → 0 < x → round_positive x == round_positive y.
Proof.
  intros Hxy Hx.
  assert (0 < y) as Hy by (rewrite <-Hxy; assumption).
  apply Qle_antisym; apply round_positive_le; try assumption;
    rewrite Hxy; apply Qle_refl.
Qed.

(** A number with a 53-bit significand rounds to itself. *)
Lemma round_positive_grid m e :
  (2 ^ 52 <= m < 2 ^ 53)%Z →
  round_positive (inject_Z m * pow2 (e - 52)) == inject_Z m * pow2 (e - 52).
Proof.
  intros [Hlo Hhi].
  assert (binade (inject_Z m * pow2 (e - 52)) = e) as He.
  { apply binade_unique.
    - apply Qle_trans with (pow2 52 * pow2 (e - 52)).
      + rewrite <-pow2_add. apply pow2_le. lia.
      + apply Qmult_le_compat_r; [|apply Qlt_le_weak, pow2_pos].
        rewrite pow2_Z by lia. rewrite <-Zle_Qle. assumption.
    - apply Qlt_le_trans with (pow2 53 * pow2 (e - 52)).
      + apply Qmult_lt_compat_r; [apply pow2_pos|].
        rewrite pow2_Z by lia. rewrite <-Zlt_Qlt. assumption.
      + rewrite <-pow2_add. apply pow2_le. lia. }
  unfold round_positive, significand. rewrite He.
  assert (inject_Z m * pow2 (e - 52) * pow2 (- (e - 52)) == inject_Z m) as Hm.
  { rewrite <-Qmult_assoc, (Qmult_comm (pow2 (e - 52))), pow2_cancel. ring. }
  rewrite (rint_comp _ _ Hm), rint_Z. reflexivity.
Qed.

Lemma round_positive_stored x : 0 < x → round_positive (round_positive x) == round_positive x.
Proof.
  intros Hx. pose proof (significand_bounds x Hx) as [Hlo Hhi].
  unfold round_positive at 2 3.
  destruct (Z.eq_dec (significand x) (2 ^ 53)%Z) as [Htop|Hne].
  - rewrite Htop.
    assert (inject_Z (2 ^ 53) * pow2 (binade x - 52) ==
            inject_Z (2 ^ 52) * pow2 (binade x + 1 - 52)) as Hshift.
    { rewrite <-!pow2_Z by lia. rewrite <-!pow2_add. apply Qpower_comp; [reflexivity|lia]. }
    rewrite (round_positive_comp _ _ Hshift).
    + rewrite Hshift. apply round_positive_grid. lia.
    + apply Qmult_lt_0_compat; [reflexivity|apply pow2_pos].
  - apply round_positive_grid. lia.
Qed.

Lemma round_le x y : x <= y → round x <= round y.
Proof.
  intros Hxy. unfold round. rewrite !Qred_correct.
  destruct (Qcompare x 0) eqn:Ex; destruct (Qcompare y 0) eqn:Ey;
    first [apply Qeq_alt in Ex|apply Qlt_alt in Ex|apply Qgt_alt in Ex];
    first [apply Qeq_alt in Ey|apply Qlt_alt in Ey|apply Qgt_alt in Ey];
    try (exfalso; lra).
  - apply Qle_refl.
  - apply Qlt_le_weak, round_positive_pos. assumption.
  - assert (0 < round_positive (- x)) by (apply round_positive_pos; lra). lra.
  - assert (round_positive (- y) <= round_positive (- x))
      by (apply round_positive_le; lra). lra.
  - assert (0 < round_positive (- x)) by (apply round_positive_pos; lra).
    assert (0 < round_positive y) by (apply round_positive_pos; lra). lra.
  - apply round_positive_le; assumption.
Qed.

Lemma round_stored x : round (round x) == round x.
Proof.
  unfold round at 2 3.
  destruct (Qcompare x 0) eqn:Ex;
    first [apply Qeq_alt in Ex|apply Qlt_alt in Ex|apply Qgt_alt in Ex].
  - reflexivity.
  - assert (0 < round_positive (- x)) as Hpos by (apply round_positive_pos; lra).
    set (r := Qred (- round_positive (- x))).
    assert (r == - round_positive (- x)) as Hr by apply Qred_correct.
    unfold round. rewrite Qred_correct.
    assert (Qcompare r 0 = Lt) as -> by (apply (proj1 (Qlt_alt _ _)); lra).
    assert (- r == round_positive (- x)) as Hr' by lra.
    rewrite (round_positive_comp _ _ Hr') by lra.
    rewrite round_positive_stored by lra. lra.
  - assert (0 < round_positive x) as Hpos by (apply round_positive_pos; assumption).
    set (r := Qred (round_positive x)).
    assert (r == round_positive x) as Hr by apply Qred_correct.
    unfold round. rewrite Qred_correct.
    assert (Qcompare r 0 = Gt) as -> by (apply (proj1 (Qgt_alt _ _)); lra).
    rewrite (round_positive_comp _ _ Hr) by lra.
    rewrite round_positive_stored by assumption. lra.
Qed.

End Binary64Facts.

(** ** The small library keeps the laws *)

Module ReferenceFacts.
Import Python Pandas Reference.

Lemma imap_index {A} (l : list A) : (imap (fun i r => (i, r)) l).*1 = seq 0 (length l).
Proof.
  change (imap (fun i r => (i, r)) l) with (imap (fun i r => (0 + i, r)) l).
  generalize 0. induction l as [|x l IH]; intros n; simpl; [done|].
  f_equal; [lia|]. rewrite <-IH. f_equal. apply imap_ext. intros; simpl. f_equal. lia.
Qed.

Lemma disk_index path f : disk path = Ok f → index f = seq 0 (n_rows f).
Proof.
  unfold disk. repeat case_decide; intros [= <-]; reflexivity.
Qed.

Lemma split_first_partition stratify test_size random_state n train test :
  split_first stratify test_size random_state n = Ok (train, test) →
  train ++ test ≡ₚ seq 0 n.
Proof.
  unfold split_first. case_decide as Ht; intros [= <- <-].
  rewrite (comm app), <-seq_app. f_equiv. lia.
Qed.

Lemma split_first_n_test stratify test_size random_state n train test :
  split_first stratify test_size random_state n = Ok (train, test) →
  length test = n_test test_size n.
Proof.
  unfold split_first. case_decide; intros [= <- <-]. by rewrite length_seq.
Qed.

Lemma split_first_returns stratify test_size random_state n :
  splittable stratify test_size n →
  ∃ train test, split_first stratify test_size random_state n = Ok (train, test).
Proof.
  intros [Ht _]. unfold split_first. rewrite decide_True by done. eauto.
Qed.

Lemma length_halving k : length (halving k) = k.
Proof. unfold halving. by rewrite length_fmap, length_seq. Qed.

Lemma length_dominating k : length (dominating k) = k.
Proof.
  unfold dominating. rewrite length_take, length_app, length_replicate. simpl. lia.
Qed.

Lemma fit_with_length importances sp X y f :
  (∀ k, length (importances k) = k) →
  fit_with importances sp X y = Ok f → Forall (fun r => length r = length f) X.
Proof.
  intros Hlength. unfold fit_with. destruct X as [|r X]; [done|].
  case_decide as HX; intros [= <-]. destruct HX as [_ HX].
  by rewrite Hlength.
Qed.

Lemma insert_by_permutation a i l : insert_by a i l ≡ₚ i :: l.
Proof.
  induction l as [|j l IH]; simpl; [done|].
  destruct (Qle_bool _ _); [done|]. by rewrite IH, Permutation_swap.
Qed.

Lemma stable_argsort_permutation a : stable_argsort a ≡ₚ seq 0 (length a).
Proof.
  unfold stable_argsort. induction (seq 0 (length a)) as [|i l IH]; simpl; [done|].
  by rewrite insert_by_permutation, IH.
Qed.

Lemma insert_by_sorted a i l :
  Sorted (Numpy.by_value a) l → Sorted (Numpy.by_value a) (insert_by a i l).
Proof.
  induction 1 as [|j l Hl IH Hj]; simpl; [by repeat constructor|].
  destruct (Qle_bool (Numpy.getitem a i) (Numpy.getitem a j)) eqn:E.
  - apply Qle_bool_iff in E. by repeat constructor.
  - assert (Numpy.by_value a j i) as Hji.
    { unfold Numpy.by_value. destruct (Qlt_le_dec (Numpy.getitem a j) (Numpy.getitem a i))
        as [?|Hle]; [by apply Qlt_le_weak|].
      apply Qle_bool_iff in Hle. congruence. }
    constructor; [exact IH|].
    destruct Hj as [|k l' Hjk]; simpl; [by constructor|].
    destruct (Qle_bool (Numpy.getitem a i) (Numpy.getitem a k)); by constructor.
Qed.

Lemma stable_argsort_sorted a : Sorted (Numpy.by_value a) (stable_argsort a).
Proof.
  unfold stable_argsort. induction (seq 0 (length a)) as [|i l IH]; simpl; [constructor|].
  by apply insert_by_sorted.
Qed.

(** float64 arithmetic and the stable sort. *)
Definition binary64 : Numpy.Float64 :=
  {| Numpy.float64 := Binary64.round;
     Numpy.float64_monotone := Binary64Facts.round_le;
     Numpy.float64_stored := Binary64Facts.round_stored;
     Numpy.float64_zero := Qeq_refl 0;
     Numpy.argsort := stable_argsort;
     Numpy.argsort_permutation := stable_argsort_permutation;
     Numpy.argsort_ascending := stable_argsort_sorted |}.

(** The library over a given disk, with given importances of a fitted
    forest's columns. *)
Definition library (read : string → result frame)
    (read_index : ∀ path f, read path = Ok f → index f = seq 0 (n_rows f))
    (importances : nat → list Q)
    (importances_length : ∀ k, length (importances k) = k) : Library :=
  {| numpy := binary64;
     read_csv := read;
     read_csv_index := read_index;
     concat := fun a b => {| columns := columns a; rows := rows a ++ rows b |};
     concat_index := fun a b => fmap_app fst (rows a) (rows b);
     concat_same_columns := fun a b _ => eq_refl;
     value_counts := fun l => (fun c => (c, length (filter (fun c' => c' = c) l))) <$> remove_dups l;
     split_positions := split_first;
     split_positions_partition := split_first_partition;
     split_positions_n_test := split_first_n_test;
     split_positions_returns := split_first_returns;
     scaler := unit;
     scaler_fit := fun _ => Ok tt;
     scale_cell := fun _ _ c => c;
     fitted := list Q;
     fit := fit_with importances;
     predict := fun _ X => Ok (replicate (length X) 0);
     feature_importances := fun f => f;
     feature_importances_length :=
       fun sp X y f => fit_with_length importances sp X y f importances_length;
     names_after_fit := fun _ _ => None;
     best_params := fun _ => (10, 10);
     best_score := fun _ => 1%Q;
     accuracy_score := fun _ _ => Ok 1%Q;
     f1_score := fun _ _ => Ok 1%Q;
     recall_score := fun _ _ => Ok 1%Q;
     precision_score := fun _ _ => Ok 1%Q;
     import_module := fun _ => Ok tt;
     pyplot := fun _ => Ok tt;
     cost := ticks |}.

#[global] Instance reference : Library := library disk disk_index halving length_halving.

(** The same library over an empty disk: every [read_csv] fails. *)
Definition no_files : Library :=
  library (fun _ => Raise FileNotFoundError) (fun _ _ H => match H with end)
    halving length_halving.

(** The same library with a dominating feature. *)
Definition dominated : Library := library disk disk_index dominating length_dominating.

End ReferenceFacts.

(** ** Feature selection on the small library *)

Module SelectionRuns.
Import Numpy FeatureSelection FeatureSelectionFacts Reference ReferenceFacts.
Local Open Scope Q_scope.

Lemma selected_features_longest_prefix_example :
  Forall (fun x => 0 <= x) [3 # 4; 1 # 4] ∧
  (indices [3 # 4; 1 # 4] ≡ₚ seq 0 (length [3 # 4; 1 # 4]) ∧
   StronglySorted (fun i j => getitem [3 # 4; 1 # 4] j <= getitem [3 # 4; 1 # 4] i)
     (indices [3 # 4; 1 # 4]) ∧
   (∀ j c, cum_important [3 # 4; 1 # 4] !! j = Some c →
      ∃ i, indices [3 # 4; 1 # 4] !! j = Some i ∧
           c = match j with
               | O => float64 (getitem [3 # 4; 1 # 4] i)
               | S j' => float64 (default 0 (cum_important [3 # 4; 1 # 4] !! j')
                                  + float64 (getitem [3 # 4; 1 # 4] i))
               end) ∧
   StronglySorted Qle (cum_important [3 # 4; 1 # 4]) ∧
   ∃ k, (k ≤ length [3 # 4; 1 # 4])%nat ∧
     selected_features [3 # 4; 1 # 4] = take k (indices [3 # 4; 1 # 4]) ∧
     Forall (fun c => c <= threshold) (take k (cum_important [3 # 4; 1 # 4])) ∧
     Forall (fun c => threshold < c) (drop k (cum_important [3 # 4; 1 # 4]))).
Proof.
  assert (Forall (fun x => 0 <= x) [3 # 4; 1 # 4]) as Ha
    by (repeat constructor; discriminate).
  split; [exact Ha|].
  exact (selected_features_longest_prefix_within_threshold [3 # 4; 1 # 4] Ha).
Defined.

(** C1 as the spec words it fails: the importances 0.75 and 0.25 are
    non-negative float64 numbers and sum to 1 without rounding; only
    feature 0 is selected, and it holds 0.75 of the importance, which
    does not reach 0.9. *)
Lemma selected_features_miss_ninety_percent :
  Forall (fun x => 0 <= x) [3 # 4; 1 # 4] ∧
  Qsum [3 # 4; 1 # 4] == 1 ∧
  Forall2 Qeq (cum_important [3 # 4; 1 # 4]) [3 # 4; 1] ∧
  selected_features [3 # 4; 1 # 4] = [0%nat] ∧
  mass [3 # 4; 1 # 4] (selected_features [3 # 4; 1 # 4]) == 3 # 4 ∧
  ¬ 9 # 10 <= mass [3 # 4; 1 # 4] (selected_features [3 # 4; 1 # 4]).
Proof.
  split; [repeat constructor; discriminate|].
  split; [reflexivity|]. split; [by repeat constructor|].
  split; [reflexivity|]. split; [reflexivity|].
  intros Hle. vm_compute in Hle. by apply Hle.
Qed.

(** The selection at the threshold.  An importance 0.9 is within the
    float64 [0.9]; the float64 sum of 0.5 and 0.4 is the float64 [0.9],
    and both features are selected; the float64 sum of 0.56 and 0.34 is
    the next float64 above it, and only the first is selected.  Of two
    equal importances the stable sort ranks the later one first. *)
Lemma selected_features_at_the_threshold :
  threshold = 8106479329266893 # 9007199254740992 ∧
  selected_features [9 # 10; 1 # 10] = [0%nat] ∧
  selected_features [5 # 10; 4 # 10; 1 # 10] = [0%nat; 1%nat] ∧
  selected_features [56 # 100; 34 # 100; 10 # 100] = [0%nat] ∧
  selected_features (float64 <$> [56 # 100; 34 # 100; 10 # 100]) = [0%nat] ∧
  selected_features [1 # 8; 3 # 4; 1 # 8] = [1%nat; 2%nat].
Proof. repeat split; vm_compute; reflexivity. Qed.

End SelectionRuns.

(** ** pandas and scikit-learn: rows, splits and the confusion matrix *)

Module SklearnFacts.
Import Python Pandas Sklearn.

Lemma take_rows_cons {A} (l : list A) i positions :
  take_rows l (i :: positions) =
  match l !! i with
  | Some x => x :: take_rows l positions
  | None => take_rows l positions
  end.
Proof. reflexivity. Qed.

Lemma take_rows_seq_from {A} (l1 l2 : list A) :
  take_rows (l1 ++ l2) (seq (length l1) (length l2)) = l2.
Proof.
  revert l1. induction l2 as [|x l2 IH]; intros l1; [done|].
  cbn [length seq]. rewrite take_rows_cons.
  rewrite list_lookup_middle by done. f_equal.
  specialize (IH (l1 ++ [x])). rewrite length_app, <-(assoc_L app) in IH. simpl in IH.
  by rewrite Nat.add_1_r in IH.
Qed.

(** Taking every position in order gives the list back. *)
Lemma take_rows_seq {A} (l : list A) : take_rows l (seq 0 (length l)) = l.
Proof. apply (take_rows_seq_from [] l). Qed.

(** Positions that partition the rows give parts that partition them. *)
Lemma take_rows_partition {A} (l : list A) train test :
  train ++ test ≡ₚ seq 0 (length l) →
  take_rows l train ++ take_rows l test ≡ₚ l.
Proof.
  intros Hperm. pose proof (take_rows_seq l) as Hl. unfold take_rows in *.
  by rewrite <-omap_app, Hperm, Hl.
Qed.

Lemma take_rows_fmap {A B} (f : A → B) (l : list A) positions :
  f <$> take_rows l positions = take_rows (f <$> l) positions.
Proof.
  induction positions as [|i positions IH]; [done|].
  rewrite !take_rows_cons, list_lookup_fmap.
  destruct (l !! i); simpl; [f_equal|]; exact IH.
Qed.

Lemma length_take_rows {A} (l : list A) positions :
  Forall (fun i => i < length l) positions →
  length (take_rows l positions) = length positions.
Proof.
  induction 1 as [|i positions Hi _ IH]; [done|].
  rewrite take_rows_cons. destruct (lookup_lt_is_Some_2 l i Hi) as [x ->]. simpl. by rewrite IH.
Qed.

Lemma partition_in_range train test n :
  train ++ test ≡ₚ seq 0 n →
  Forall (fun i => i < n) train ∧ Forall (fun i => i < n) test ∧
  length train + length test = n.
Proof.
  intros Hperm.
  assert (Forall (fun i => i < n) (train ++ test)) as [??]%Forall_app.
  { rewrite Hperm. apply Forall_forall. intros i ?%elem_of_seq. lia. }
  split; [done|]. split; [done|].
  by rewrite <-length_app, Hperm, length_seq.
Qed.

(** The size of the test part, for the two fractions the notebooks use. *)
Lemma n_test_three_tenths n : n_test (3 # 10) n = (3 * n + 9) / 10.
Proof.
  unfold n_test, Qceiling, Qfloor. cbn [Qmult Qnum Qden inject_Z Qopp].
  apply Nat2Z.inj. rewrite Nat2Z.inj_div, Z2Nat.id.
  - change (Z.pos (10 * 1)) with 10%Z. change (Z.of_nat 10) with 10%Z.
    Z.div_mod_to_equations. lia.
  - change (Z.pos (10 * 1)) with 10%Z. Z.div_mod_to_equations. lia.
Qed.

Lemma n_test_half n : n_test (1 # 2) n = (n + 1) / 2.
Proof.
  unfold n_test, Qceiling, Qfloor. cbn [Qmult Qnum Qden inject_Z Qopp].
  apply Nat2Z.inj. rewrite Nat2Z.inj_div, Z2Nat.id.
  - change (Z.pos (2 * 1)) with 2%Z. change (Z.of_nat 2) with 2%Z.
    Z.div_mod_to_equations. lia.
  - change (Z.pos (2 * 1)) with 2%Z. Z.div_mod_to_equations. lia.
Qed.

Section split.
Context `{Library}.

(** What a split that returned has done. *)
Lemma train_test_split_spec X y test_size stratify random_state X_train X_test y_train y_test :
  train_test_split X y test_size stratify random_state =
    Ok (X_train, X_test, y_train, y_test) →
  ∃ train test,
    split_positions (values <$> stratify) test_size random_state (n_rows X) = Ok (train, test) ∧
    n_rows X = length y ∧
    train ++ test ≡ₚ seq 0 (n_rows X) ∧
    length test = n_test test_size (n_rows X) ∧
    X_train = iloc_rows X train ∧ X_test = iloc_rows X test ∧
    y_train = take_rows y train ∧ y_test = take_rows y test.
Proof.
  unfold train_test_split. case_decide as Hlen; [|done].
  destruct (split_positions _ _ _ _) as [[train test]|] eqn:Hsplit; [|done].
  intros [= <- <- <- <-]. exists train, test.
  split; [done|]. split; [done|].
  split; [by eapply split_positions_partition|].
  split; [by eapply split_positions_n_test|]. done.
Qed.

Lemma train_test_split_returns X y test_size stratify random_state :
  n_rows X = length y →
  splittable (values <$> stratify) test_size (n_rows X) →
  ∃ r, train_test_split X y test_size stratify random_state = Ok r.
Proof.
  intros Hlen Hsplit. unfold train_test_split. rewrite decide_True by done.
  destruct (split_positions_returns _ _ random_state _ Hsplit) as (train & test & ->).
  simpl. eauto.
Qed.

Lemma index_iloc_rows X positions : index (iloc_rows X positions) = take_rows (index X) positions.
Proof. unfold index, iloc_rows. simpl. apply take_rows_fmap. Qed.

Lemma index_transform s X : index (transform s X) = index X.
Proof. unfold index, transform. simpl. by rewrite <-list_fmap_compose. Qed.

End split.

Section confusion.
Context `{Cells}.

Lemma sum_list_fmap {A} (f : A → nat) l : sum_list (f <$> l) = sum_list_with f l.
Proof. induction l as [|x l IH]; csimpl; [done|]. by rewrite IH. Qed.

Lemma sum_list_with_ext {A} (f g : A → nat) l :
  (∀ x, x ∈ l → f x = g x) → sum_list_with f l = sum_list_with g l.
Proof.
  induction l as [|x l IH]; intros Hfg; simpl; [done|].
  rewrite Hfg, IH; [done| |by left]. intros y Hy. apply Hfg. by right.
Qed.

Lemma sum_list_with_plus {A} (f g : A → nat) l :
  sum_list_with (fun x => f x + g x) l = sum_list_with f l + sum_list_with g l.
Proof. induction l as [|x l IH]; simpl; [done|]. rewrite IH. lia. Qed.

Lemma sum_list_with_zero {A} (l : list A) : sum_list_with (fun _ => 0) l = 0.
Proof. induction l; simpl; auto. Qed.

(** Over a list without repetition, exactly one entry is [x]. *)
Lemma sum_indicator (x : cell) l :
  NoDup l → x ∈ l → sum_list_with (fun a => if decide (x = a) then 1 else 0) l = 1.
Proof.
  induction 1 as [|a l Ha _ IH]; intros Hx; [by apply elem_of_nil in Hx|].
  simpl. case_decide as Hxa.
  - subst a. rewrite (sum_list_with_ext _ (fun _ => 0)), sum_list_with_zero; [done|].
    intros b Hb. case_decide; [by subst|done].
  - apply elem_of_cons in Hx as [?|Hx]; [done|]. by rewrite IH.
Qed.

Lemma count_pairs_nil a b : count_pairs a b [] = 0.
Proof. done. Qed.

Lemma count_pairs_cons a b z zs :
  count_pairs a b (z :: zs) =
  (if decide (z.1 = a) then if decide (z.2 = b) then 1 else 0 else 0) + count_pairs a b zs.
Proof.
  unfold count_pairs. rewrite filter_cons.
  destruct (decide (z.1 = a)) as [Ha|Ha], (decide (z.2 = b)) as [Hb|Hb].
  - by rewrite decide_True.
  - rewrite decide_False; [done|]. by intros [_ ?].
  - rewrite decide_False; [done|]. by intros [? _].
  - rewrite decide_False; [done|]. by intros [? _].
Qed.

(** Every pair is counted in exactly one cell. *)
Lemma cells_count_every_pair labels zs :
  NoDup labels →
  Forall (fun z : cell * cell => z.1 ∈ labels ∧ z.2 ∈ labels) zs →
  sum_list_with (fun a => sum_list_with (fun b => count_pairs a b zs) labels) labels =
  length zs.
Proof.
  intros Hlabels. induction 1 as [|z zs [Hz1 Hz2] _ IH].
  { rewrite (sum_list_with_ext _ (fun _ => 0)), sum_list_with_zero; [done|].
    intros a _. apply sum_list_with_zero. }
  rewrite (sum_list_with_ext _
    (fun a => (if decide (z.1 = a) then 1 else 0) +
              sum_list_with (fun b => count_pairs a b zs) labels)).
  - rewrite sum_list_with_plus, IH, sum_indicator by done. done.
  - intros a _.
    rewrite (sum_list_with_ext _
      (fun b => (if decide (z.1 = a) then if decide (z.2 = b) then 1 else 0 else 0) +
                count_pairs a b zs)) by (intros; apply count_pairs_cons).
    rewrite sum_list_with_plus. f_equal. case_decide.
    + by apply sum_indicator.
    + apply sum_list_with_zero.
Qed.

Lemma unique_labels_NoDup y_true y_pred : NoDup (unique_labels y_true y_pred).
Proof. unfold unique_labels. rewrite merge_sort_Permutation. apply NoDup_remove_dups. Qed.

Lemma elem_of_unique_labels y_true y_pred x :
  x ∈ unique_labels y_true y_pred ↔ x ∈ y_true ++ y_pred.
Proof. unfold unique_labels. by rewrite merge_sort_Permutation, elem_of_remove_dups. Qed.

Lemma zip_in_labels y_true y_pred :
  Forall (fun z : cell * cell =>
            z.1 ∈ unique_labels y_true y_pred ∧ z.2 ∈ unique_labels y_true y_pred)
    (zip y_true y_pred).
Proof.
  apply Forall_forall. intros [t p] Hz. rewrite !elem_of_unique_labels, !elem_of_app.
  split; [left; by eapply elem_of_zip_l|right; by eapply elem_of_zip_r].
Qed.

Lemma confusion_matrix_sum y_true y_pred m :
  confusion_matrix y_true y_pred = Ok m → sum_cells m = length y_true.
Proof.
  unfold confusion_matrix. case_decide as Hlen; [|done]. intros [= <-].
  unfold sum_cells. rewrite <-list_fmap_compose, sum_list_fmap.
  rewrite (sum_list_with_ext _
    (fun a => sum_list_with (fun b => count_pairs a b (zip y_true y_pred))
                (unique_labels y_true y_pred))).
  - rewrite cells_count_every_pair
      by (apply unique_labels_NoDup || apply zip_in_labels).
    rewrite length_zip. lia.
  - intros a _. simpl. apply sum_list_fmap.
Qed.

(** Two labels that both occur give two rows of two cells. *)
Lemma two_labels y_true y_pred zero one :
  zero ≠ one →
  Forall (fun v => v = zero ∨ v = one) (y_true ++ y_pred) →
  zero ∈ y_true ++ y_pred → one ∈ y_true ++ y_pred →
  ∃ a b, unique_labels y_true y_pred = [a; b].
Proof.
  intros Hne Hvalues Hzero Hone.
  assert (unique_labels y_true y_pred ≡ₚ [zero; one]) as Hperm.
  { apply NoDup_Permutation.
    - apply unique_labels_NoDup.
    - apply NoDup_cons. split; [by intros ?%list_elem_of_singleton|apply NoDup_singleton].
    - intros x. rewrite elem_of_unique_labels. rewrite Forall_forall in Hvalues.
      split.
      + intros [->| ->]%Hvalues; [by left|by right; left].
      + intros [->|[->|[]%elem_of_nil]%elem_of_cons]%elem_of_cons; done. }
  apply Permutation_length in Hperm.
  destruct (unique_labels y_true y_pred) as [|a [|b [|c l]]]; try done. eauto.
Qed.

End confusion.
End SklearnFacts.

(** ** Reasoning about runs *)

Module KernelFacts.
Import Python Pandas Sklearn Kernel.

Section wp.
Context `{Library}.

(** [wp m Q E w]: from [w], [m] returns a value and a state that satisfy
    [Q], or raises an exception in a state that satisfy [E]. *)
Definition wp {A} (m : Py A) (Q : A → world → Prop) (E : exn → world → Prop)
    (w : world) : Prop :=
  match m w with
  | Returns a w' => Q a w'
  | Raises e w' => E e w'
  end.

Lemma wp_returns {A} (m : Py A) Q w :
  wp m Q (fun _ _ => False) w → ∃ a w', m w = Returns a w' ∧ Q a w'.
Proof. unfold wp. destruct (m w); [eauto|done]. Qed.

Lemma returned_run p w :
  returned (run p w) = true → run p w = Returns tt (world_of (run p w)).
Proof. by destruct (run p w) as [[] w'|]. Qed.

Lemma wp_of_returns {A} (m : Py A) (Q : A → world → Prop) E w a w' :
  m w = Returns a w' → Q a w' → wp m Q E w.
Proof. unfold wp. by intros ->. Qed.

Lemma wp_mono {A} (m : Py A) (Q Q' : A → world → Prop) (E E' : exn → world → Prop) w :
  wp m Q E w → (∀ a w', Q a w' → Q' a w') → (∀ e w', E e w' → E' e w') → wp m Q' E' w.
Proof. unfold wp. destruct (m w); auto. Qed.

Lemma wp_any {A} (m : Py A) (Q : A → world → Prop) (E : exn → world → Prop) w :
  (∀ a w', m w = Returns a w' → Q a w') →
  (∀ e w', m w = Raises e w' → E e w') → wp m Q E w.
Proof. unfold wp. destruct (m w); auto. Qed.

Lemma wp_raises {A} (m : Py A) e wE w :
  wp m (fun _ _ => False) (fun e' w' => e' = e ∧ w' = wE) w → m w = Raises e wE.
Proof. unfold wp. destruct (m w) as [|e' w']; [done|]. by intros [-> ->]. Qed.

Lemma wp_ret {A} (a : A) Q E w : Q a w → wp (mret a) Q E w.
Proof. done. Qed.

Lemma wp_bind {A B} (m : Py A) (f : A → Py B) Q E w :
  wp m (fun a w' => wp (f a) Q E w') E w → wp (m ≫= f) Q E w.
Proof. unfold wp, mbind, Py_bind. by destruct (m w). Qed.

Lemma wp_fmap {A B} (f : A → B) (m : Py A) Q E w :
  wp m (fun a w' => Q (f a) w') E w → wp (f <$> m) Q E w.
Proof. unfold wp, fmap, Py_fmap. by destruct (m w). Qed.

Lemma wp_raise {A} e (Q : A → world → Prop) E w : E e w → wp (raise e) Q E w.
Proof. done. Qed.

Lemma wp_lift {A} (r : result A) Q E w :
  match r with Ok a => Q a w | Raise e => E e w end → wp (lift r) Q E w.
Proof. unfold wp, lift. by destruct r. Qed.

Lemma wp_call {A} site (r : result A) Q E w :
  match r with
  | Ok a => Q a (advance (cost site) w)
  | Raise e => E e (advance (cost site) w)
  end → wp (call site r) Q E w.
Proof. unfold wp, call, lift, tick, mbind, Py_bind. by destruct r. Qed.

Lemma wp_read_csv path Q E w :
  match read_csv path with
  | Ok f => Q f (advance (cost ("pd.read_csv " +:+ path)) (opened path w))
  | Raise e => E e (advance (cost ("pd.read_csv " +:+ path)) (opened path w))
  end → wp (pd_read_csv path) Q E w.
Proof. unfold pd_read_csv. apply wp_call. Qed.

Lemma wp_time Q E w : Q (clock w) w → wp time_time Q E w.
Proof. done. Qed.

Lemma wp_print line Q E w : Q tt (emit line w) → wp (print line) Q E w.
Proof. done. Qed.

Lemma wp_store x v Q E w : Q tt (bound x v w) → wp (store x v) Q E w.
Proof. done. Qed.

Lemma wp_load x Q E w :
  match globals w !! x with Some v => Q v w | None => E NameError w end →
  wp (load x) Q E w.
Proof. unfold wp, load. by destruct (globals w !! x). Qed.

Lemma wp_load_frame x Q E w :
  match globals w !! x with
  | Some (VFrame f) => Q f w
  | Some _ => E TypeError w
  | None => E NameError w
  end → wp (load_frame x) Q E w.
Proof. unfold wp, load_frame, load, mbind, Py_bind. by destruct (globals w !! x) as [[]|]. Qed.

Lemma wp_load_series x Q E w :
  match globals w !! x with
  | Some (VSeries s) => Q s w
  | Some _ => E TypeError w
  | None => E NameError w
  end → wp (load_series x) Q E w.
Proof. unfold wp, load_series, load, mbind, Py_bind. by destruct (globals w !! x) as [[]|]. Qed.

Lemma wp_load_labels x Q E w :
  match globals w !! x with
  | Some (VLabels l) => Q l w
  | Some _ => E TypeError w
  | None => E NameError w
  end → wp (load_labels x) Q E w.
Proof. unfold wp, load_labels, load, mbind, Py_bind. by destruct (globals w !! x) as [[]|]. Qed.

Lemma wp_load_vec x Q E w :
  match globals w !! x with
  | Some (VVec l) => Q l w
  | Some _ => E TypeError w
  | None => E NameError w
  end → wp (load_vec x) Q E w.
Proof. unfold wp, load_vec, load, mbind, Py_bind. by destruct (globals w !! x) as [[]|]. Qed.

Lemma wp_load_idx x Q E w :
  match globals w !! x with
  | Some (VIdx l) => Q l w
  | Some _ => E TypeError w
  | None => E NameError w
  end → wp (load_idx x) Q E w.
Proof. unfold wp, load_idx, load, mbind, Py_bind. by destruct (globals w !! x) as [[]|]. Qed.

Lemma wp_load_time x Q E w :
  match globals w !! x with
  | Some (VTime t) => Q t w
  | Some _ => E TypeError w
  | None => E NameError w
  end → wp (load_time x) Q E w.
Proof. unfold wp, load_time, load, mbind, Py_bind. by destruct (globals w !! x) as [[]|]. Qed.

Lemma wp_load_scaler x Q E w :
  match globals w !! x with
  | Some (VScaler s) => Q s w
  | Some _ => E TypeError w
  | None => E NameError w
  end → wp (load_scaler x) Q E w.
Proof. unfold wp, load_scaler, load, mbind, Py_bind. by destruct (globals w !! x) as [[]|]. Qed.

Lemma wp_load_estimator x Q E w :
  match globals w !! x with
  | Some (VEstimator m) => Q m w
  | Some _ => E TypeError w
  | None => E NameError w
  end → wp (load_estimator x) Q E w.
Proof. unfold wp, load_estimator, load, mbind, Py_bind. by destruct (globals w !! x) as [[]|]. Qed.

Lemma wp_run_nil Q E w : Q tt w → wp (run []) Q E w.
Proof. done. Qed.

Lemma wp_run_cons s p Q E w :
  wp s (fun _ w' => wp (run p) Q E w') E w → wp (run (s :: p)) Q E w.
Proof. simpl. apply wp_bind. Qed.

Lemma wp_run_app p1 p2 Q E w :
  wp (run p1) (fun _ w' => wp (run p2) Q E w') E w → wp (run (p1 ++ p2)) Q E w.
Proof.
  revert w. induction p1 as [|s p1 IH]; intros w; simpl; [done|].
  intros Hw. apply wp_bind. unfold wp at 1 in Hw. unfold mbind, Py_bind in Hw.
  unfold wp at 1. destruct (s w) as [[] w'|e w']; [|done]. by apply IH.
Qed.

Lemma run_app_returns p1 p2 w w' :
  run (p1 ++ p2) w = Returns tt w' ↔
  ∃ w1, run p1 w = Returns tt w1 ∧ run p2 w1 = Returns tt w'.
Proof.
  revert w. induction p1 as [|s p1 IH]; intros w; simpl.
  - split; [eauto|]. by intros (w1 & [= <-] & ?).
  - unfold mbind, Py_bind. destruct (s w) as [[] w1|e w1]; [apply IH|].
    split; [done|]. by intros (? & ? & ?).
Qed.

(** *** What a computation leaves alone *)

(** [same_on N w w']: the names in [N] are bound in [w'] as in [w], and
    no file was read in between. *)
Definition same_on (N : list string) (w w' : world) : Prop :=
  (∀ x, x ∈ N → globals w' !! x = globals w !! x) ∧ files_read w' = files_read w.

(** [steady N m]: however [m] ends, it leaves the names in [N] and the
    files alone. *)
Definition steady {A} (N : list string) (m : Py A) : Prop :=
  ∀ w, same_on N w (world_of (m w)).

Lemma same_on_refl N w : same_on N w w.
Proof. by split. Qed.

Lemma same_on_trans N w1 w2 w3 : same_on N w1 w2 → same_on N w2 w3 → same_on N w1 w3.
Proof.
  intros [H1 H1'] [H2 H2']. split; [|congruence].
  intros x Hx. rewrite H2, H1; done.
Qed.

Lemma steady_ret {A} N (a : A) : steady N (mret a).
Proof. intros w. apply same_on_refl. Qed.

Lemma steady_raise {A} N e : steady N (@raise _ _ A e).
Proof. intros w. apply same_on_refl. Qed.

Lemma steady_bind {A B} N (m : Py A) (f : A → Py B) :
  steady N m → (∀ a, steady N (f a)) → steady N (m ≫= f).
Proof.
  intros Hm Hf w. specialize (Hm w). unfold mbind, Py_bind.
  destruct (m w) as [a w1|e w1]; simpl in *; [|done].
  eapply same_on_trans; [exact Hm|apply Hf].
Qed.

Lemma steady_fmap {A B} N (f : A → B) (m : Py A) : steady N m → steady N (f <$> m).
Proof. intros Hm w. specialize (Hm w). unfold fmap, Py_fmap. by destruct (m w). Qed.

Lemma steady_lift {A} N (r : result A) : steady N (lift r).
Proof. intros w. unfold lift. destruct r; apply same_on_refl. Qed.

Lemma steady_call {A} N site (r : result A) : steady N (call site r).
Proof. intros w. unfold call, tick, lift, mbind, Py_bind. by destruct r. Qed.

Lemma steady_time N : steady N time_time.
Proof. intros w. apply same_on_refl. Qed.

Lemma steady_print N line : steady N (print line).
Proof. by intros w. Qed.

Lemma steady_load N x : steady N (load x).
Proof. intros w. unfold load. destruct (globals w !! x); apply same_on_refl. Qed.

Lemma steady_store N x v : x ∉ N → steady N (store x v).
Proof.
  intros Hx w. split; [|done]. intros y Hy. simpl.
  apply lookup_insert_ne. by intros ->.
Qed.

Lemma steady_for_each {A S} N (l : list A) (body : A → S → Py S) s :
  (∀ a s, steady N (body a s)) → steady N (for_each l body s).
Proof.
  intros Hbody. revert s. induction l as [|a l IH]; intros s; simpl.
  - apply steady_ret.
  - apply steady_bind; auto.
Qed.

Lemma steady_run N p : Forall (steady N) p → steady N (run p).
Proof.
  induction 1 as [|s p Hs _ IH]; simpl; [apply steady_ret|].
  apply steady_bind; auto.
Qed.

(** Along a run of statements that are steady on [N], every state on the
    way agrees with the first on [N]. *)
Lemma steady_run_take N p k : Forall (steady N) p → steady N (run (take k p)).
Proof. intros Hp. by apply steady_run, Forall_take. Qed.

End wp.

Ltac wp_head t :=
  lazymatch t with
  | ?f _ => wp_head f
  | _ => t
  end.

(** One step of a proof that a computation is steady, by its shape. *)
Ltac steady_notin :=
  rewrite ?not_elem_of_cons; repeat split; try discriminate; apply not_elem_of_nil.

Ltac steady_step :=
  lazymatch goal with
  | |- steady _ ?m =>
      lazymatch m with
      | mbind _ _ => apply steady_bind; [|intros ?]
      | fmap _ _ => apply steady_fmap
      | mret _ => apply steady_ret
      | raise _ => apply steady_raise
      | store _ _ => apply steady_store; steady_notin
      | print _ => apply steady_print
      | time_time => apply steady_time
      | load _ => apply steady_load
      | call _ _ => apply steady_call
      | lift _ => apply steady_lift
      | for_each _ _ _ => apply steady_for_each; intros ? ?
      | match ?x with _ => _ end => destruct x
      | _ => let h := wp_head m in unfold h
      end
  end.

Ltac steady_auto := repeat steady_step.

(** One step of symbolic execution, by the shape of the computation. *)
Ltac wp_step :=
  lazymatch goal with
  | |- wp ?m _ _ _ =>
      lazymatch m with
      | run (_ :: _) => apply wp_run_cons
      | run [] => apply wp_run_nil
      | run (_ ++ _) => apply wp_run_app
      | mbind _ _ => apply wp_bind
      | fmap _ _ => apply wp_fmap
      | mret _ => apply wp_ret
      | raise _ => apply wp_raise
      | store _ _ => apply wp_store
      | print _ => apply wp_print
      | time_time => apply wp_time
      | load_frame _ => apply wp_load_frame
      | load_series _ => apply wp_load_series
      | load_labels _ => apply wp_load_labels
      | load_vec _ => apply wp_load_vec
      | load_idx _ => apply wp_load_idx
      | load_time _ => apply wp_load_time
      | load_scaler _ => apply wp_load_scaler
      | load_estimator _ => apply wp_load_estimator
      | load _ => apply wp_load
      | call _ _ => apply wp_call
      | pd_read_csv _ => apply wp_read_csv
      | lift _ => apply wp_lift
      | match ?x with _ => _ end => destruct x eqn:?
      | _ => let h := wp_head m in unfold h
      end
  | |- match ?x with _ => _ end => destruct x eqn:?
  | |- True => exact I
  end.

(** Looking a name up in a state built by the steps before. *)
Ltac wp_lookup :=
  cbn [globals clock stdout files_read advance emit opened bound
       spec fitted_ feature_names_in_ new_estimator of_option];
  repeat first
    [ rewrite lookup_insert_eq
    | rewrite lookup_insert_ne by done ];
  repeat match goal with
         | H : ?m !! ?x = _ |- context [?m !! ?x] => rewrite H
         end.

Ltac wp_auto := repeat (wp_lookup; wp_step); wp_lookup.

End KernelFacts.

(** ** First notebook: the statements of the cells *)

Module Statements.
Import Python Pandas Sklearn Kernel KernelFacts Notebook1.

(** Unfolding the cells into their statements. *)
Ltac statements :=
  unfold notebook, after_load, after_split, cell1, cell2, cell3, cell4, cell5,
    cell6, cell7, cell6_select, cell6_plot, cell6_slices, cell6_scores,
    metrics, report;
  cbn [app tail].

Ltac all_steady := statements; repeat (constructor; [steady_auto|]); constructor.

End Statements.

(** ** First notebook: the run *)

Module NotebookFacts.
Import Python Pandas Sklearn Kernel KernelFacts Notebook1 Statements.

Section run.
Context `{Library}.

Lemma cell1_steady N : Forall (steady N) cell1.
Proof. all_steady. Qed.

Lemma after_load_steady : Forall (steady ["df"]) after_load.
Proof. all_steady. Qed.

Lemma notebook_split : notebook = cell1 ++ load_df :: after_load.
Proof. reflexivity. Qed.

(** What the loading statement does. *)
Lemma load_df_spec w :
  match load_df w with
  | Returns _ w' =>
      ∃ f, read_csv "IP_Activity_Dataset_5000.csv" = Ok f ∧
           globals w' !! "df" = Some (VFrame f) ∧
           files_read w' = files_read w ++ ["IP_Activity_Dataset_5000.csv"]
  | Raises _ w' =>
      globals w' = globals w ∧
      files_read w' = files_read w ++ ["IP_Activity_Dataset_5000.csv"]
  end.
Proof.
  unfold load_df, assign, pd_read_csv, call, tick, lift, store.
  unfold mbind, Py_bind, fmap, Py_fmap.
  destruct (read_csv "IP_Activity_Dataset_5000.csv") as [f|e]; simpl; [|done].
  exists f. by rewrite lookup_insert_eq.
Qed.

(** What the two scaling statements do: each binds its name to a new
    array, the transform of the old one. *)
Lemma scale_train_spec w w' :
  scale_train w = Returns tt w' →
  ∃ X s, globals w !! "X_train" = Some (VFrame X) ∧
         globals w' = <["X_train" := VFrame (transform s X)]>
                        (<["scaler" := VScaler (Some s)]> (globals w)).
Proof.
  intros Hrun.
  assert (wp scale_train (fun _ w' =>
    ∃ X s, globals w !! "X_train" = Some (VFrame X) ∧
           globals w' = <["X_train" := VFrame (transform s X)]>
                          (<["scaler" := VScaler (Some s)]> (globals w)))
    (fun _ _ => True) w) as Hwp.
  { unfold scale_train. wp_auto.
    match goal with Hfit : fit_transform _ = Ok _ |- _ => unfold fit_transform in Hfit end.
    destruct (scaler_fit _) as [s'|]; simplify_eq/=. eauto. }
  unfold wp in Hwp. by rewrite Hrun in Hwp.
Qed.

Lemma scale_test_spec w w' :
  scale_test w = Returns tt w' →
  ∃ X s, globals w !! "X_test" = Some (VFrame X) ∧
         globals w' = <["X_test" := VFrame (transform s X)]> (globals w).
Proof.
  intros Hrun.
  assert (wp scale_test (fun _ w' =>
    ∃ X s, globals w !! "X_test" = Some (VFrame X) ∧
           globals w' = <["X_test" := VFrame (transform s X)]> (globals w))
    (fun _ _ => True) w) as Hwp.
  { unfold scale_test. wp_auto. eauto. }
  unfold wp in Hwp. by rewrite Hrun in Hwp.
Qed.

(** C8.  The notebook is the imports, the one [pd.read_csv] and the rest.
    The imports read no file; the loading statement reads the file once
    and binds [df] to its table; and at every point of the rest (after any
    number [k] of its statements, also where the run stops on an
    exception), [df] is bound as the loading left it and no other file
    has been read.  The scaler does not write into a table: [X_train] and
    [X_test] are bound to new arrays, the transforms of the old ones. *)
Theorem df_read_once_then_unchanged (w0 : world) :
  notebook = cell1 ++ load_df :: after_load ∧
  files_read (world_of (run cell1 w0)) = files_read w0 ∧
  match load_df w0 with
  | Returns _ w' =>
      ∃ f, read_csv "IP_Activity_Dataset_5000.csv" = Ok f ∧
           globals w' !! "df" = Some (VFrame f) ∧
           files_read w' = files_read w0 ++ ["IP_Activity_Dataset_5000.csv"]
  | Raises _ w' =>
      files_read w' = files_read w0 ++ ["IP_Activity_Dataset_5000.csv"]
  end ∧
  (∀ k, globals (world_of (run (take k after_load) w0)) !! "df" = globals w0 !! "df" ∧
        files_read (world_of (run (take k after_load) w0)) = files_read w0) ∧
  (∀ w', scale_train w0 = Returns tt w' →
         ∃ X s, globals w0 !! "X_train" = Some (VFrame X) ∧
                globals w' !! "X_train" = Some (VFrame (transform s X)) ∧
                globals w' !! "df" = globals w0 !! "df") ∧
  (∀ w', scale_test w0 = Returns tt w' →
         ∃ X s, globals w0 !! "X_test" = Some (VFrame X) ∧
                globals w' !! "X_test" = Some (VFrame (transform s X)) ∧
                globals w' !! "df" = globals w0 !! "df").
Proof.
  split; [apply notebook_split|]. split.
  { apply (steady_run [] cell1 (cell1_steady [])). }
  split.
  { pose proof (load_df_spec w0) as Hload. destruct (load_df w0); [done|]. by destruct Hload. }
  split.
  { intros k. destruct (steady_run_take ["df"] after_load k after_load_steady w0) as [Hdf ?].
    split; [|done]. apply Hdf. by left. }
  split.
  - intros w' (X & s & HX & Hw')%scale_train_spec. exists X, s.
    rewrite Hw'. split; [done|]. split; [by rewrite lookup_insert_eq|].
    by rewrite !lookup_insert_ne.
  - intros w' (X & s & HX & Hw')%scale_test_spec. exists X, s.
    rewrite Hw'. split; [done|]. split; [by rewrite lookup_insert_eq|].
    by rewrite !lookup_insert_ne.
Qed.

(** *** Cell 6: selection, loop and slicing *)

Lemma select_columns_nil (X : frame) :
  select_columns X [] =
  Ok {| columns := []; rows := (fun r : row => (r.1, [])) <$> rows X |}.
Proof.
  unfold select_columns.
  assert (mapM (fun r : row => (fun cs => (r.1, cs)) <$> mapM (fun j => r.2 !! j) [])
            (rows X) = Some ((fun r : row => (r.1, [])) <$> rows X)) as ->; [|done].
  apply mapM_Some_2, Forall2_fmap_r, Forall_Forall2_diag, Forall_true.
  intros r. reflexivity.
Qed.

Lemma select_into_spec target name w X sel :
  globals w !! name = Some (VFrame X) →
  globals w !! "selected_features" = Some (VIdx sel) →
  select_into target name w =
  match select_columns X sel with
  | Ok X' => Returns tt (bound target (VFrame X') w)
  | Raise e => Raises e w
  end.
Proof.
  intros HX Hsel. unfold select_into, assign, load_frame, load_idx, load, lift, store.
  unfold mbind, Py_bind, fmap, Py_fmap, mret, Py_ret.
  rewrite HX, Hsel. by destruct (select_columns X sel).
Qed.

(** C9, as the code has it.  When some importance is over the float64
    [0.9] (importances being non-negative), nothing is selected; slicing
    an array with the empty selection gives an array of the same rows
    with no column; and the refit of cell 6 then calls [fit] on rows that
    have no cell.  Whether a model is trained is up to that call: when it
    raises, as scikit-learn's [fit] does on an array without features,
    the cell ends there with the exception and [rf] is left as it was;
    when it returns, [rf] holds what it returned. *)
Theorem dominant_importance_selects_no_feature (importances : list Q) :
  Forall (fun x => (0 <= x)%Q) importances →
  (∃ x, x ∈ importances ∧ (FeatureSelection.threshold < Numpy.float64 x)%Q) →
  FeatureSelection.selected_features importances = [] ∧
  (∀ w target name X,
     globals w !! name = Some (VFrame X) →
     globals w !! "selected_features" =
       Some (VIdx (FeatureSelection.selected_features importances)) →
     select_into target name w =
     Returns tt (bound target
       (VFrame {| columns := []; rows := (fun r : row => (r.1, [])) <$> rows X |}) w)) ∧
  (∀ w rf X y,
     globals w !! "rf" = Some (VEstimator rf) →
     globals w !! "Xtrain_sel" =
       Some (VFrame {| columns := []; rows := (fun r : row => (r.1, [])) <$> rows X |}) →
     globals w !! "y_train" = Some (VSeries y) →
     match fit (spec rf) (replicate (n_rows X) []) (values y) with
     | Raise e =>
         cell6_refit w =
         Raises e (advance (cost "cell 6: rf.fit(Xtrain_sel, y_train)") w)
     | Ok f =>
         cell6_refit w =
         Returns tt
           (bound "rf"
              (VEstimator
                 {| spec := spec rf; fitted_ := Some f;
                    feature_names_in_ :=
                      names_after_fit
                        {| columns := [];
                           rows := (fun r : row => (r.1, [])) <$> rows X |}
                        (feature_names_in_ rf) |})
              (advance (cost "cell 6: rf.fit(Xtrain_sel, y_train)") w))
     end).
Proof.
  intros Ha Hx.
  pose proof (FeatureSelectionFacts.dominant_selects_nothing importances Ha Hx) as Hsel.
  split; [done|]. split.
  - intros w target name X HX Hs. rewrite Hsel in Hs.
    rewrite (select_into_spec target name w X [] HX Hs). by rewrite select_columns_nil.
  - intros w rf X y Hrf HX Hy.
    unfold cell6_refit, fit_global, fit_method, load_estimator, load_frame, load_series, load.
    unfold call, tick, lift, store.
    unfold mbind, Py_bind, mret, Py_ret. rewrite Hrf, HX, Hy. simpl.
    replace ((((fun r : row => (r.1, [])) <$> rows X).*2)) with (replicate (n_rows X) (@nil cell)).
    + by destruct (fit _ _ _).
    + unfold n_rows. clear HX. induction (rows X) as [|r l IH]; simpl; [done|]. by rewrite IH.
Qed.

(** What [rf] is after a turn of the loop for feature [i]. *)
Definition clobbered (rf : estimator) (i : nat) : estimator :=
  {| spec := spec rf; fitted_ := fitted_ rf; feature_names_in_ := Some (FeatureIndex i) |}.

Lemma print_loop_turns selected : ∀ w rf importances,
  globals w !! "rf" = Some (VEstimator rf) →
  globals w !! "importances" = Some (VVec importances) →
  Forall (fun i => i < length importances) selected →
  ∃ w', for_each selected print_loop_turn tt w = Returns tt w' ∧
        globals w' = match last selected with
                     | Some i => <["rf" := VEstimator (clobbered rf i)]> (globals w)
                     | None => globals w
                     end.
Proof.
  induction selected as [|i l IH]; intros w rf importances Hrf Himp Hrange.
  { eexists. split; [reflexivity|done]. }
  apply Forall_cons in Hrange as [Hi Hl].
  destruct (lookup_lt_is_Some_2 importances i Hi) as [x Hx].
  cbn [for_each]. unfold mbind at 1, Py_bind at 1.
  assert (print_loop_turn i tt w =
          Returns tt (emit [VStr "Feature"; VInt i; VNum x]
                        (bound "rf" (VEstimator (clobbered rf i)) w))) as ->.
  { assert (wp (print_loop_turn i tt)
              (fun _ w1 => w1 = emit [VStr "Feature"; VInt i; VNum x]
                                  (bound "rf" (VEstimator (clobbered rf i)) w))
              (fun _ _ => False) w) as Hwp
      by (unfold print_loop_turn; wp_auto; reflexivity).
    unfold wp in Hwp. destruct (print_loop_turn i tt w) as [[] w1|]; [by subst|done]. }
  destruct (IH (emit [VStr "Feature"; VInt i; VNum x]
                  (bound "rf" (VEstimator (clobbered rf i)) w))
              (clobbered rf i) importances) as (w' & Hrun & Hglobals).
  - simpl. by rewrite lookup_insert_eq.
  - simpl. by rewrite lookup_insert_ne.
  - done.
  - exists w'. split; [exact Hrun|]. rewrite Hglobals. simpl.
    destruct l as [|j l]; [reflexivity|]. change (last (i :: j :: l)) with (last (j :: l)).
    destruct (last (j :: l)) eqn:Hlast; [|by apply last_None in Hlast].
    rewrite insert_insert_eq. reflexivity.
Qed.

Lemma print_loop_spec w rf importances selected :
  globals w !! "rf" = Some (VEstimator rf) →
  globals w !! "importances" = Some (VVec importances) →
  globals w !! "selected_features" = Some (VIdx selected) →
  Forall (fun i => i < length importances) selected →
  ∃ w', print_loop w = Returns tt w' ∧
        globals w' = match last selected with
                     | Some i => <["rf" := VEstimator (clobbered rf i)]> (globals w)
                     | None => globals w
                     end.
Proof.
  intros Hrf Himp Hsel Hrange.
  unfold print_loop, load_idx, load. unfold mbind at 1 2, Py_bind at 1 2.
  rewrite Hsel. simpl. by eapply print_loop_turns.
Qed.

(** The state in which the loop starts. *)
Lemma before_print_loop w0 :
  wp (run (cell6_select ++ cell6_plot ++ [cell6_heading]))
     (fun _ w1 => ∃ rf names importances,
        globals w1 !! "rf" = Some (VEstimator rf) ∧
        feature_names_in_ rf = Some (ColumnNames names) ∧
        globals w1 !! "importances" = Some (VVec importances) ∧
        globals w1 !! "selected_features" =
          Some (VIdx (FeatureSelection.selected_features importances)))
     (fun _ _ => True) w0.
Proof.
  statements. unfold cell6_heading. wp_auto.
  eexists _, _, _. wp_lookup. repeat split; reflexivity.
Qed.

Lemma after_refit_steady : Forall (steady ["rf"]) (cell6_scores ++ cell7).
Proof. all_steady. Qed.

Lemma cell6_slices_steady : Forall (steady ["rf"]) cell6_slices.
Proof. all_steady. Qed.

(** The state [w1] in which the loop starts, and what follows.  There
    [rf] holds the list of column names and [selected_features] is bound;
    the loop runs to its end; after an empty selection [rf] is as before;
    after a non-empty one its [feature_names_in_] is the last selected
    index and no list of names.  From there on the notebook never assigns
    the attribute again: the slicing statements leave [rf] alone, so
    [rf.fit] in the refit starts from the clobbered object; [fit] leaves
    in the attribute what the library makes of the index it found; and
    every later statement of cells 6 and 7 leaves [rf] as the refit left
    it. *)
Definition loop_clobbers_names (w1 : world) : Prop :=
  ∃ rf names selected w2,
    globals w1 !! "rf" = Some (VEstimator rf) ∧
    feature_names_in_ rf = Some (ColumnNames names) ∧
    globals w1 !! "selected_features" = Some (VIdx selected) ∧
    print_loop w1 = Returns tt w2 ∧
    (selected = [] → globals w2 !! "rf" = Some (VEstimator rf)) ∧
    ∀ i, last selected = Some i →
      globals w2 !! "rf" = Some (VEstimator (clobbered rf i)) ∧
      feature_names_in_ (clobbered rf i) = Some (FeatureIndex i) ∧
      feature_names_in_ (clobbered rf i) ≠ Some (ColumnNames names) ∧
      ∀ w3, run cell6_slices w2 = Returns tt w3 →
        globals w3 !! "rf" = Some (VEstimator (clobbered rf i)) ∧
        ∀ w4, cell6_refit w3 = Returns tt w4 →
          (∃ X f,
             globals w3 !! "Xtrain_sel" = Some (VFrame X) ∧
             globals w4 !! "rf" =
               Some (VEstimator
                 {| spec := spec rf; fitted_ := Some f;
                    feature_names_in_ := names_after_fit X (Some (FeatureIndex i)) |})) ∧
          ∀ k, globals (world_of (run (take k (cell6_scores ++ cell7)) w4)) !! "rf" =
               globals w4 !! "rf".

(** C10.  Whenever cell 6 has run up to its loop, the loop clobbers
    [rf.feature_names_in_] as [loop_clobbers_names] says: a non-empty
    selection leaves its last index in the attribute in place of the list
    of names, the refit's [rf.fit] starts from that object, what the
    attribute holds after that [fit] is the library's doing, and no later
    statement assigns it. *)
Theorem print_loop_clobbers_feature_names (w0 w1 : world) :
  run (cell6_select ++ cell6_plot ++ [cell6_heading]) w0 = Returns tt w1 →
  loop_clobbers_names w1.
Proof.
  intros Hrun. pose proof (before_print_loop w0) as Hwp.
  unfold wp in Hwp. rewrite Hrun in Hwp.
  destruct Hwp as (rf & names & importances & Hrf & Hnames & Himp & Hsel).
  destruct (print_loop_spec w1 rf importances _ Hrf Himp Hsel
              (FeatureSelectionFacts.selected_features_in_range importances))
    as (w2 & Hloop & Hglobals).
  exists rf, names, (FeatureSelection.selected_features importances), w2.
  do 4 (split; [done|]). split.
  { intros Hnil. rewrite Hnil in Hglobals. by rewrite Hglobals. }
  intros i Hlast. rewrite Hlast in Hglobals.
  assert (globals w2 !! "rf" = Some (VEstimator (clobbered rf i))) as Hrf2
    by (by rewrite Hglobals, lookup_insert_eq).
  do 3 (split; [done|]). intros w3 Hslices.
  assert (globals w3 !! "rf" = Some (VEstimator (clobbered rf i))) as Hrf3.
  { destruct (steady_run ["rf"] cell6_slices cell6_slices_steady w2) as [Hsame _].
    rewrite Hslices in Hsame. simpl in Hsame. rewrite Hsame; [done|by left]. }
  split; [done|]. intros w4 Hrefit. split.
  - assert (wp cell6_refit (fun _ w4 => ∃ X f,
        globals w3 !! "Xtrain_sel" = Some (VFrame X) ∧
        globals w4 !! "rf" =
          Some (VEstimator
            {| spec := spec rf; fitted_ := Some f;
               feature_names_in_ := names_after_fit X (Some (FeatureIndex i)) |}))
      (fun _ _ => True) w3) as Hwp.
    { unfold cell6_refit. wp_auto. eexists _, _. split; reflexivity. }
    unfold wp in Hwp. by rewrite Hrefit in Hwp.
  - intros k.
    destruct (steady_run_take ["rf"] _ k after_refit_steady w4) as [Hsame _].
    apply Hsame. by left.
Qed.

(** A fit statement takes what the library's [fit] call costs. *)
Lemma fit_global_elapsed site m X w model table y :
  globals w !! m = Some (VEstimator model) →
  globals w !! X = Some (VFrame table) →
  globals w !! "y_train" = Some (VSeries y) →
  elapsed (fit_global site m X) w = cost site.
Proof.
  intros Hm HX Hy. unfold elapsed, fit_global, fit_method, call, tick, lift, store.
  unfold load_estimator, load_frame, load_series, load, mbind, Py_bind, mret, Py_ret.
  rewrite Hm, HX, Hy. destruct (fit _ _ _); simpl; lia.
Qed.

(** The first forest's cell prints the time of its own training. *)
Lemma cell5_reports_own_training_time w0 w :
  run cell5 w0 = Returns tt w →
  last (stdout w) =
    Some [VStr "Execution time:"; VTime (cost "cell 5: rf.fit(X_train, y_train)")].
Proof.
  intros Hrun.
  assert (wp (run cell5) (fun _ w => last (stdout w) =
    Some [VStr "Execution time:"; VTime (cost "cell 5: rf.fit(X_train, y_train)")])
    (fun _ _ => True) w0) as Hwp.
  { statements. wp_auto. rewrite last_snoc. repeat f_equal. lia. }
  unfold wp in Hwp. by rewrite Hrun in Hwp.
Qed.

(** C6, at the last cell.  Whenever the cell runs to its end, the
    "Execution time" it prints beside the metrics of [rf_best] is the time
    between the two clock readings around [grid_search.fit]: the cost of
    the grid search.  The training of [rf_best] happens after the second
    reading and is not in it. *)
Theorem final_cell_reports_grid_search_time (w0 w : world) :
  run cell7 w0 = Returns tt w →
  last (stdout w) =
    Some [VStr "Execution time:";
          VTime (cost "cell 7: grid_search.fit(Xtrain_sel, y_train)")].
Proof.
  intros Hrun.
  assert (wp (run cell7) (fun _ w => last (stdout w) =
    Some [VStr "Execution time:";
          VTime (cost "cell 7: grid_search.fit(Xtrain_sel, y_train)")])
    (fun _ _ => True) w0) as Hwp.
  { statements. wp_auto. rewrite last_snoc. repeat f_equal. lia. }
  unfold wp in Hwp. by rewrite Hrun in Hwp.
Qed.

End run.
End NotebookFacts.

(** ** Second notebook: the split *)

Module PipelineFacts.
Import Python Pandas Sklearn Kernel KernelFacts SklearnFacts Pipeline.

Section split.
Context `{Library}.

(** A last column that was returned holds the last cell of every row. *)
Lemma iloc_last_cells f y :
  iloc_last f = Ok y →
  mapM (fun r : row => (fun c => (r.1, c)) <$> last r.2) (rows f) = Some y.
Proof.
  unfold iloc_last, of_option. destruct (columns f), (rows f); try done;
    by destruct (mapM _ _) as [cells|]; intros [= <-].
Qed.

Lemma iloc_last_raises f e : iloc_last f = Raise e → e = IndexError.
Proof.
  unfold iloc_last, of_option. destruct (columns f), (rows f); try by intros [= <-].
  all: by destruct (mapM _ _) as [cells|]; intros [= <-].
Qed.

Lemma iloc_last_labels f y :
  iloc_last f = Ok y →
  Forall2 (fun (r : row) (l : nat * cell) => l.1 = r.1 ∧ last r.2 = Some l.2) (rows f) y.
Proof.
  intros Hy%iloc_last_cells. apply mapM_Some_1 in Hy.
  eapply Forall2_impl; [exact Hy|]. intros r l Hr. simpl in Hr.
  by apply fmap_Some in Hr as (c & Hc & ->).
Qed.

Lemma iloc_last_spec f y :
  iloc_last f = Ok y → series_index y = index f ∧ length y = n_rows f.
Proof.
  intros Hl%iloc_last_labels. unfold series_index, index, n_rows. split.
  - induction Hl as [|r l rs ls [Hr _] _ IH]; [done|]. csimpl. by rewrite Hr, IH.
  - symmetry. by eapply Forall2_length.
Qed.

Lemma iloc_last_returns f :
  rows f ≠ [] → Forall (fun r : row => r.2 ≠ []) (rows f) → ∃ y, iloc_last f = Ok y.
Proof.
  intros Hrows Hf. unfold iloc_last.
  assert (is_Some (mapM (fun r : row => (fun c => (r.1, c)) <$> last r.2) (rows f)))
    as [y Hy].
  { apply mapM_is_Some. eapply Forall_impl; [exact Hf|].
    intros r [c Hc]%last_is_Some. simpl. rewrite Hc. by eexists. }
  rewrite Hy. exists y. by destruct (columns f), (rows f).
Qed.

Lemma n_rows_iloc_but_last f : n_rows (iloc_but_last f) = n_rows f.
Proof. unfold n_rows, iloc_but_last. simpl. by rewrite length_fmap. Qed.

Lemma index_iloc_but_last f : index (iloc_but_last f) = index f.
Proof. unfold index, iloc_but_last. simpl. by rewrite <-list_fmap_compose. Qed.

Lemma n_rows_index f : n_rows f = length (index f).
Proof. unfold n_rows, index. by rewrite length_fmap. Qed.

(** What the function has done when it returns. *)
Lemma myTrainTestSplit_spec normalData anomalousData w X_train X_test y_train y_test w' :
  myTrainTestSplit normalData anomalousData w = Returns (X_train, X_test, y_train, y_test) w' →
  ∃ y_normal y_anomalous train_n test_n train_a test_a,
    iloc_last normalData = Ok y_normal ∧
    iloc_last anomalousData = Ok y_anomalous ∧
    split_positions None (3 # 10) 42 (n_rows normalData) = Ok (train_n, test_n) ∧
    split_positions None (3 # 10) 42 (n_rows anomalousData) = Ok (train_a, test_a) ∧
    train_n ++ test_n ≡ₚ seq 0 (n_rows normalData) ∧
    train_a ++ test_a ≡ₚ seq 0 (n_rows anomalousData) ∧
    length test_n = n_test (3 # 10) (n_rows normalData) ∧
    length test_a = n_test (3 # 10) (n_rows anomalousData) ∧
    X_train = concat (iloc_rows (iloc_but_last normalData) train_n)
                     (iloc_rows (iloc_but_last anomalousData) train_a) ∧
    X_test = concat (iloc_rows (iloc_but_last normalData) test_n)
                    (iloc_rows (iloc_but_last anomalousData) test_a) ∧
    y_train = take_rows y_normal train_n ++ take_rows y_anomalous train_a ∧
    y_test = take_rows y_normal test_n ++ take_rows y_anomalous test_a.
Proof.
  unfold myTrainTestSplit, call, tick, lift. unfold mbind, Py_bind, mret, Py_ret.
  destruct (iloc_last normalData) as [y_normal|] eqn:Hyn; [|done].
  destruct (iloc_last anomalousData) as [y_anomalous|] eqn:Hya; [|done].
  destruct (train_test_split (iloc_but_last normalData) _ _ _ _)
    as [[[[Xtn Xen] ytn] yen]|] eqn:Hn; [|done].
  destruct (train_test_split (iloc_but_last anomalousData) _ _ _ _)
    as [[[[Xta Xea] yta] yea]|] eqn:Ha; [|done].
  intros [= <- <- <- <- <-].
  pose proof Hn as (train_n & test_n & Hsn & _ & Hpn & Htn & -> & -> & -> & ->)%train_test_split_spec.
  pose proof Ha as (train_a & test_a & Hsa & _ & Hpa & Hta & -> & -> & -> & ->)%train_test_split_spec.
  rewrite n_rows_iloc_but_last in Hsn, Hsa, Hpn, Hpa, Htn, Hta.
  exists y_normal, y_anomalous, train_n, test_n, train_a, test_a. by repeat split.
Qed.

Lemma splittable_two n : 2 ≤ n → splittable None (3 # 10) n.
Proof.
  intros Hn. split; [|done]. rewrite n_test_three_tenths.
  pose proof (Nat.div_mod_eq (3 * n + 9) 10).
  pose proof (Nat.mod_upper_bound (3 * n + 9) 10). lia.
Qed.

Lemma myTrainTestSplit_returns normalData anomalousData w :
  Forall (fun r : row => r.2 ≠ []) (rows normalData) →
  Forall (fun r : row => r.2 ≠ []) (rows anomalousData) →
  2 ≤ n_rows normalData → 2 ≤ n_rows anomalousData →
  ∃ r w', myTrainTestSplit normalData anomalousData w = Returns r w'.
Proof.
  intros Hcn Hca Hn Ha.
  assert (∀ f, 2 ≤ n_rows f → rows f ≠ []) as Hrows.
  { unfold n_rows. intros f Hf Hr. rewrite Hr in Hf. simpl in Hf. lia. }
  destruct (iloc_last_returns normalData) as [yn Hyn]; [by apply Hrows|done|].
  destruct (iloc_last_returns anomalousData) as [ya Hya]; [by apply Hrows|done|].
  destruct (train_test_split_returns (iloc_but_last normalData) yn (3 # 10) None 42)
    as [[[[? ?] ?] ?] Hsn].
  { rewrite n_rows_iloc_but_last. symmetry. by apply iloc_last_spec. }
  { rewrite n_rows_iloc_but_last. by apply splittable_two. }
  destruct (train_test_split_returns (iloc_but_last anomalousData) ya (3 # 10) None 42)
    as [[[[? ?] ?] ?] Hsa].
  { rewrite n_rows_iloc_but_last. symmetry. by apply iloc_last_spec. }
  { rewrite n_rows_iloc_but_last. by apply splittable_two. }
  unfold myTrainTestSplit, call, tick, lift. unfold mbind, Py_bind, mret, Py_ret.
  rewrite Hyn, Hya, Hsn, Hsa. eauto.
Qed.

(** The sizes of a 70-30 split of [n] rows. *)
Lemma seventy_thirty n (train test : list nat) :
  length train + length test = n → length test = n_test (3 # 10) n →
  3 * length train ≤ 7 * length test ∧ 7 * length test ≤ 3 * length train + 9 ∧
  (n `mod` 10 = 0 → 10 * length train = 7 * n ∧ 10 * length test = 3 * n).
Proof.
  rewrite n_test_three_tenths. intros Hsum Htest.
  pose proof (Nat.div_mod_eq (3 * n + 9) 10).
  pose proof (Nat.mod_upper_bound (3 * n + 9) 10).
  pose proof (Nat.div_mod_eq n 10). lia.
Qed.

(** The index of the combined tables, and their rows when the two tables
    have the same columns. *)
Lemma index_combined f g positions_f positions_g :
  index (concat (iloc_rows (iloc_but_last f) positions_f)
                (iloc_rows (iloc_but_last g) positions_g)) =
  take_rows (index f) positions_f ++ take_rows (index g) positions_g.
Proof. by rewrite concat_index, !index_iloc_rows, !index_iloc_but_last. Qed.

Lemma rows_combined f g positions_f positions_g :
  columns f = columns g →
  columns (concat (iloc_rows (iloc_but_last f) positions_f)
                  (iloc_rows (iloc_but_last g) positions_g)) = removelast (columns f) ∧
  rows (concat (iloc_rows (iloc_but_last f) positions_f)
               (iloc_rows (iloc_but_last g) positions_g)) =
  take_rows ((fun r : row => (r.1, removelast r.2)) <$> rows f) positions_f ++
  take_rows ((fun r : row => (r.1, removelast r.2)) <$> rows g) positions_g.
Proof.
  intros Hcolumns. rewrite concat_same_columns; [done|].
  unfold iloc_rows, iloc_but_last. simpl. by rewrite Hcolumns.
Qed.

(** C2.  Whenever [myTrainTestSplit] returns.  The labels are the last
    cell of every row, and the features the other cells.  Each table is
    split by its own draw of positions, with test size 0.3, seed 42 and
    no stratification, into train and test positions that partition its
    rows.  The results are the per-source parts, the normal part first:
    so are the labels and the index of the returned tables, and so are
    their rows when the two tables have the same columns (otherwise
    [pd.concat] aligns the columns).  The test part of a table of [n]
    rows has [ceil(0.3 n)] rows, so in each table train and test rows
    stand 7 to 3 up to rounding, and so do the ratios of normal to
    anomalous rows in the combined train and test sets; they are equal
    when both row counts are multiples of 10.  The function returns for
    tables with at least one column and two rows. *)
Theorem myTrainTestSplit_splits_each_source_70_30 (normalData anomalousData : frame) (w : world) :
  (∀ X_train X_test y_train y_test w',
     myTrainTestSplit normalData anomalousData w =
       Returns (X_train, X_test, y_train, y_test) w' →
     ∃ y_normal y_anomalous train_n test_n train_a test_a,
       Forall2 (fun (r : row) (l : nat * cell) => l.1 = r.1 ∧ last r.2 = Some l.2)
         (rows normalData) y_normal ∧
       Forall2 (fun (r : row) (l : nat * cell) => l.1 = r.1 ∧ last r.2 = Some l.2)
         (rows anomalousData) y_anomalous ∧
       split_positions None (3 # 10) 42 (n_rows normalData) = Ok (train_n, test_n) ∧
       split_positions None (3 # 10) 42 (n_rows anomalousData) = Ok (train_a, test_a) ∧
       train_n ++ test_n ≡ₚ seq 0 (n_rows normalData) ∧
       train_a ++ test_a ≡ₚ seq 0 (n_rows anomalousData) ∧
       y_train = take_rows y_normal train_n ++ take_rows y_anomalous train_a ∧
       y_test = take_rows y_normal test_n ++ take_rows y_anomalous test_a ∧
       index X_train =
         take_rows (index normalData) train_n ++ take_rows (index anomalousData) train_a ∧
       index X_test =
         take_rows (index normalData) test_n ++ take_rows (index anomalousData) test_a ∧
       (columns normalData = columns anomalousData →
        columns X_train = removelast (columns normalData) ∧
        columns X_test = removelast (columns normalData) ∧
        rows X_train =
          take_rows ((fun r : row => (r.1, removelast r.2)) <$> rows normalData) train_n ++
          take_rows ((fun r : row => (r.1, removelast r.2)) <$> rows anomalousData) train_a ∧
        rows X_test =
          take_rows ((fun r : row => (r.1, removelast r.2)) <$> rows normalData) test_n ++
          take_rows ((fun r : row => (r.1, removelast r.2)) <$> rows anomalousData) test_a) ∧
       n_rows X_train = length train_n + length train_a ∧
       n_rows X_test = length test_n + length test_a ∧
       length y_train = length train_n + length train_a ∧
       length y_test = length test_n + length test_a ∧
       length test_n = n_test (3 # 10) (n_rows normalData) ∧
       length test_a = n_test (3 # 10) (n_rows anomalousData) ∧
       3 * length train_n ≤ 7 * length test_n ≤ 3 * length train_n + 9 ∧
       3 * length train_a ≤ 7 * length test_a ≤ 3 * length train_a + 9 ∧
       3 * (length train_n * length test_a) ≤
         3 * (length train_a * length test_n) + 9 * length test_n ∧
       3 * (length train_a * length test_n) ≤
         3 * (length train_n * length test_a) + 9 * length test_a ∧
       (n_rows normalData `mod` 10 = 0 → n_rows anomalousData `mod` 10 = 0 →
        length train_n * length test_a = length train_a * length test_n)) ∧
  (Forall (fun r : row => r.2 ≠ []) (rows normalData) →
   Forall (fun r : row => r.2 ≠ []) (rows anomalousData) →
   2 ≤ n_rows normalData → 2 ≤ n_rows anomalousData →
   ∃ r w', myTrainTestSplit normalData anomalousData w = Returns r w').
Proof.
  split; [|apply myTrainTestSplit_returns].
  intros X_train X_test y_train y_test w' Hrun.
  destruct (myTrainTestSplit_spec _ _ _ _ _ _ _ _ Hrun)
    as (y_normal & y_anomalous & train_n & test_n & train_a & test_a &
        Hyn & Hya & Hsn & Hsa & Hpn & Hpa & Htn & Hta & -> & -> & -> & ->).
  exists y_normal, y_anomalous, train_n, test_n, train_a, test_a.
  split; [by apply iloc_last_labels|]. split; [by apply iloc_last_labels|].
  do 6 (split; [done|]).
  split; [apply index_combined|]. split; [apply index_combined|].
  split.
  { intros Hcolumns.
    destruct (rows_combined normalData anomalousData train_n train_a Hcolumns) as [-> ->].
    destruct (rows_combined normalData anomalousData test_n test_a Hcolumns) as [-> ->].
    done. }
  destruct (partition_in_range _ _ _ Hpn) as (Hrn1 & Hrn2 & Hlen_n).
  destruct (partition_in_range _ _ _ Hpa) as (Hra1 & Hra2 & Hlen_a).
  destruct (seventy_thirty _ _ _ Hlen_n Htn) as (Hn1 & Hn2 & Hn3).
  destruct (seventy_thirty _ _ _ Hlen_a Hta) as (Ha1 & Ha2 & Ha3).
  apply iloc_last_spec in Hyn as [_ Hyn]. apply iloc_last_spec in Hya as [_ Hya].
  assert (∀ f positions, Forall (fun i => i < n_rows f) positions →
            length (take_rows (index f) positions) = length positions) as Hindex.
  { intros f positions Hpos. apply length_take_rows. by rewrite <-n_rows_index. }
  assert (∀ (y : series) n positions, length y = n → Forall (fun i => i < n) positions →
            length (take_rows y positions) = length positions) as Hlabels.
  { intros y n positions <- Hpos. by apply length_take_rows. }
  split. { by rewrite n_rows_index, index_combined, length_app, !Hindex. }
  split. { by rewrite n_rows_index, index_combined, length_app, !Hindex. }
  split. { rewrite length_app. f_equal; by eapply Hlabels. }
  split. { rewrite length_app. f_equal; by eapply Hlabels. }
  do 2 (split; [done|]).
  split; [lia|]. split; [lia|]. split; [nia|]. split; [nia|].
  intros Hmn Hma. specialize (Hn3 Hmn). specialize (Ha3 Hma). nia.
Qed.

End split.
End PipelineFacts.

(** ** First notebook: the train and test rows along the run *)

Module PartitionFacts.
Import Python Pandas Sklearn Kernel KernelFacts SklearnFacts Notebook1 Statements.

Section partition.
Context `{Library}.

(** The index labels of the rows of a table or of a column. *)
Definition rows_of (v : value) : option (list nat) :=
  match v with
  | VFrame f => Some (index f)
  | VSeries s => Some (series_index s)
  | _ => None
  end.

(** [holds x idx w]: in [w] the name [x] is bound to a table or column
    whose rows are those labelled [idx], in that order. *)
Definition holds (x : string) (idx : list nat) (w : world) : Prop :=
  rows_of <$> globals w !! x = Some (Some idx).

Definition holds_if_bound (x : string) (idx : list nat) (w : world) : Prop :=
  globals w !! x = None ∨ holds x idx w.

(** The train names hold the train rows and the test names the test rows. *)
Definition partitioned (df : frame) (train test : list nat) (w : world) : Prop :=
  globals w !! "df" = Some (VFrame df) ∧
  holds "X_train" train w ∧ holds "X_test" test w ∧
  holds "y_train" train w ∧ holds "y_test" test w ∧
  holds_if_bound "Xtrain_sel" train w ∧ holds_if_bound "X_test_selected" test w.

Definition split_names : list string :=
  ["df"; "X_train"; "X_test"; "y_train"; "y_test"; "Xtrain_sel"; "X_test_selected"].

Lemma partitioned_same_on df train test w w' :
  same_on split_names w w' → partitioned df train test w → partitioned df train test w'.
Proof.
  intros [Hsame _]. unfold partitioned, holds_if_bound, holds.
  rewrite !Hsame; [done|unfold split_names; set_solver..].
Qed.

Lemma index_select_columns X cols X' : select_columns X cols = Ok X' → index X' = index X.
Proof.
  unfold select_columns, of_option.
  destruct (mapM _ (rows X)) as [l|] eqn:Hl; [|done]. intros [= <-].
  apply mapM_Some_1 in Hl. unfold index. simpl.
  induction Hl as [|r [i c] rs l Hr _ IH]; [done|]. csimpl. f_equal; [|exact IH].
  by apply fmap_Some in Hr as (c' & _ & [= -> _]).
Qed.

Lemma index_drop_column name f X : drop_column name f = Ok X → index X = index f.
Proof.
  unfold drop_column. destruct (column_position name f); [|done]. intros [= <-].
  unfold index. simpl. by rewrite <-list_fmap_compose.
Qed.

Lemma getitem_column_spec name f y :
  getitem_column name f = Ok y → series_index y = index f ∧ length y = n_rows f.
Proof.
  unfold getitem_column, of_option. destruct (column_position name f) as [j|]; [|done]. simpl.
  destruct (mapM _ (rows f)) as [l|] eqn:Hl; [|done]. intros [= <-].
  apply mapM_Some_1 in Hl. unfold series_index, index, n_rows. split.
  - induction Hl as [|r [i c] rs l Hr _ IH]; [done|]. csimpl. f_equal; [|exact IH].
    by apply fmap_Some in Hr as (c' & _ & [= -> _]).
  - symmetry. by eapply Forall2_length.
Qed.

(** *** The split establishes the partition *)

Lemma split_partitions w0 :
  globals w0 !! "Xtrain_sel" = None →
  globals w0 !! "X_test_selected" = None →
  wp (run (cell1 ++ cell2 ++ cell3))
     (fun _ w1 => ∃ df X_train X_test,
        globals w1 !! "X_train" = Some (VFrame X_train) ∧
        globals w1 !! "X_test" = Some (VFrame X_test) ∧
        NoDup (index df) ∧
        index X_train ++ index X_test ≡ₚ index df ∧
        n_rows X_test = n_test (1 # 2) (n_rows df) ∧
        partitioned df (index X_train) (index X_test) w1)
     (fun _ _ => True) w0.
Proof.
  intros Hsel Hsel'. statements. unfold load_df. wp_auto.
  match goal with Hread : read_csv _ = Ok ?f |- _ =>
    rename f into df; pose proof (read_csv_index _ _ Hread) as Hindex end.
  match goal with Hdrop : drop_column _ df = Ok ?f |- _ =>
    rename f into X; pose proof (index_drop_column _ _ _ Hdrop) as HX end.
  match goal with Hcol : getitem_column _ df = Ok ?s |- _ =>
    rename s into y; pose proof (getitem_column_spec _ _ _ Hcol) as [Hy Hylen] end.
  match goal with Hsplit : train_test_split _ _ _ _ _ = Ok _ |- _ =>
    apply train_test_split_spec in Hsplit
      as (train & test & _ & Hlen & Hperm & Htest & -> & -> & -> & ->) end.
  assert (n_rows X = n_rows df) as Hrows by (by rewrite Hlen, Hylen).
  assert (length (index X) = n_rows X) as Hlen_index
    by (unfold index, n_rows; by rewrite length_fmap).
  exists df, (iloc_rows X train), (iloc_rows X test).
  wp_lookup. do 2 (split; [done|]).
  split; [rewrite Hindex; apply NoDup_seq|].
  rewrite !index_iloc_rows.
  split. { rewrite <-HX. apply take_rows_partition. by rewrite Hlen_index. }
  split.
  { unfold n_rows at 1, iloc_rows. simpl. rewrite length_take_rows, Htest, Hrows; [done|].
    apply partition_in_range in Hperm as (_ & Hrange & _). exact Hrange. }
  unfold partitioned, holds_if_bound, holds. wp_lookup. simpl.
  rewrite !index_iloc_rows. unfold series_index.
  rewrite !take_rows_fmap. fold (series_index y). rewrite Hy, HX.
  repeat split; auto.
Qed.

(** *** Every later statement keeps it *)

Definition keeps_partition (s : Py unit) : Prop :=
  ∀ df train test w,
    partitioned df train test w → partitioned df train test (world_of (s w)).

Lemma wp_world_of {A} (m : Py A) (P : world → Prop) w :
  wp m (fun _ w' => P w') (fun _ w' => P w') w → P (world_of (m w)).
Proof. unfold wp. by destruct (m w). Qed.

Lemma steady_keeps s : steady split_names s → keeps_partition s.
Proof. intros Hs df train test w. apply partitioned_same_on, Hs. Qed.

(** Closing a branch of a symbolic run: the state differs from the
    partitioned one in the names just bound. *)
Ltac partition_done :=
  unfold partitioned, holds_if_bound, holds in *; wp_lookup;
  repeat match goal with
         | H : _ ∧ _ |- _ => destruct H
         | H : context [globals ?w !! ?x], E : globals ?w !! ?x = _ |- _ =>
             rewrite E in H; simpl in H
         end;
  simplify_eq/=;
  rewrite ?index_transform;
  repeat split; auto.

Lemma scale_train_keeps : keeps_partition scale_train.
Proof.
  intros df train test w Hw. apply wp_world_of. unfold scale_train. wp_auto;
    try partition_done.
  match goal with Hfit : fit_transform _ = Ok _ |- _ => unfold fit_transform in Hfit end.
  destruct (scaler_fit _); simplify_eq/=. partition_done.
Qed.

Lemma scale_test_keeps : keeps_partition scale_test.
Proof.
  intros df train test w Hw. apply wp_world_of. unfold scale_test. wp_auto;
    partition_done.
Qed.

Lemma select_train_keeps : keeps_partition (select_into "Xtrain_sel" "X_train").
Proof.
  intros df train test w Hw. apply wp_world_of. unfold select_into. wp_auto;
    try partition_done.
  match goal with Hsel : select_columns _ _ = Ok _ |- _ =>
    apply index_select_columns in Hsel end.
  partition_done. right. congruence.
Qed.

Lemma select_test_keeps : keeps_partition (select_into "X_test_selected" "X_test").
Proof.
  intros df train test w Hw. apply wp_world_of. unfold select_into. wp_auto;
    try partition_done.
  match goal with Hsel : select_columns _ _ = Ok _ |- _ =>
    apply index_select_columns in Hsel end.
  partition_done. right. congruence.
Qed.

Lemma after_split_keeps : Forall keeps_partition after_split.
Proof.
  statements.
  repeat (constructor;
          [first [ apply scale_train_keeps | apply scale_test_keeps
                 | apply select_train_keeps | apply select_test_keeps
                 | apply steady_keeps; unfold split_names; steady_auto ]|]).
  constructor.
Qed.

Lemma run_keeps_partition p df train test :
  Forall keeps_partition p →
  ∀ w, partitioned df train test w → partitioned df train test (world_of (run p w)).
Proof.
  induction 1 as [|s p Hs _ IH]; intros w Hw; [done|].
  simpl. unfold mbind, Py_bind. specialize (Hs df train test w Hw).
  destruct (s w) as [[] w'|e w']; [by apply IH|done].
Qed.

End partition.
End PartitionFacts.

(** ** Both notebooks: the train and test rows *)

Module SplitFacts.
Import Python Pandas Sklearn Kernel KernelFacts SklearnFacts.
Import Notebook1 Pipeline PartitionFacts PipelineFacts.

Section both.
Context `{Library}.

Lemma partition_disjoint (train test all : list nat) :
  NoDup all → train ++ test ≡ₚ all → ∀ i, i ∈ train → i ∉ test.
Proof.
  intros Hall Hperm. rewrite <-Hperm in Hall.
  apply NoDup_app in Hall as (_ & Hdisjoint & _). exact Hdisjoint.
Qed.

(** The parts taken at positions that partition two tables hold every
    row of the two tables once. *)
Lemma combined_parts {A} (normal anomalous : list A) train_n test_n train_a test_a :
  train_n ++ test_n ≡ₚ seq 0 (length normal) →
  train_a ++ test_a ≡ₚ seq 0 (length anomalous) →
  (take_rows normal train_n ++ take_rows anomalous train_a) ++
  (take_rows normal test_n ++ take_rows anomalous test_a) ≡ₚ normal ++ anomalous.
Proof.
  intros Hn%(take_rows_partition normal) Ha%(take_rows_partition anomalous).
  rewrite <-Hn at 3. rewrite <-Ha at 3.
  rewrite <-!(assoc_L (++)). apply Permutation_app_head.
  rewrite !(assoc_L (++)). apply Permutation_app_tail, Permutation_app_comm.
Qed.

(** C3, as the code has it.  First notebook: run from a kernel in which
    [Xtrain_sel] and [X_test_selected] are not yet bound, the split leaves
    train rows and test rows that are disjoint and together are the rows
    of [df]; and at every point of the rest of the notebook (after any
    number [k] of the statements after the split: scaling, fitting,
    selection, grid search) [X_train], [y_train] and (once bound)
    [Xtrain_sel] hold exactly the train rows, [X_test], [y_test] and
    [X_test_selected] exactly the test rows.  Second notebook: the train
    and test positions [myTrainTestSplit] draws in each table are disjoint
    and together are all positions of that table; the returned tables and
    labels carry the index labels found at those positions, the normal
    ones first, so that train and test labels together are the labels of
    the two tables, each as often as there.  The index labels of the
    returned train and test tables are disjoint when no label occurs
    twice in the two tables, and not in general.  When the two tables
    have the same columns, the returned rows together are the feature
    rows of the two tables. *)
Theorem train_and_test_rows_partition_the_source (w0 : world) :
  (globals w0 !! "Xtrain_sel" = None → globals w0 !! "X_test_selected" = None →
   ∀ w1, run (cell1 ++ cell2 ++ cell3) w0 = Returns tt w1 →
   ∃ df train test,
     NoDup (index df) ∧ train ++ test ≡ₚ index df ∧ (∀ i, i ∈ train → i ∉ test) ∧
     ∀ k, partitioned df train test (world_of (run (take k after_split) w1))) ∧
  (∀ normalData anomalousData X_train X_test y_train y_test w',
     myTrainTestSplit normalData anomalousData w0 =
       Returns (X_train, X_test, y_train, y_test) w' →
     (∃ train_n test_n train_a test_a,
        train_n ++ test_n ≡ₚ seq 0 (n_rows normalData) ∧
        (∀ i, i ∈ train_n → i ∉ test_n) ∧
        train_a ++ test_a ≡ₚ seq 0 (n_rows anomalousData) ∧
        (∀ i, i ∈ train_a → i ∉ test_a) ∧
        index X_train =
          take_rows (index normalData) train_n ++ take_rows (index anomalousData) train_a ∧
        index X_test =
          take_rows (index normalData) test_n ++ take_rows (index anomalousData) test_a ∧
        (columns normalData = columns anomalousData →
         rows X_train =
           take_rows (rows (iloc_but_last normalData)) train_n ++
           take_rows (rows (iloc_but_last anomalousData)) train_a ∧
         rows X_test =
           take_rows (rows (iloc_but_last normalData)) test_n ++
           take_rows (rows (iloc_but_last anomalousData)) test_a)) ∧
     series_index y_train = index X_train ∧
     series_index y_test = index X_test ∧
     index X_train ++ index X_test ≡ₚ index normalData ++ index anomalousData ∧
     (NoDup (index normalData ++ index anomalousData) →
      ∀ i, i ∈ index X_train → i ∉ index X_test) ∧
     (columns normalData = columns anomalousData →
      rows X_train ++ rows X_test ≡ₚ
        rows (iloc_but_last normalData) ++ rows (iloc_but_last anomalousData))).
Proof.
  split.
  - intros Hsel Hsel' w1 Hrun.
    pose proof (split_partitions w0 Hsel Hsel') as Hwp.
    unfold wp in Hwp. rewrite Hrun in Hwp.
    destruct Hwp as (df & X_train & X_test & _ & _ & Hnodup & Hperm & _ & Hpart).
    exists df, (index X_train), (index X_test).
    split; [done|]. split; [done|]. split; [by eapply partition_disjoint|].
    intros k. apply run_keeps_partition; [|done].
    apply Forall_take, after_split_keeps.
  - intros normalData anomalousData X_train X_test y_train y_test w' Hrun.
    destruct (myTrainTestSplit_spec _ _ _ _ _ _ _ _ Hrun)
      as (y_normal & y_anomalous & train_n & test_n & train_a & test_a &
          Hyn & Hya & _ & _ & Hpn & Hpa & _ & _ & -> & -> & -> & ->).
    apply iloc_last_spec in Hyn as [Hyn _]. apply iloc_last_spec in Hya as [Hya _].
    assert (index (concat (iloc_rows (iloc_but_last normalData) train_n)
                          (iloc_rows (iloc_but_last anomalousData) train_a)) ++
            index (concat (iloc_rows (iloc_but_last normalData) test_n)
                          (iloc_rows (iloc_but_last anomalousData) test_a)) ≡ₚ
            index normalData ++ index anomalousData) as Hindex.
    { rewrite !index_combined. apply combined_parts; by rewrite <-n_rows_index. }
    assert (columns normalData = columns anomalousData →
            rows (concat (iloc_rows (iloc_but_last normalData) train_n)
                         (iloc_rows (iloc_but_last anomalousData) train_a)) =
              take_rows (rows (iloc_but_last normalData)) train_n ++
              take_rows (rows (iloc_but_last anomalousData)) train_a ∧
            rows (concat (iloc_rows (iloc_but_last normalData) test_n)
                         (iloc_rows (iloc_but_last anomalousData) test_a)) =
              take_rows (rows (iloc_but_last normalData)) test_n ++
              take_rows (rows (iloc_but_last anomalousData)) test_a) as Hrows.
    { intros Hcolumns.
      destruct (rows_combined normalData anomalousData train_n train_a Hcolumns) as [_ ->].
      by destruct (rows_combined normalData anomalousData test_n test_a Hcolumns) as [_ ->]. }
    split.
    { exists train_n, test_n, train_a, test_a.
      split; [done|]. split; [eapply partition_disjoint; [apply NoDup_seq|done]|].
      split; [done|]. split; [eapply partition_disjoint; [apply NoDup_seq|done]|].
      split; [apply index_combined|]. split; [apply index_combined|]. exact Hrows. }
    split.
    { rewrite index_combined. unfold series_index.
      by rewrite fmap_app, !take_rows_fmap, <-Hyn, <-Hya. }
    split.
    { rewrite index_combined. unfold series_index.
      by rewrite fmap_app, !take_rows_fmap, <-Hyn, <-Hya. }
    split; [exact Hindex|]. split.
    { intros Hnodup. by eapply partition_disjoint. }
    intros Hcolumns. destruct (Hrows Hcolumns) as [-> ->].
    apply combined_parts.
    + unfold iloc_but_last. cbn [rows]. by rewrite length_fmap.
    + unfold iloc_but_last. cbn [rows]. by rewrite length_fmap.
Qed.

(** C4.  First notebook: after the stratified split with test size 0.5,
    the rows of [X_train] and of [X_test] add up to the rows of [df]; the
    test part has [ceil(n / 2)] rows, so a table of 5000 rows gives 2500
    and 2500.  Second notebook: the rows of the returned [X_train] and
    [X_test] add up to the rows of the two tables, and so do the labels.
    The splits return whenever the library has a split to give:
    [myTrainTestSplit] for tables with a column and at least two rows. *)
Theorem train_and_test_counts_add_up (w0 : world) :
  (globals w0 !! "Xtrain_sel" = None → globals w0 !! "X_test_selected" = None →
   ∀ w1, run (cell1 ++ cell2 ++ cell3) w0 = Returns tt w1 →
   ∃ df X_train X_test,
     globals w1 !! "df" = Some (VFrame df) ∧
     globals w1 !! "X_train" = Some (VFrame X_train) ∧
     globals w1 !! "X_test" = Some (VFrame X_test) ∧
     n_rows X_train + n_rows X_test = n_rows df ∧
     n_rows X_test = n_test (1 # 2) (n_rows df) ∧
     (n_rows df = 5000 → n_rows X_train = 2500 ∧ n_rows X_test = 2500)) ∧
  (∀ X y random_state,
     n_rows X = length y → splittable (Some (values y)) (1 # 2) (n_rows X) →
     ∃ r, train_test_split X y (1 # 2) (Some y) random_state = Ok r) ∧
  (∀ normalData anomalousData X_train X_test y_train y_test w',
     myTrainTestSplit normalData anomalousData w0 =
       Returns (X_train, X_test, y_train, y_test) w' →
     n_rows X_train + n_rows X_test = n_rows normalData + n_rows anomalousData ∧
     length y_train + length y_test = n_rows normalData + n_rows anomalousData) ∧
  (∀ normalData anomalousData,
     Forall (fun r : row => r.2 ≠ []) (rows normalData) →
     Forall (fun r : row => r.2 ≠ []) (rows anomalousData) →
     2 ≤ n_rows normalData → 2 ≤ n_rows anomalousData →
     ∃ r w', myTrainTestSplit normalData anomalousData w0 = Returns r w').
Proof.
  split; [|split; [|split]].
  - intros Hsel Hsel' w1 Hrun.
    pose proof (split_partitions w0 Hsel Hsel') as Hwp.
    unfold wp in Hwp. rewrite Hrun in Hwp.
    destruct Hwp as (df & X_train & X_test & HXtrain & HXtest & _ & Hperm & Htest & Hpart).
    exists df, X_train, X_test. destruct Hpart as (Hdf & _).
    do 3 (split; [done|]).
    assert (n_rows X_train + n_rows X_test = n_rows df) as Hsum.
    { apply Permutation_length in Hperm. rewrite length_app in Hperm.
      unfold index, n_rows in *. by rewrite !length_fmap in Hperm. }
    split; [done|]. split; [done|].
    intros Hn. rewrite Hn, n_test_half in Htest.
    change ((5000 + 1) `div` 2) with 2500 in Htest. lia.
  - intros X y random_state Hlen Hsplit. by apply train_test_split_returns.
  - intros normalData anomalousData X_train X_test y_train y_test w' Hrun.
    destruct (myTrainTestSplit_spec _ _ _ _ _ _ _ _ Hrun)
      as (y_normal & y_anomalous & train_n & test_n & train_a & test_a &
          Hyn & Hya & _ & _ & Hpn & Hpa & _ & _ & -> & -> & -> & ->).
    apply iloc_last_spec in Hyn as [_ Hyn]. apply iloc_last_spec in Hya as [_ Hya].
    destruct (partition_in_range _ _ _ Hpn) as (Hrn1 & Hrn2 & Hlen_n).
    destruct (partition_in_range _ _ _ Hpa) as (Hra1 & Hra2 & Hlen_a).
    rewrite !(n_rows_index (concat _ _)), !index_combined.
    unfold concat_series.
    rewrite !length_app, !length_take_rows;
      rewrite <-?n_rows_index, ?Hyn, ?Hya; try done.
    lia.
  - intros normalData anomalousData. apply myTrainTestSplit_returns.
Qed.

End both.
End SplitFacts.

(** ** Both notebooks: evaluation and errors *)

Module EvaluationFacts.
Import Python Pandas Sklearn Kernel KernelFacts SklearnFacts.
Import Notebook1 Pipeline.

Section both.
Context `{Library}.

(** In the second notebook every model's printed training time is the
    time its own training function took. *)
Lemma evaluate_one_reports_own_training_time
    heading model_func X_train y_train X_test y_test i s w s' w' :
  evaluate_one heading model_func X_train y_train X_test y_test i s w = Returns s' w' →
  ∃ model w1,
    model_func X_train y_train w = Returns model w1 ∧
    stdout w' !! length (stdout w1) =
      Some (VStr "Training time for model" ::
              heading ++ [VTime (elapsed (model_func X_train y_train) w); VStr "seconds"]).
Proof.
  intros Hrun.
  assert (wp (evaluate_one heading model_func X_train y_train X_test y_test i s)
            (fun _ w' => ∃ model w1,
               model_func X_train y_train w = Returns model w1 ∧
               stdout w' !! length (stdout w1) =
                 Some (VStr "Training time for model" ::
                         heading ++ [VTime (elapsed (model_func X_train y_train) w);
                                     VStr "seconds"]))
            (fun _ _ => True) w) as Hwp.
  { unfold evaluate_one. destruct s as [[recalls precisions] f1_scores]. wp_auto.
    apply wp_any; [|done]. intros model w1 Hfit. wp_auto.
    exists model, w1. split; [done|].
    unfold elapsed. rewrite Hfit. simpl.
    rewrite lookup_app_l by (rewrite length_app; simpl; lia).
    by rewrite list_lookup_middle. }
  unfold wp in Hwp. by rewrite Hrun in Hwp.
Qed.

(** C5.  For label vectors of the same length, [confusion_matrix] returns
    a matrix whose cells add up to the number of test rows; when the
    labels are two values that both occur, the matrix has exactly four
    cells.  So do the matrices of the evaluation code: the one the first
    notebook binds to [confusion], and the one [evaluate_one] (the body
    of both evaluation functions of the second notebook) prints. *)
Theorem confusion_matrix_cells_sum_to_test_rows :
  (∀ y_test y_pred : list cell,
     length y_test = length y_pred →
     ∃ m, confusion_matrix y_test y_pred = Ok m ∧
          sum_cells m = length y_test ∧
          ∀ zero one,
            zero ≠ one →
            Forall (fun v => v = zero ∨ v = one) (y_test ++ y_pred) →
            zero ∈ y_test ++ y_pred → one ∈ y_test ++ y_pred →
            ∃ c00 c01 c10 c11,
              m = [[c00; c01]; [c10; c11]] ∧ c00 + c01 + c10 + c11 = length y_test) ∧
  (∀ w w', assign_confusion w = Returns tt w' →
     ∃ y_test m,
       globals w !! "y_test" = Some (VSeries y_test) ∧
       globals w' !! "confusion" = Some (VMatrix m) ∧
       sum_cells m = length y_test) ∧
  (∀ heading model_func X_train y_train X_test (y_test : series) i s w s' w',
     evaluate_one heading model_func X_train y_train X_test y_test i s w = Returns s' w' →
     ∃ m, last (stdout w') =
            Some (VStr "Confusion matrix for model" :: heading ++ [VMatrix m]) ∧
          sum_cells m = length y_test).
Proof.
  split; [|split].
  - intros y_test y_pred Hlen.
    destruct (confusion_matrix y_test y_pred) as [m|] eqn:Hm;
      [|unfold confusion_matrix in Hm; by rewrite decide_True in Hm].
    exists m. split; [done|]. split; [by eapply confusion_matrix_sum|].
    intros zero one Hne Hvalues Hzero Hone.
    destruct (two_labels y_test y_pred zero one) as (a & b & Hlabels); [done..|].
    pose proof (confusion_matrix_sum _ _ _ Hm) as Hsum.
    unfold confusion_matrix in Hm. rewrite decide_True, Hlabels in Hm by done.
    injection Hm as <-. eexists _, _, _, _. split; [reflexivity|].
    rewrite <-Hsum. unfold sum_cells. simpl. lia.
  - intros w w' Hrun.
    assert (wp assign_confusion (fun _ w' => ∃ y_test m,
        globals w !! "y_test" = Some (VSeries y_test) ∧
        globals w' !! "confusion" = Some (VMatrix m) ∧
        sum_cells m = length y_test) (fun _ _ => True) w) as Hwp.
    { unfold assign_confusion. wp_auto. eexists _, _. split; [done|]. split; [done|].
      match goal with Hm : confusion_matrix _ _ = Ok _ |- _ =>
        rewrite (confusion_matrix_sum _ _ _ Hm) end.
      unfold values. by rewrite length_fmap. }
    unfold wp in Hwp. by rewrite Hrun in Hwp.
  - intros heading model_func X_train y_train X_test y_test i s w s' w' Hrun.
    assert (wp (evaluate_one heading model_func X_train y_train X_test y_test i s)
              (fun _ w' => ∃ m, last (stdout w') =
                   Some (VStr "Confusion matrix for model" :: heading ++ [VMatrix m]) ∧
                 sum_cells m = length y_test) (fun _ _ => True) w) as Hwp.
    { unfold evaluate_one. destruct s as [[recalls precisions] f1_scores]. wp_auto.
      apply wp_any; [|done]. intros model w1 _. wp_auto.
      eexists. rewrite last_snoc. split; [done|].
      match goal with Hm : confusion_matrix _ _ = Ok _ |- _ =>
        rewrite (confusion_matrix_sum _ _ _ Hm) end.
      unfold values. by rewrite length_fmap. }
    unfold wp in Hwp. by rewrite Hrun in Hwp.
Qed.

End both.
End EvaluationFacts.

Module ErrorFacts.
Import Python Pandas Sklearn Kernel KernelFacts SklearnFacts.
Import Notebook1 Pipeline Statements Handlers.

Section both.
Context `{Library}.

























End both.
End ErrorFacts.

(** ** The notebooks run on the small library *)

Module Runs.
Import Python Pandas Sklearn Kernel KernelFacts Reference ReferenceFacts Notebook1.

(** The state the first notebook has reached before its last cell. *)
Definition before_cell7 : world :=
  world_of (run (cell1 ++ cell2 ++ cell3 ++ cell4 ++ cell5 ++ cell6) fresh).

(** Both notebooks run to their end from a fresh kernel. *)
Lemma notebooks_return :
  returned (run Notebook1.notebook fresh) = true ∧
  returned (run Pipeline.notebook fresh) = true.
Proof. split; vm_compute; reflexivity. Qed.

(** With no file on the disk, the first notebook stops at [pd.read_csv]
    with the library's exception. *)
Lemma notebook_without_files_raises :
  match run (H0 := no_files) Notebook1.notebook fresh with
  | Returns _ _ => None
  | Raises e w => Some (e, length (stdout w), files_read w)
  end = Some (FileNotFoundError, 0, ["IP_Activity_Dataset_5000.csv"]).
Proof. vm_compute. reflexivity. Qed.

(** The first notebook's split of the six rows on the disk: three train
    rows, three test rows, each row in one part. *)
Lemma split_of_six_rows :
  match run (cell1 ++ cell2 ++ cell3) fresh with
  | Returns _ w =>
      match globals w !! "X_train", globals w !! "X_test" with
      | Some (VFrame X_train), Some (VFrame X_test) => Some (index X_train, index X_test)
      | _, _ => None
      end
  | Raises _ _ => None
  end = Some ([3; 4; 5], [0; 1; 2]).
Proof. vm_compute. reflexivity. Qed.

(** [myTrainTestSplit] on the two small files: of 4 normal rows 2 go to
    the test part, of 3 anomalous rows 1.  The combined tables keep each
    file's own index labels, so a label may occur twice: a row is known
    by its file and position. *)
Lemma myTrainTestSplit_of_small_files :
  match disk "normal.csv", disk "anomalous.csv" with
  | Ok normalData, Ok anomalousData =>
      match Pipeline.myTrainTestSplit normalData anomalousData fresh with
      | Returns (X_train, X_test, y_train, y_test) _ =>
          Some (index X_train, index X_test, values y_train, values y_test)
      | Raises _ _ => None
      end
  | _, _ => None
  end = Some ([2; 3; 1; 2], [0; 1; 0], [0; 0; 1; 1], [0; 0; 1]).
Proof. vm_compute. reflexivity. Qed.

(** A confusion matrix of four test rows. *)
Lemma confusion_matrix_of_four_rows :
  confusion_matrix [0; 1; 1; 0] [0; 1; 0; 0] = Ok [[2; 0]; [1; 1]] ∧
  sum_cells [[2; 0]; [1; 1]] = 4.
Proof. split; vm_compute; reflexivity. Qed.

(** The state the first notebook has reached before cell 6. *)
Definition before_cell6 : world :=
  world_of (run (cell1 ++ cell2 ++ cell3 ++ cell4 ++ cell5) fresh).

Lemma cell6_reaches_loop :
  returned (run (cell6_select ++ cell6_plot ++ [cell6_heading]) before_cell6) = true.
Proof. vm_compute. reflexivity. Qed.

(** On the small library cell 6 reaches its loop, and the loop clobbers
    the attribute. *)
Lemma print_loop_clobbers_feature_names_run :
  run (cell6_select ++ cell6_plot ++ [cell6_heading]) before_cell6 =
    Returns tt (world_of (run (cell6_select ++ cell6_plot ++ [cell6_heading]) before_cell6)) ∧
  NotebookFacts.loop_clobbers_names
    (world_of (run (cell6_select ++ cell6_plot ++ [cell6_heading]) before_cell6)).
Proof.
  pose proof (returned_run _ before_cell6 cell6_reaches_loop) as Hrun.
  split; [exact Hrun|].
  exact (NotebookFacts.print_loop_clobbers_feature_names before_cell6 _ Hrun).
Defined.

(** What [rf.feature_names_in_] and [selected_features] are after a run. *)
Definition names_and_selection (o : outcome unit) : option (option names_attr * list nat) :=
  match o with
  | Returns _ w =>
      match globals w !! "rf", globals w !! "selected_features" with
      | Some (VEstimator rf), Some (VIdx selected) => Some (feature_names_in_ rf, selected)
      | _, _ => None
      end
  | Raises _ _ => None
  end.

(** C10, its last clause.  The small library's [fit] removes
    [feature_names_in_] when it is given an array without column names, as
    scikit-learn's [fit] does.  There three features are selected; after
    the loop the attribute is the index 2 of the last one; after the refit
    [rf.fit(Xtrain_sel, y_train)] the attribute is gone, so
    [rf.predict(X_test_selected)], the next operation on [rf], does not see
    the index. *)
Lemma refit_drops_clobbered_index :
  names_and_selection
    (run (cell6_select ++ cell6_plot ++ [cell6_heading; print_loop]) before_cell6) =
    Some (Some (FeatureIndex 2), [0; 1; 2]) ∧
  names_and_selection
    (run (cell6_select ++ cell6_plot ++
          cell6_heading :: print_loop :: cell6_slices ++ [cell6_refit]) before_cell6) =
    Some (None, [0; 1; 2]).
Proof. split; vm_compute; reflexivity. Qed.

(** C3, second notebook.  Both files are read with the index labels 0,
    1, 2, ..., and the returned tables keep them: on the two small files
    the label 1 is a train row (of the anomalous table) and a test row (of
    the normal table), and the labels of the 7 rows are 4 in all. *)
Lemma train_and_test_labels_overlap :
  match disk "normal.csv", disk "anomalous.csv" with
  | Ok normalData, Ok anomalousData =>
      match Pipeline.myTrainTestSplit normalData anomalousData fresh with
      | Returns (X_train, X_test, _, _) _ =>
          Some (n_rows normalData + n_rows anomalousData, index X_train, index X_test)
      | Raises _ _ => None
      end
  | _, _ => None
  end = Some (7, [2; 3; 1; 2], [0; 1; 0]) ∧
  1 ∈ [2; 3; 1; 2] ∧ 1 ∈ [0; 1; 0] ∧
  remove_dups ([2; 3; 1; 2] ++ [0; 1; 0]) = [3; 2; 1; 0].
Proof.
  split; [vm_compute; reflexivity|]. split; [set_solver|]. split; [set_solver|].
  vm_compute. reflexivity.
Qed.

(** The importances 15/16, 1/32 and 1/32: the first is over 0.9, and
    nothing is selected. *)
Lemma dominant_importance_example :
  Forall (fun x => (0 <= x)%Q) (dominating 3) ∧
  (∃ x, x ∈ dominating 3 ∧ (FeatureSelection.threshold < Numpy.float64 x)%Q) ∧
  FeatureSelection.selected_features (dominating 3) = [].
Proof.
  assert (Forall (fun x => (0 <= x)%Q) (dominating 3)) as Hnonneg
    by (repeat constructor; discriminate).
  assert (∃ x, x ∈ dominating 3 ∧ (FeatureSelection.threshold < Numpy.float64 x)%Q)
    as Hover by (exists (15 # 16)%Q; split; [by left|reflexivity]).
  split; [exact Hnonneg|]. split; [exact Hover|].
  exact (proj1 (NotebookFacts.dominant_importance_selects_no_feature
                  (H0 := dominated) _ Hnonneg Hover)).
Defined.

(** The first notebook on the library with a dominating feature, up to
    the refit of cell 6. *)
Definition up_to_refit : list (Py (H0 := dominated) unit) :=
  cell1 ++ cell2 ++ cell3 ++ cell4 ++ cell5 ++
  cell6_select ++ cell6_plot ++ cell6_heading :: print_loop :: cell6_slices.

Definition before_refit : world (H0 := dominated) := world_of (run up_to_refit fresh).

(** The importances held by the forest a name is bound to. *)
Definition fitted_importances (x : string) (w : world (H0 := dominated)) : option (list Q) :=
  match globals w !! x with
  | Some (VEstimator m) => fitted_ m
  | _ => None
  end.

(** C9, its last clause.  On the library with a dominating feature the
    forest of cell 6 has the importances 15/16, 1/32 and 1/32; nothing is
    selected, [Xtrain_sel] has the three train rows and no column, and
    [rf.fit(Xtrain_sel, y_train)] raises [ValueError], as scikit-learn's
    [fit] does on an array without features.  The notebook ends there:
    [rf] still holds the forest fitted on the three features, and no
    refined model is trained. *)
Lemma refit_on_no_feature_raises :
  returned (run up_to_refit fresh) = true ∧
  fitted_importances "rf" before_refit = Some [15 # 16; 1 # 32; 1 # 32]%Q ∧
  match globals before_refit !! "selected_features" with
  | Some (VIdx l) => Some l
  | _ => None
  end = Some [] ∧
  match globals before_refit !! "Xtrain_sel" with
  | Some (VFrame X) => Some (n_rows X, n_columns X, (rows X).*2)
  | _ => None
  end = Some (3, 0, [[]; []; []]) ∧
  match cell6_refit before_refit with
  | Returns _ _ => None
  | Raises e w => Some (e, fitted_importances "rf" w)
  end = Some (ValueError, Some [15 # 16; 1 # 32; 1 # 32]%Q) ∧
  match run (H0 := dominated) Notebook1.notebook fresh with
  | Returns _ _ => None
  | Raises e w => Some (e, fitted_importances "rf" w)
  end = Some (ValueError, Some [15 # 16; 1 # 32; 1 # 32]%Q).
Proof. repeat split; vm_compute; reflexivity. Qed.

Lemma cell7_returns : returned (run cell7 before_cell7) = true.
Proof. vm_compute. reflexivity. Qed.

Lemma grid_search_cost : cost "cell 7: grid_search.fit(Xtrain_sel, y_train)" = 254.
Proof. vm_compute. reflexivity. Qed.

Lemma rf_best_cost : cost "cell 7: rf_best.fit(Xtrain_sel, y_train)" = 14.
Proof. vm_compute. reflexivity. Qed.

(** On the small library the grid search takes 254 ticks and the training
    of [rf_best] 14: the last cell prints 254 as the execution time of the
    final model. *)
Lemma final_cell_prints_254_not_14 :
  run cell7 before_cell7 = Returns tt (world_of (run cell7 before_cell7)) ∧
  cost "cell 7: rf_best.fit(Xtrain_sel, y_train)" = 14 ∧
  last (stdout (world_of (run cell7 before_cell7))) =
    Some [VStr "Execution time:"; VTime 254].
Proof.
  pose proof (returned_run cell7 before_cell7 cell7_returns) as Hrun.
  split; [exact Hrun|]. split; [exact rf_best_cost|].
  exact (eq_trans
           (NotebookFacts.final_cell_reports_grid_search_time before_cell7 _ Hrun)
           (f_equal (fun t => Some [VStr "Execution time:"; VTime t]) grid_search_cost)).
Defined.

End Runs.

(** * Further properties of the notebooks *)

(** ** Feature selection: which features are kept *)

Module RankingFacts.
Import Numpy FeatureSelection FeatureSelectionFacts.
Local Open Scope Q_scope.

Section ranking.
Context `{Float64}.

Lemma comprehension_sublist idx cs : comprehension (zip idx cs) `sublist_of` idx.
Proof.
  revert cs. induction idx as [|i idx IH]; intros [|c cs]; simpl;
    try apply sublist_nil_l.
  destruct (Qle_bool c threshold); [by apply sublist_skip|by apply sublist_cons].
Qed.

Lemma indices_NoDup a : NoDup (indices a).
Proof. rewrite indices_perm. apply NoDup_seq. Qed.

Lemma length_indices a : length (indices a) = length a.
Proof. by rewrite indices_perm, length_seq. Qed.

Lemma length_cum_important a : length (cum_important a) = length a.
Proof.
  unfold cum_important, take_idx. by rewrite length_cumsum, length_map, length_indices.
Qed.

(** Every selected feature is at least as important as every feature
    left out: for non-negative importances the selection is a set of
    top-ranked features. *)
Theorem selected_features_outrank_the_rest (importances : list Q) :
  Forall (fun x => 0 <= x) importances →
  ∀ i j, i ∈ selected_features importances →
         (j < length importances)%nat → j ∉ selected_features importances →
         getitem importances j <= getitem importances i.
Proof.
  intros Ha i j Hi Hj Hnot.
  destruct (selected_features_take importances Ha) as (k & _ & Hsel & _).
  rewrite Hsel in Hi, Hnot.
  assert (j ∈ indices importances) as Hin.
  { rewrite indices_perm, elem_of_seq. lia. }
  rewrite <-(take_drop k (indices importances)), elem_of_app in Hin.
  destruct Hin as [Hin|Hin]; [done|].
  pose proof (indices_descending importances) as Hsorted.
  rewrite <-(take_drop k (indices importances)) in Hsorted.
  exact (StronglySorted_app_1_elem_of _ _ _ _ _ Hsorted Hi Hin).
Qed.

(** Nothing is selected exactly when one importance alone, as a float64,
    is over the float64 [0.9] (an importance equal to it is selected);
    otherwise the selection starts with the top-ranked feature. *)
Theorem nothing_selected_iff_one_importance_over_threshold (importances : list Q) :
  Forall (fun x => 0 <= x) importances → importances ≠ [] →
  (selected_features importances = [] ↔
   ∃ x, x ∈ importances ∧ threshold < float64 x) ∧
  (selected_features importances ≠ [] →
   head (selected_features importances) = head (indices importances)).
Proof.
  intros Ha Hne.
  assert (∃ i0 rest, indices importances = i0 :: rest) as (i0 & rest & Hidx).
  { destruct (indices importances) as [|i0 rest] eqn:Hidx; [|eauto].
    apply (f_equal length) in Hidx. rewrite length_indices in Hidx.
    by destruct importances. }
  assert (i0 < length importances)%nat as Hi0.
  { apply indices_in_range. rewrite Hidx. by left. }
  assert (selected_features importances =
          if Qle_bool (float64 (getitem importances i0)) threshold
          then i0 :: comprehension (zip rest
                 (cumsum_from (float64 (getitem importances i0))
                    (take_idx importances rest)))
          else comprehension (zip rest
                 (cumsum_from (float64 (getitem importances i0))
                    (take_idx importances rest)))) as Hsel.
  { unfold selected_features. by rewrite (cum_important_head _ _ _ Hidx), Hidx. }
  split; [split|].
  - intros Hnil. exists (getitem importances i0). split; [by apply getitem_elem_of|].
    apply Qnot_le_lt. intros Hle. apply Qle_bool_iff in Hle.
    rewrite Hsel, Hle in Hnil. done.
  - by apply dominant_selects_nothing.
  - intros Hsome. rewrite Hsel, Hidx in *.
    destruct (Qle_bool (float64 (getitem importances i0)) threshold) eqn:E; [done|].
    exfalso. apply Hsome. apply comprehension_over_threshold.
    assert (¬ float64 (getitem importances i0) <= threshold) as Hnot
      by (rewrite <-Qle_bool_iff, E; done).
    eapply Forall_impl;
      [apply cumsum_from_lower; [apply float64_stored|by apply take_idx_nonneg]|].
    intros c Hc Hc'. simpl in Hc. apply Hnot. lra.
Qed.

(** Every feature is selected exactly when the last running sum, the
    float64 sum of all importances added in the order of the ranking, is
    within the float64 [0.9]; when it is over, the lowest-ranked feature
    is left out. *)
Theorem every_feature_selected_iff_last_sum_within_threshold (importances : list Q) :
  Forall (fun x => 0 <= x) importances →
  (length (selected_features importances) = length importances ↔
   ∀ c, last (cum_important importances) = Some c → c <= threshold) ∧
  (∀ c i, last (cum_important importances) = Some c → threshold < c →
          last (indices importances) = Some i → i ∉ selected_features importances).
Proof.
  intros Ha.
  destruct (selected_features_take importances Ha) as (k & Hk & Hsel & Hle & Hnext).
  assert (length (selected_features importances) = k) as Hlen.
  { rewrite Hsel, length_take_le; [done|]. by rewrite length_indices. }
  pose proof (length_cum_important importances) as Hcum.
  assert (length (selected_features importances) = length importances ↔
          ∀ c, last (cum_important importances) = Some c → c <= threshold) as Hiff.
  { rewrite Hlen. split.
    - intros -> c Hc. rewrite take_ge in Hle by lia.
      rewrite Forall_forall in Hle. apply Hle. rewrite last_lookup in Hc.
      by eapply list_elem_of_lookup_2.
    - intros Hlast. destruct (decide (k = length importances)) as [|Hne]; [done|]. exfalso.
      assert (is_Some (last (cum_important importances))) as [c Hc].
      { rewrite last_lookup. apply lookup_lt_is_Some. lia. }
      specialize (Hlast c Hc). rewrite Forall_forall in Hnext. apply (Hnext c); [|done].
      rewrite last_lookup in Hc. apply list_elem_of_lookup.
      exists (pred (length (cum_important importances)) - k)%nat.
      rewrite lookup_drop, <-Hc. f_equal. lia. }
  split; [exact Hiff|].
  intros c i Hc Hover Hlast Hin.
  assert (k ≠ length importances) as Hne.
  { intros Heq. rewrite <-Hlen in Heq. pose proof (proj1 Hiff Heq c Hc). lra. }
  rewrite Hsel in Hin. apply elem_of_take in Hin as (p & Hp & Hpk).
  rewrite last_lookup in Hlast.
  pose proof (indices_NoDup importances) as Hnodup.
  assert (p = pred (length (indices importances))) as ->
    by (eapply NoDup_lookup; eauto).
  rewrite length_indices in Hpk. lia.
Qed.

End ranking.

Import Reference ReferenceFacts.

Lemma selected_features_outrank_the_rest_example :
  Forall (fun x => 0 <= x) [1 # 8; 3 # 4; 1 # 8] ∧
  ∀ i j, i ∈ selected_features [1 # 8; 3 # 4; 1 # 8] →
         (j < length [1 # 8; 3 # 4; 1 # 8])%nat →
         j ∉ selected_features [1 # 8; 3 # 4; 1 # 8] →
         getitem [1 # 8; 3 # 4; 1 # 8] j <= getitem [1 # 8; 3 # 4; 1 # 8] i.
Proof.
  assert (Forall (fun x => 0 <= x) [1 # 8; 3 # 4; 1 # 8]) as Ha
    by (repeat constructor; discriminate).
  split; [exact Ha|].
  exact (selected_features_outrank_the_rest [1 # 8; 3 # 4; 1 # 8] Ha).
Defined.

Lemma nothing_selected_iff_one_importance_over_threshold_example :
  Forall (fun x => 0 <= x) [1 # 8; 3 # 4; 1 # 8] ∧
  [1 # 8; 3 # 4; 1 # 8] ≠ [] ∧
  (selected_features [1 # 8; 3 # 4; 1 # 8] = [] ↔
     ∃ x, x ∈ [1 # 8; 3 # 4; 1 # 8] ∧ threshold < float64 x) ∧
  (selected_features [1 # 8; 3 # 4; 1 # 8] ≠ [] →
   head (selected_features [1 # 8; 3 # 4; 1 # 8]) = head (indices [1 # 8; 3 # 4; 1 # 8])).
Proof.
  assert (Forall (fun x => 0 <= x) [1 # 8; 3 # 4; 1 # 8]) as Ha
    by (repeat constructor; discriminate).
  assert ([1 # 8; 3 # 4; 1 # 8] ≠ []) as Hne by discriminate.
  split; [exact Ha|]. split; [exact Hne|].
  exact (nothing_selected_iff_one_importance_over_threshold _ Ha Hne).
Defined.

Lemma every_feature_selected_iff_last_sum_within_threshold_example :
  Forall (fun x => 0 <= x) [1 # 8; 3 # 4; 1 # 8] ∧
  (length (selected_features [1 # 8; 3 # 4; 1 # 8]) = length [1 # 8; 3 # 4; 1 # 8] ↔
   ∀ c, last (cum_important [1 # 8; 3 # 4; 1 # 8]) = Some c → c <= threshold) ∧
  (∀ c i, last (cum_important [1 # 8; 3 # 4; 1 # 8]) = Some c → threshold < c →
          last (indices [1 # 8; 3 # 4; 1 # 8]) = Some i →
          i ∉ selected_features [1 # 8; 3 # 4; 1 # 8]).
Proof.
  assert (Forall (fun x => 0 <= x) [1 # 8; 3 # 4; 1 # 8]) as Ha
    by (repeat constructor; discriminate).
  split; [exact Ha|].
  exact (every_feature_selected_iff_last_sum_within_threshold _ Ha).
Defined.

End RankingFacts.

(** ** First notebook: what the cells compute and print *)

Module CellFacts.
Import Python Pandas Sklearn Kernel KernelFacts SklearnFacts Notebook1 Statements.
Import NotebookFacts.

Section cells.
Context `{Library}.

(** Cell 4.  The scaler's statistics come from the training rows alone,
    and the test rows are transformed with those same statistics. *)
Theorem scaler_is_fitted_on_the_training_rows (w0 w : world) :
  run cell4 w0 = Returns tt w →
  ∃ X_train X_test s,
    globals w0 !! "X_train" = Some (VFrame X_train) ∧
    globals w0 !! "X_test" = Some (VFrame X_test) ∧
    scaler_fit (rows X_train).*2 = Ok s ∧
    globals w !! "scaler" = Some (VScaler (Some s)) ∧
    globals w !! "X_train" = Some (VFrame (transform s X_train)) ∧
    globals w !! "X_test" = Some (VFrame (transform s X_test)).
Proof.
  intros Hrun.
  assert (wp (run cell4) (fun _ w => ∃ X_train X_test s,
    globals w0 !! "X_train" = Some (VFrame X_train) ∧
    globals w0 !! "X_test" = Some (VFrame X_test) ∧
    scaler_fit (rows X_train).*2 = Ok s ∧
    globals w !! "scaler" = Some (VScaler (Some s)) ∧
    globals w !! "X_train" = Some (VFrame (transform s X_train)) ∧
    globals w !! "X_test" = Some (VFrame (transform s X_test)))
    (fun _ _ => True) w0) as Hwp.
  { statements. wp_auto.
    match goal with Hfit : fit_transform _ = Ok _ |- _ => unfold fit_transform in Hfit end.
    destruct (scaler_fit _) as [s'|] eqn:Hs; simplify_eq/=.
    eexists _, _, _. wp_lookup. repeat split; first [reflexivity|eassumption]. }
  unfold wp in Hwp. by rewrite Hrun in Hwp.
Qed.

(** Cell 7.  The final forest is built with [n_estimators=10] and
    [max_depth=10] as written in the cell, whatever parameters the grid
    search found; the cell prints six lines: the search's best parameters
    and score, then accuracy, F1 and confusion matrix of the final
    forest's predictions on [X_test_selected] against [y_test], then a
    duration. *)
Theorem final_cell_scores_a_forest_of_fixed_parameters (w0 w : world) :
  run cell7 w0 = Returns tt w →
  ∃ Xtrain_sel X_test_selected y_train y_test search forest y_pred accuracy f1 confusion t,
    globals w0 !! "Xtrain_sel" = Some (VFrame Xtrain_sel) ∧
    globals w0 !! "X_test_selected" = Some (VFrame X_test_selected) ∧
    globals w0 !! "y_train" = Some (VSeries y_train) ∧
    globals w0 !! "y_test" = Some (VSeries y_test) ∧
    fit (GridSearchCV (RandomForestClassifier None None 42) [10; 20] [10; 20] 3)
        (rows Xtrain_sel).*2 (values y_train) = Ok search ∧
    fit (RandomForestClassifier (Some 10) (Some 10) 42)
        (rows Xtrain_sel).*2 (values y_train) = Ok forest ∧
    predict forest (rows X_test_selected).*2 = Ok y_pred ∧
    accuracy_score (values y_test) y_pred = Ok accuracy ∧
    f1_score (values y_test) y_pred = Ok f1 ∧
    confusion_matrix (values y_test) y_pred = Ok confusion ∧
    stdout w = stdout w0 ++
      [ [VStr "Optimal hyperparameters:"; VParams (best_params search)];
        [VStr "Optimal cross-validation score:"; VNum (best_score search)];
        [VStr "Accuracy:"; VNum accuracy];
        [VStr "F1-score:"; VNum f1];
        [VStr "Confusion matrix:"; VMatrix confusion];
        [VStr "Execution time:"; VTime t] ].
Proof.
  intros Hrun.
  assert (wp (run cell7) (fun _ w =>
    ∃ Xtrain_sel X_test_selected y_train y_test search forest y_pred accuracy f1 confusion t,
    globals w0 !! "Xtrain_sel" = Some (VFrame Xtrain_sel) ∧
    globals w0 !! "X_test_selected" = Some (VFrame X_test_selected) ∧
    globals w0 !! "y_train" = Some (VSeries y_train) ∧
    globals w0 !! "y_test" = Some (VSeries y_test) ∧
    fit (GridSearchCV (RandomForestClassifier None None 42) [10; 20] [10; 20] 3)
        (rows Xtrain_sel).*2 (values y_train) = Ok search ∧
    fit (RandomForestClassifier (Some 10) (Some 10) 42)
        (rows Xtrain_sel).*2 (values y_train) = Ok forest ∧
    predict forest (rows X_test_selected).*2 = Ok y_pred ∧
    accuracy_score (values y_test) y_pred = Ok accuracy ∧
    f1_score (values y_test) y_pred = Ok f1 ∧
    confusion_matrix (values y_test) y_pred = Ok confusion ∧
    stdout w = stdout w0 ++
      [ [VStr "Optimal hyperparameters:"; VParams (best_params search)];
        [VStr "Optimal cross-validation score:"; VNum (best_score search)];
        [VStr "Accuracy:"; VNum accuracy];
        [VStr "F1-score:"; VNum f1];
        [VStr "Confusion matrix:"; VMatrix confusion];
        [VStr "Execution time:"; VTime t] ])
    (fun _ _ => True) w0) as Hwp.
  { statements. wp_auto. simplify_eq/=.
    eexists _, _, _, _, _, _, _, _, _, _, _.
    repeat (split; [first [reflexivity|eassumption]|]).
    rewrite <-!(assoc_L app). reflexivity. }
  unfold wp in Hwp. by rewrite Hrun in Hwp.
Qed.

(** Cell 6.  The duration the cell prints last is the time of its own
    timed call, the refit on the selected columns. *)
Theorem refit_cell_reports_its_own_training_time (w0 w : world) :
  run cell6 w0 = Returns tt w →
  last (stdout w) =
    Some [VStr "Time Execution:"; VTime (cost "cell 6: rf.fit(Xtrain_sel, y_train)")].
Proof.
  intros Hrun.
  assert (cell6 =
          (cell6_select ++ cell6_plot ++
           [cell6_heading; print_loop;
            select_into "Xtrain_sel" "X_train"; select_into "X_test_selected" "X_test"]) ++
          (assign "start_time" (VTime <$> time_time) :: cell6_refit :: cell6_scores)) as Hcell
    by reflexivity.
  rewrite Hcell in Hrun. apply run_app_returns in Hrun as (w1 & _ & Hrun).
  assert (wp (run (assign "start_time" (VTime <$> time_time) :: cell6_refit :: cell6_scores))
            (fun _ w => last (stdout w) =
               Some [VStr "Time Execution:";
                     VTime (cost "cell 6: rf.fit(Xtrain_sel, y_train)")])
            (fun _ _ => True) w1) as Hwp.
  { statements. unfold cell6_refit. wp_auto. rewrite last_snoc. repeat f_equal. lia. }
  unfold wp in Hwp. by rewrite Hrun in Hwp.
Qed.

Lemma after_split_leaves_labels :
  Forall (steady ["y_train"; "y_test"; "X"; "y"; "df"]) after_split.
Proof. all_steady. Qed.

(** After the split, no statement of the notebook rebinds the labels, the
    unsplit features and labels or the table: at every point of the rest
    of the run, complete or cut short by an exception, [y_train],
    [y_test], [X], [y] and [df] are what they were when the split
    returned.  Scaling and selection touch features only. *)
Theorem labels_are_never_rebound_after_the_split (w : world) (k : nat) :
  Forall (fun x => globals (world_of (run (take k after_split) w)) !! x = globals w !! x)
    ["y_train"; "y_test"; "X"; "y"; "df"].
Proof.
  destruct (steady_run_take _ _ k after_split_leaves_labels w) as [Hsame _].
  apply Forall_forall. exact Hsame.
Qed.

(** A table that has no column named [label] ends the first notebook
    with [KeyError] at the class count of cell 2: by then the table is
    bound to [df] and the two size lines are printed; no split was
    drawn. *)
Theorem table_without_label_column_ends_in_KeyError (w0 : world) (f : frame) :
  (∀ m, import_module m = Ok tt) →
  read_csv "IP_Activity_Dataset_5000.csv" = Ok f →
  "label" ∉ columns f →
  ∃ w, run notebook w0 = Raises KeyError w ∧
       stdout w = stdout w0 ++
         [ [VStr "# of observations:"; VInt (n_rows f)];
           [VStr "# of variables:"; VInt (n_columns f)] ] ∧
       globals w = <["df" := VFrame f]> (globals w0).
Proof.
  intros Himports Hread Hlabel.
  assert (getitem_column "label" f = Raise KeyError) as Hkey.
  { unfold getitem_column, column_position.
    assert (list_find (fun c => c = "label") (columns f) = None) as ->; [|done].
    apply list_find_None, Forall_forall. by intros c Hc ->. }
  assert (wp (run notebook) (fun _ _ => False)
            (fun e w => e = KeyError ∧
               stdout w = stdout w0 ++
                 [ [VStr "# of observations:"; VInt (n_rows f)];
                   [VStr "# of variables:"; VInt (n_columns f)] ] ∧
               globals w = <["df" := VFrame f]> (globals w0)) w0) as Hwp.
  { statements. unfold load_df.
    repeat (rewrite ?Himports, ?Hread, ?Hkey; wp_lookup; wp_step).
    rewrite ?Hkey. wp_lookup. by rewrite <-(assoc_L app). }
  unfold wp in Hwp. destruct (run notebook w0) as [|e w]; [done|].
  destruct Hwp as (-> & ? & ?). eauto.
Qed.

(** Cell 3 up to the split.  [X] is the table without the label column
    and [y] is that column: every row of [df] gives the row of [X] with
    the same index and the same cells but the label, and the entry of [y]
    with the same index and the label. *)
Theorem features_and_labels_divide_the_table (w0 w : world) :
  run (take 2 cell3) w0 = Returns tt w →
  ∃ df j X y,
    globals w0 !! "df" = Some (VFrame df) ∧
    columns df !! j = Some "label" ∧
    globals w !! "X" = Some (VFrame X) ∧
    globals w !! "y" = Some (VSeries y) ∧
    columns X = delete j (columns df) ∧
    rows X = (fun r : row => (r.1, delete j r.2)) <$> rows df ∧
    Forall2 (fun (r : row) (l : nat * cell) => l.1 = r.1 ∧ r.2 !! j = Some l.2) (rows df) y.
Proof.
  intros Hrun.
  assert (wp (run (take 2 cell3)) (fun _ w => ∃ df j X y,
    globals w0 !! "df" = Some (VFrame df) ∧
    columns df !! j = Some "label" ∧
    globals w !! "X" = Some (VFrame X) ∧
    globals w !! "y" = Some (VSeries y) ∧
    columns X = delete j (columns df) ∧
    rows X = (fun r : row => (r.1, delete j r.2)) <$> rows df ∧
    Forall2 (fun (r : row) (l : nat * cell) => l.1 = r.1 ∧ r.2 !! j = Some l.2) (rows df) y)
    (fun _ _ => True) w0) as Hwp.
  { clear Hrun. statements. cbn [take]. wp_auto.
    match goal with
    | Hdrop : drop_column _ ?df = Ok ?X, Hget : getitem_column _ ?df = Ok ?y |- _ =>
        unfold drop_column, getitem_column, column_position, of_option in Hdrop, Hget;
        destruct (list_find (fun c => c = "label") (columns df)) as [[j c]|] eqn:Hfind;
          [|done];
        simpl in Hdrop, Hget;
        destruct (mapM _ (rows df)) as [l|] eqn:Hl; [|done];
        simplify_eq/=;
        exists df, j; eexists _, _
    end.
    apply list_find_Some in Hfind as (Hj & -> & _).
    do 4 (split; [done|]). do 2 (split; [reflexivity|]).
    apply mapM_Some_1 in Hl. eapply Forall2_impl; [exact Hl|].
    intros r l' Hr. simpl in Hr. apply fmap_Some in Hr as (c & Hc & ->). done. }
  unfold wp in Hwp. by rewrite Hrun in Hwp.
Qed.

End cells.
End CellFacts.

(** ** First notebook: selection, listing and slicing together *)

Module SliceFacts.
Import Python Pandas Sklearn Kernel KernelFacts SklearnFacts Notebook1 Statements.
Import FeatureSelection FeatureSelectionFacts NotebookFacts PartitionFacts RankingFacts.

Section slices.
Context `{Library}.

(** A slice by columns that every row has returns. *)
Lemma select_columns_returns (X : frame) cols :
  Forall (fun r : row => Forall (fun j => j < length r.2) cols) (rows X) →
  ∃ X', select_columns X cols = Ok X'.
Proof.
  intros HX. unfold select_columns.
  assert (is_Some (mapM (fun r : row => (fun cs => (r.1, cs)) <$> mapM (fun j => r.2 !! j) cols)
                        (rows X))) as [l ->]; [|by eexists].
  apply mapM_is_Some. eapply Forall_impl; [exact HX|].
  intros r Hr. simpl.
  assert (is_Some (mapM (fun j => r.2 !! j) cols)) as [cs ->]; [|by eexists].
  apply mapM_is_Some. eapply Forall_impl; [exact Hr|].
  intros j Hj. by apply lookup_lt_is_Some.
Qed.

(** What a slice holds: every row keeps its label, and its cells are the
    cells of the listed columns, in the listed order. *)
Lemma select_columns_rows (X : frame) cols X' :
  select_columns X cols = Ok X' →
  Forall2 (fun r r' : row => r'.1 = r.1 ∧ Forall2 (fun j c => r.2 !! j = Some c) cols r'.2)
    (rows X) (rows X').
Proof.
  unfold select_columns, of_option.
  destruct (mapM _ (rows X)) as [l|] eqn:Hl; [|done]. intros [= <-]. simpl.
  apply mapM_Some_1 in Hl. eapply Forall2_impl; [exact Hl|].
  intros r r' Hr. simpl in Hr.
  apply fmap_Some in Hr as (cs & Hcs & ->). split; [done|]. simpl.
  by apply mapM_Some_1.
Qed.

(** The selected features are distinct column numbers, so an array with
    one column per importance can always be sliced by them: the slice
    returns, keeps every row, and gives each row one cell per selected
    feature, the cell of that feature's column. *)
Theorem selected_features_slice_returns (importances : list Q) (X : frame) :
  Forall (fun r : row => length r.2 = length importances) (rows X) →
  NoDup (selected_features importances) ∧
  ∃ X', select_columns X (selected_features importances) = Ok X' ∧
        index X' = index X ∧
        Forall2 (fun r r' : row =>
                   Forall2 (fun j c => r.2 !! j = Some c)
                     (selected_features importances) r'.2)
          (rows X) (rows X').
Proof.
  intros HX. split.
  { eapply sublist_NoDup; [apply indices_NoDup|apply comprehension_sublist]. }
  destruct (select_columns_returns X (selected_features importances)) as [X' HX'].
  { eapply Forall_impl; [exact HX|]. intros r Hr.
    rewrite Hr. apply selected_features_in_range. }
  exists X'. split; [done|]. split; [by eapply index_select_columns|].
  eapply Forall2_impl; [by apply select_columns_rows|]. by intros r r' [_ ?].
Qed.

(** The loop prints one line per selected feature, in ranking order. *)
Lemma print_loop_turns_output selected : ∀ w rf importances,
  globals w !! "rf" = Some (VEstimator rf) →
  globals w !! "importances" = Some (VVec importances) →
  Forall (fun i => i < length importances) selected →
  ∃ w', for_each selected print_loop_turn tt w = Returns tt w' ∧
        stdout w' = stdout w ++
          ((fun i => [VStr "Feature"; VInt i; VNum (Numpy.getitem importances i)]) <$> selected).
Proof.
  induction selected as [|i l IH]; intros w rf importances Hrf Himp Hrange.
  { eexists. split; [reflexivity|]. simpl. by rewrite app_nil_r. }
  apply Forall_cons in Hrange as [Hi Hl].
  destruct (lookup_lt_is_Some_2 importances i Hi) as [x Hx].
  cbn [for_each]. unfold mbind at 1, Py_bind at 1.
  assert (print_loop_turn i tt w =
          Returns tt (emit [VStr "Feature"; VInt i; VNum x]
                        (bound "rf" (VEstimator (clobbered rf i)) w))) as ->.
  { assert (wp (print_loop_turn i tt)
              (fun _ w1 => w1 = emit [VStr "Feature"; VInt i; VNum x]
                                  (bound "rf" (VEstimator (clobbered rf i)) w))
              (fun _ _ => False) w) as Hwp
      by (unfold print_loop_turn; wp_auto; reflexivity).
    unfold wp in Hwp. destruct (print_loop_turn i tt w) as [[] w1|]; [by subst|done]. }
  destruct (IH (emit [VStr "Feature"; VInt i; VNum x]
                  (bound "rf" (VEstimator (clobbered rf i)) w))
              (clobbered rf i) importances) as (w' & Hrun & Hout).
  - simpl. by rewrite lookup_insert_eq.
  - simpl. by rewrite lookup_insert_ne.
  - done.
  - exists w'. split; [exact Hrun|]. rewrite Hout. simpl.
    rewrite <-(assoc_L app). simpl. by rewrite (getitem_lookup _ _ _ Hx).
Qed.

(** Whenever cell 6 has run up to its loop, the loop returns, and what it
    prints is one line per selected feature, in the order of the ranking:
    the feature's column number and its importance. *)
Theorem print_loop_lists_the_selected_features (w0 w1 : world) :
  run (cell6_select ++ cell6_plot ++ [cell6_heading]) w0 = Returns tt w1 →
  ∃ importances w2,
    globals w1 !! "importances" = Some (VVec importances) ∧
    print_loop w1 = Returns tt w2 ∧
    stdout w2 = stdout w1 ++
      ((fun i => [VStr "Feature"; VInt i; VNum (Numpy.getitem importances i)]) <$>
         selected_features importances).
Proof.
  intros Hrun. pose proof (before_print_loop w0) as Hwp.
  unfold wp in Hwp. rewrite Hrun in Hwp.
  destruct Hwp as (rf & names & importances & Hrf & _ & Himp & Hsel).
  destruct (print_loop_turns_output (selected_features importances) w1 rf importances
              Hrf Himp (selected_features_in_range importances)) as (w2 & Hloop & Hout).
  exists importances, w2. split; [done|]. split; [|done].
  unfold print_loop, load_idx, load. unfold mbind at 1 2, Py_bind at 1 2.
  rewrite Hsel. simpl. exact Hloop.
Qed.

(** The state in which the loop starts: the training array has one
    column per importance. *)
Lemma before_print_loop_shapes w0 :
  wp (run (cell6_select ++ cell6_plot ++ [cell6_heading]))
     (fun _ w1 => ∃ rf X_train importances,
        globals w1 !! "rf" = Some (VEstimator rf) ∧
        globals w1 !! "X_train" = Some (VFrame X_train) ∧
        globals w1 !! "importances" = Some (VVec importances) ∧
        globals w1 !! "selected_features" = Some (VIdx (selected_features importances)) ∧
        Forall (fun r : row => length r.2 = length importances) (rows X_train))
     (fun _ _ => True) w0.
Proof.
  statements. unfold cell6_heading. wp_auto. simplify_eq/=.
  eexists _, _, _. wp_lookup. repeat (split; [first [reflexivity|eassumption]|]).
  match goal with Hfit : fit _ _ _ = Ok _ |- _ =>
    apply feature_importances_length in Hfit; by apply Forall_fmap in Hfit end.
Qed.

(** In cell 6 the slice of the training array cannot fail: the forest was
    fitted on [X_train], so it has one importance per column, and the
    selected features are column numbers of [X_train].  Once the loop has
    returned, [Xtrain_sel = X_train[:, selected_features]] returns, with
    the rows of [X_train] and one cell per selected feature. *)
Theorem training_slice_never_fails (w0 w1 : world) :
  run (cell6_select ++ cell6_plot ++ [cell6_heading; print_loop]) w0 = Returns tt w1 →
  ∃ X_train importances Xtrain_sel w2,
    globals w1 !! "X_train" = Some (VFrame X_train) ∧
    globals w1 !! "importances" = Some (VVec importances) ∧
    select_into "Xtrain_sel" "X_train" w1 = Returns tt w2 ∧
    globals w2 !! "Xtrain_sel" = Some (VFrame Xtrain_sel) ∧
    select_columns X_train (selected_features importances) = Ok Xtrain_sel ∧
    index Xtrain_sel = index X_train ∧
    Forall (fun r : row => length r.2 = length (selected_features importances))
      (rows Xtrain_sel).
Proof.
  intros Hrun.
  assert (cell6_select ++ cell6_plot ++ [cell6_heading; print_loop] =
          (cell6_select ++ cell6_plot ++ [cell6_heading]) ++ [print_loop]) as Hcells
    by reflexivity.
  rewrite Hcells in Hrun. apply run_app_returns in Hrun as (w & Hrun & Hloop).
  pose proof (before_print_loop_shapes w0) as Hwp.
  unfold wp in Hwp. rewrite Hrun in Hwp.
  destruct Hwp as (rf & X_train & importances & Hrf & HX & Himp & Hsel & Hshape).
  destruct (print_loop_spec w rf importances _ Hrf Himp Hsel
              (selected_features_in_range importances)) as (w1' & Hloop' & Hglobals).
  simpl in Hloop. unfold mbind, Py_bind in Hloop. rewrite Hloop' in Hloop.
  injection Hloop as <-.
  assert (∀ x, x ≠ "rf" → globals w1' !! x = globals w !! x) as Hsame.
  { intros x Hx. rewrite Hglobals. destruct (last _); [|done]. by rewrite lookup_insert_ne. }
  rewrite <-(Hsame "X_train") in HX by done.
  rewrite <-(Hsame "importances") in Himp by done.
  rewrite <-(Hsame "selected_features") in Hsel by done.
  destruct (select_columns_returns X_train (selected_features importances)) as [X' HX'].
  { eapply Forall_impl; [exact Hshape|]. intros r Hr.
    rewrite Hr. apply selected_features_in_range. }
  exists X_train, importances, X', (bound "Xtrain_sel" (VFrame X') w1').
  split; [done|]. split; [done|].
  split. { rewrite (select_into_spec _ _ _ _ _ HX Hsel). by rewrite HX'. }
  split. { simpl. by rewrite lookup_insert_eq. }
  split; [done|]. split; [by eapply index_select_columns|].
  pose proof (select_columns_rows _ _ _ HX') as Hrows.
  apply Forall_forall. intros r' Hr'.
  apply list_elem_of_lookup in Hr' as [p Hp].
  destruct (Forall2_lookup_r _ _ _ _ _ Hrows Hp) as (r & _ & _ & Hrow).
  symmetry. by eapply Forall2_length.
Qed.

End slices.
End SliceFacts.

(** ** Second notebook: the functions *)

Module FunctionFacts.
Import Python Pandas Sklearn Kernel KernelFacts SklearnFacts Pipeline.

Section functions.
Context `{Library}.

(** [scored sp ... r p f m]: an estimator built as [sp], fitted on the
    training set, predicts labels for the test set whose recall, precision
    and F1 against [y_test] are [r], [p], [f] and whose confusion matrix
    is [m]. *)
Definition scored (sp : estimator_spec) (X_train : frame) (y_train : series)
    (X_test : frame) (y_test : series) (r p f : Q) (m : list (list nat)) : Prop :=
  ∃ model y_pred,
    fit sp (rows X_train).*2 (values y_train) = Ok model ∧
    predict model (rows X_test).*2 = Ok y_pred ∧
    recall_score (values y_test) y_pred = Ok r ∧
    precision_score (values y_test) y_pred = Ok p ∧
    f1_score (values y_test) y_pred = Ok f ∧
    confusion_matrix (values y_test) y_pred = Ok m.

(** [myEvaluateSupervisedModelPerformance], whenever it returns: the
    decision tree, the bagging classifier and the forest were each fitted
    on the training set and scored on the test set, in that order; the
    three returned arrays hold their recalls, precisions and F1 scores in
    that order; nine lines were printed (a training time and a confusion
    matrix per model, each time being that model's own [fit], then the
    three arrays as returned); no global name was bound. *)
Theorem supervised_evaluation_scores_three_models
    (X_train : frame) (y_train : series) (X_test : frame) (y_test : series)
    (w : world) (s : scores) (w' : world) :
  myEvaluateSupervisedModelPerformance X_train y_train X_test y_test w = Returns s w' →
  ∃ r1 p1 f1 m1 r2 p2 f2 m2 r3 p3 f3 m3,
    scored DecisionTreeClassifier X_train y_train X_test y_test r1 p1 f1 m1 ∧
    scored (BaggingClassifier 10 42) X_train y_train X_test y_test r2 p2 f2 m2 ∧
    scored (RandomForestClassifier (Some 10) None 42) X_train y_train X_test y_test
      r3 p3 f3 m3 ∧
    s = ([r1; r2; r3], [p1; p2; p3], [f1; f2; f3]) ∧
    stdout w' = stdout w ++
      [ [VStr "Training time for model"; VInt 1;
         VTime (cost "myDecisionTree: clf.fit"); VStr "seconds"];
        [VStr "Confusion matrix for model"; VInt 1; VMatrix m1];
        [VStr "Training time for model"; VInt 2;
         VTime (cost "myBagging: bagging_clf.fit"); VStr "seconds"];
        [VStr "Confusion matrix for model"; VInt 2; VMatrix m2];
        [VStr "Training time for model"; VInt 3;
         VTime (cost "myRandomForest: clf.fit"); VStr "seconds"];
        [VStr "Confusion matrix for model"; VInt 3; VMatrix m3];
        [VStr "Recalls:"; VVec [r1; r2; r3]];
        [VStr "Precisions:"; VVec [p1; p2; p3]];
        [VStr "F1 scores:"; VVec [f1; f2; f3]] ] ∧
    globals w' = globals w.
Proof.
  intros Hrun.
  assert (wp (myEvaluateSupervisedModelPerformance X_train y_train X_test y_test)
    (fun s w' => ∃ r1 p1 f1 m1 r2 p2 f2 m2 r3 p3 f3 m3,
    scored DecisionTreeClassifier X_train y_train X_test y_test r1 p1 f1 m1 ∧
    scored (BaggingClassifier 10 42) X_train y_train X_test y_test r2 p2 f2 m2 ∧
    scored (RandomForestClassifier (Some 10) None 42) X_train y_train X_test y_test
      r3 p3 f3 m3 ∧
    s = ([r1; r2; r3], [p1; p2; p3], [f1; f2; f3]) ∧
    stdout w' = stdout w ++
      [ [VStr "Training time for model"; VInt 1;
         VTime (cost "myDecisionTree: clf.fit"); VStr "seconds"];
        [VStr "Confusion matrix for model"; VInt 1; VMatrix m1];
        [VStr "Training time for model"; VInt 2;
         VTime (cost "myBagging: bagging_clf.fit"); VStr "seconds"];
        [VStr "Confusion matrix for model"; VInt 2; VMatrix m2];
        [VStr "Training time for model"; VInt 3;
         VTime (cost "myRandomForest: clf.fit"); VStr "seconds"];
        [VStr "Confusion matrix for model"; VInt 3; VMatrix m3];
        [VStr "Recalls:"; VVec [r1; r2; r3]];
        [VStr "Precisions:"; VVec [p1; p2; p3]];
        [VStr "F1 scores:"; VVec [f1; f2; f3]] ] ∧
    globals w' = globals w) (fun _ _ => True) w) as Hwp.
  { unfold myEvaluateSupervisedModelPerformance.
    cbn [imap for_each compose replicate]. unfold evaluate_one at 1.
    wp_auto.
    eexists _, _, _, _, _, _, _, _, _, _, _, _.
    do 3 (split; [unfold scored; eexists _, _; repeat split; eassumption|]).
    split; [reflexivity|]. split; [|reflexivity].
    rewrite <-!(assoc_L app). simpl. repeat f_equal; lia. }
  unfold wp in Hwp. by rewrite Hrun in Hwp.
Qed.

(** [myEvaluateUnsupervisedModelPerformance], whenever it returns: the
    PCA and forest pipeline was fitted on the training set and scored on
    the test set; the returned arrays hold its one recall, precision and
    F1 score; five lines were printed, the first being the time of the
    pipeline's own [fit]; no global name was bound. *)
Theorem unsupervised_evaluation_scores_the_pipeline
    (X_train : frame) (y_train : series) (X_test : frame) (y_test : series)
    (w : world) (s : scores) (w' : world) :
  myEvaluateUnsupervisedModelPerformance X_train y_train X_test y_test w = Returns s w' →
  ∃ r p f m,
    scored (PCA_RandomForest 2 50 42) X_train y_train X_test y_test r p f m ∧
    s = ([r], [p], [f]) ∧
    stdout w' = stdout w ++
      [ [VStr "Training time for model"; VTime (cost "myPCARF: pipeline.fit"); VStr "seconds"];
        [VStr "Confusion matrix for model"; VMatrix m];
        [VStr "Recalls:"; VVec [r]];
        [VStr "Precisions:"; VVec [p]];
        [VStr "F1 scores:"; VVec [f]] ] ∧
    globals w' = globals w.
Proof.
  intros Hrun.
  assert (wp (myEvaluateUnsupervisedModelPerformance X_train y_train X_test y_test)
    (fun s w' => ∃ r p f m,
    scored (PCA_RandomForest 2 50 42) X_train y_train X_test y_test r p f m ∧
    s = ([r], [p], [f]) ∧
    stdout w' = stdout w ++
      [ [VStr "Training time for model"; VTime (cost "myPCARF: pipeline.fit"); VStr "seconds"];
        [VStr "Confusion matrix for model"; VMatrix m];
        [VStr "Recalls:"; VVec [r]];
        [VStr "Precisions:"; VVec [p]];
        [VStr "F1 scores:"; VVec [f]] ] ∧
    globals w' = globals w) (fun _ _ => True) w) as Hwp.
  { unfold myEvaluateUnsupervisedModelPerformance.
    cbn [replicate]. unfold evaluate_one at 1.
    wp_auto.
    eexists _, _, _, _.
    split; [unfold scored; eexists _, _; repeat split; eassumption|].
    split; [reflexivity|]. split; [|reflexivity].
    rewrite <-!(assoc_L app). simpl. repeat f_equal; lia. }
  unfold wp in Hwp. by rewrite Hrun in Hwp.
Qed.

(** [plot_feature_importance], with every [plt] call succeeding.  A
    model without [feature_importances_] (the bagging classifier, the
    pipeline) raises [AttributeError] before anything is drawn.  For a
    fitted tree or forest, a list of names shorter than the model's
    importances raises [IndexError] when the tick labels are read, after
    the figure, title and bars were drawn; with a name for every
    importance the function returns, having printed nothing and bound no
    global name. *)
Theorem plot_feature_importance_needs_a_name_per_feature
    (model : estimator) (feature_names : list string) (w : world) :
  (∀ g, pyplot g = Ok tt) →
  (has_feature_importances (spec model) = false →
   plot_feature_importance model feature_names w = Raises AttributeError w) ∧
  (∀ f, has_feature_importances (spec model) = true → fitted_ model = Some f →
     (length feature_names < length (feature_importances f) →
      plot_feature_importance model feature_names w =
      Raises IndexError
        (advance (cost "plt.barh") (advance (cost "plt.title")
           (advance (cost "plt.figure") w)))) ∧
     (length (feature_importances f) ≤ length feature_names →
      ∃ w', plot_feature_importance model feature_names w = Returns tt w' ∧
            stdout w' = stdout w ∧ globals w' = globals w)).
Proof.
  intros Hplt. split.
  { intros Hnone. unfold plot_feature_importance, feature_importances_. by rewrite Hnone. }
  intros f Hhas Hf.
  assert (length feature_names < length (feature_importances f) →
          mapM (fun i => feature_names !! i) (Numpy.argsort (feature_importances f)) = None)
    as Hnone.
  { intros Hshort. destruct (mapM _ _) as [ticks|] eqn:Hticks; [exfalso|done].
    assert (is_Some (mapM (fun i => feature_names !! i)
              (Numpy.argsort (feature_importances f)))) as Hsome by eauto.
    apply mapM_is_Some in Hsome. rewrite Forall_forall in Hsome.
    specialize (Hsome (length feature_names)). simpl in Hsome.
    apply lookup_lt_is_Some in Hsome; [lia|].
    rewrite FeatureSelectionFacts.argsort_perm, elem_of_seq. lia. }
  assert (length (feature_importances f) ≤ length feature_names →
          is_Some (mapM (fun i => feature_names !! i)
                     (Numpy.argsort (feature_importances f)))) as Hsome.
  { intros Hlong. apply mapM_is_Some, Forall_forall. intros i Hi. simpl.
    apply lookup_lt_is_Some.
    rewrite FeatureSelectionFacts.argsort_perm, elem_of_seq in Hi. lia. }
  split.
  - intros Hshort. apply wp_raises.
    unfold plot_feature_importance, feature_importances_, plt. rewrite Hhas, Hf, !Hplt.
    wp_auto; rewrite (Hnone Hshort) in *; by simplify_eq/=.
  - intros Hlong. destruct (Hsome Hlong) as [ticks Hticks].
    assert (wp (plot_feature_importance model feature_names)
              (fun _ w' => stdout w' = stdout w ∧ globals w' = globals w)
              (fun _ _ => False) w) as Hwp.
    { unfold plot_feature_importance, feature_importances_, plt. rewrite Hhas, Hf, !Hplt.
      wp_auto; rewrite Hticks in *; by simplify_eq/=. }
    apply wp_returns in Hwp as ([] & w' & Hrun & Hw'). eauto.
Qed.

Lemma removelast_last {A} (l : list A) c : last l = Some c → removelast l ++ [c] = l.
Proof.
  induction l as [|x l IH]; [done|]. destruct l as [|y l].
  - by intros [= ->].
  - intros Hl. change (removelast (x :: y :: l)) with (x :: removelast (y :: l)).
    simpl. f_equal. by apply IH.
Qed.

(** The feature rows and the labels cut from a table pair up: each label
    has the index of its row, and row and label together are the table's
    row. *)
Lemma iloc_pairs (f : frame) (y : series) :
  iloc_last f = Ok y →
  Forall2 (fun (r : row) (l : nat * cell) => l.1 = r.1 ∧ (r.1, r.2 ++ [l.2]) ∈ rows f)
    (rows (iloc_but_last f)) y.
Proof.
  intros Hl%PipelineFacts.iloc_last_cells.
  apply mapM_Some_1 in Hl. unfold iloc_but_last. simpl.
  apply Forall2_fmap_l.
  assert (Forall (fun r => r ∈ rows f) (rows f)) as Hin by (by apply Forall_forall).
  revert Hin. generalize (rows f) at 1 3 as source.
  intros source Hin. induction Hl as [|r [i c] rs labels Hr _ IH]; [constructor|].
  apply Forall_cons in Hin as [Hr' Hrs]. constructor; [|by apply IH].
  apply fmap_Some in Hr as (c' & Hlast & [= -> ->]). simpl. split; [done|].
  rewrite (removelast_last _ _ Hlast). by destruct r.
Qed.

Lemma take_rows_Forall2 {A B} (P : A → B → Prop) l1 l2 positions :
  Forall2 P l1 l2 → Forall2 P (take_rows l1 positions) (take_rows l2 positions).
Proof.
  intros HP. induction positions as [|i positions IH]; [constructor|].
  rewrite !take_rows_cons.
  destruct (l1 !! i) as [a|] eqn:Ha.
  - destruct (Forall2_lookup_l _ _ _ _ _ HP Ha) as (b & -> & ?). by constructor.
  - assert (l2 !! i = None) as ->; [|done].
    apply lookup_ge_None. apply lookup_ge_None in Ha.
    by rewrite <-(Forall2_length _ _ _ HP).
Qed.

(** On two tables with the same columns (on others [pd.concat] aligns
    the columns by name), [myTrainTestSplit] keeps every label with its
    row: in the returned training set and in the returned test set, the
    [j]-th label is the label of the [j]-th feature row, and the feature
    row followed by its label is a row of one of the two tables,
    unchanged. *)
Theorem myTrainTestSplit_keeps_labels_with_their_rows
    (normalData anomalousData : frame) (w : world)
    (X_train X_test : frame) (y_train y_test : series) (w' : world) :
  columns normalData = columns anomalousData →
  myTrainTestSplit normalData anomalousData w = Returns (X_train, X_test, y_train, y_test) w' →
  Forall2 (fun (r : row) (l : nat * cell) =>
             l.1 = r.1 ∧ (r.1, r.2 ++ [l.2]) ∈ rows normalData ++ rows anomalousData)
    (rows X_train) y_train ∧
  Forall2 (fun (r : row) (l : nat * cell) =>
             l.1 = r.1 ∧ (r.1, r.2 ++ [l.2]) ∈ rows normalData ++ rows anomalousData)
    (rows X_test) y_test.
Proof.
  intros Hcolumns Hrun.
  destruct (PipelineFacts.myTrainTestSplit_spec _ _ _ _ _ _ _ _ Hrun)
    as (y_normal & y_anomalous & train_n & test_n & train_a & test_a &
        Hyn & Hya & _ & _ & _ & _ & _ & _ & -> & -> & -> & ->).
  apply iloc_pairs in Hyn, Hya.
  destruct (PipelineFacts.rows_combined normalData anomalousData train_n train_a Hcolumns)
    as [_ ->].
  destruct (PipelineFacts.rows_combined normalData anomalousData test_n test_a Hcolumns)
    as [_ ->].
  assert (∀ f y positions,
            Forall2 (fun (r : row) (l : nat * cell) =>
                       l.1 = r.1 ∧ (r.1, r.2 ++ [l.2]) ∈ rows f) (rows (iloc_but_last f)) y →
            (rows f ⊆ rows normalData ++ rows anomalousData) →
            Forall2 (fun (r : row) (l : nat * cell) =>
                       l.1 = r.1 ∧ (r.1, r.2 ++ [l.2]) ∈ rows normalData ++ rows anomalousData)
              (rows (iloc_rows (iloc_but_last f) positions)) (take_rows y positions)) as Hpart.
  { intros f y positions Hpairs Hsub. unfold iloc_rows. cbn [rows].
    apply take_rows_Forall2. eapply Forall2_impl; [exact Hpairs|].
    intros r l [? ?]. split; [done|]. by apply Hsub. }
  split; apply Forall2_app; apply Hpart; try done; set_solver.
Qed.

(** A table without columns stops [myTrainTestSplit] with [IndexError] at
    [iloc[:, -1]], before any split is drawn: the clock has not moved. *)
Theorem myTrainTestSplit_needs_a_label_column
    (normalData anomalousData : frame) (w : world) (r : row) :
  r ∈ rows normalData ++ rows anomalousData → r.2 = [] →
  myTrainTestSplit normalData anomalousData w = Raises IndexError w.
Proof.
  intros Hr Hempty.
  assert (∀ f, r ∈ rows f → iloc_last f = Raise IndexError) as Hraise.
  { intros f Hf. destruct (iloc_last f) as [y|e] eqn:Hy;
      [exfalso|by apply PipelineFacts.iloc_last_raises in Hy as ->].
    apply PipelineFacts.iloc_last_cells in Hy.
    assert (is_Some (mapM (fun r : row => (fun c => (r.1, c)) <$> last r.2) (rows f)))
      as Hsome by eauto.
    apply mapM_is_Some in Hsome. rewrite Forall_forall in Hsome.
    specialize (Hsome r Hf). simpl in Hsome. rewrite Hempty in Hsome.
    by destruct Hsome. }
  unfold myTrainTestSplit, lift. unfold mbind at 1, Py_bind at 1.
  apply elem_of_app in Hr as [Hr|Hr].
  - by rewrite (Hraise _ Hr).
  - destruct (iloc_last normalData) as [y|e] eqn:Hy;
      [|by apply PipelineFacts.iloc_last_raises in Hy as ->].
    simpl. unfold mbind at 1, Py_bind at 1. by rewrite (Hraise _ Hr).
Qed.

(** Run from top to bottom, the second notebook reads the two files in
    order and no other, prints the shape of each table and nothing else,
    and binds the two tables and the eight functions. *)
Theorem pipeline_notebook_loads_and_defines (w0 w : world) :
  run Pipeline.notebook w0 = Returns tt w →
  ∃ normalData anomalousData,
    read_csv "normal.csv" = Ok normalData ∧
    read_csv "anomalous.csv" = Ok anomalousData ∧
    files_read w = files_read w0 ++ ["normal.csv"; "anomalous.csv"] ∧
    stdout w = stdout w0 ++
      [ [VStr "Shape of normal dataset:"; VInt (n_rows normalData); VInt (n_columns normalData)];
        [VStr "Shape of anomalous dataset:";
         VInt (n_rows anomalousData); VInt (n_columns anomalousData)] ] ∧
    globals w !! "normalData" = Some (VFrame normalData) ∧
    globals w !! "anomalousData" = Some (VFrame anomalousData) ∧
    Forall (fun name => globals w !! name = Some (VFunction name))
      [ "myTrainTestSplit"; "myDecisionTree"; "myBagging"; "myRandomForest";
        "plot_feature_importance"; "myEvaluateSupervisedModelPerformance"; "myPCARF";
        "myEvaluateUnsupervisedModelPerformance" ].
Proof.
  intros Hrun.
  assert (wp (run Pipeline.notebook) (fun _ w => ∃ normalData anomalousData,
    read_csv "normal.csv" = Ok normalData ∧
    read_csv "anomalous.csv" = Ok anomalousData ∧
    files_read w = files_read w0 ++ ["normal.csv"; "anomalous.csv"] ∧
    stdout w = stdout w0 ++
      [ [VStr "Shape of normal dataset:"; VInt (n_rows normalData); VInt (n_columns normalData)];
        [VStr "Shape of anomalous dataset:";
         VInt (n_rows anomalousData); VInt (n_columns anomalousData)] ] ∧
    globals w !! "normalData" = Some (VFrame normalData) ∧
    globals w !! "anomalousData" = Some (VFrame anomalousData) ∧
    Forall (fun name => globals w !! name = Some (VFunction name))
      [ "myTrainTestSplit"; "myDecisionTree"; "myBagging"; "myRandomForest";
        "plot_feature_importance"; "myEvaluateSupervisedModelPerformance"; "myPCARF";
        "myEvaluateUnsupervisedModelPerformance" ]) (fun _ _ => True) w0) as Hwp.
  { clear Hrun. unfold Pipeline.notebook. wp_auto.
    eexists _, _. do 2 (split; [reflexivity|]).
    split; [by rewrite <-(assoc_L app)|]. split; [by rewrite <-(assoc_L app)|].
    do 2 (split; [reflexivity|]).
    repeat constructor; wp_lookup; reflexivity. }
  unfold wp in Hwp. by rewrite Hrun in Hwp.
Qed.

End functions.
End FunctionFacts.

(** ** The further properties on the small library *)

Module MoreRuns.
Import Python Pandas Sklearn Kernel KernelFacts Reference ReferenceFacts Notebook1 Runs.

(** The states the first notebook has reached before cells 3, 4 and 5. *)
Definition before_cell3 : world := world_of (run (cell1 ++ cell2) fresh).
Definition before_cell4 : world := world_of (run (cell1 ++ cell2 ++ cell3) fresh).
Definition before_cell5 : world := world_of (run (cell1 ++ cell2 ++ cell3 ++ cell4) fresh).

(** What a computation returned, or [d]. *)
Definition value_of {A} (d : A) (o : outcome A) : A :=
  match o with Returns a _ => a | Raises _ _ => d end.

Lemma returned_value {A} (d : A) (o : outcome A) :
  returned o = true → o = Returns (value_of d o) (world_of o).
Proof. by destruct o. Qed.

Lemma cell4_returns : returned (run cell4 before_cell4) = true.
Proof. vm_compute. reflexivity. Qed.

Lemma scaler_is_fitted_on_the_training_rows_run :
  ∃ X_train X_test s,
    globals before_cell4 !! "X_train" = Some (VFrame X_train) ∧
    globals before_cell4 !! "X_test" = Some (VFrame X_test) ∧
    scaler_fit (rows X_train).*2 = Ok s ∧
    globals (world_of (run cell4 before_cell4)) !! "scaler" = Some (VScaler (Some s)) ∧
    globals (world_of (run cell4 before_cell4)) !! "X_train" =
      Some (VFrame (transform s X_train)) ∧
    globals (world_of (run cell4 before_cell4)) !! "X_test" =
      Some (VFrame (transform s X_test)).
Proof.
  exact (CellFacts.scaler_is_fitted_on_the_training_rows before_cell4 _
           (returned_run cell4 before_cell4 cell4_returns)).
Defined.

Lemma cell5_returns : returned (run cell5 before_cell5) = true.
Proof. vm_compute. reflexivity. Qed.

Lemma cell5_reports_own_training_time_run :
  run cell5 before_cell5 = Returns tt (world_of (run cell5 before_cell5)) ∧
  last (stdout (world_of (run cell5 before_cell5))) =
    Some [VStr "Execution time:"; VTime (cost "cell 5: rf.fit(X_train, y_train)")].
Proof.
  pose proof (returned_run cell5 before_cell5 cell5_returns) as Hrun.
  split; [exact Hrun|].
  exact (NotebookFacts.cell5_reports_own_training_time before_cell5 _ Hrun).
Defined.

Lemma cell6_returns : returned (run cell6 before_cell6) = true.
Proof. vm_compute. reflexivity. Qed.

Lemma refit_cell_reports_its_own_training_time_run :
  run cell6 before_cell6 = Returns tt (world_of (run cell6 before_cell6)) ∧
  last (stdout (world_of (run cell6 before_cell6))) =
    Some [VStr "Time Execution:"; VTime (cost "cell 6: rf.fit(Xtrain_sel, y_train)")].
Proof.
  pose proof (returned_run cell6 before_cell6 cell6_returns) as Hrun.
  split; [exact Hrun|].
  exact (CellFacts.refit_cell_reports_its_own_training_time before_cell6 _ Hrun).
Defined.

Lemma final_cell_scores_a_forest_of_fixed_parameters_run :
  ∃ Xtrain_sel X_test_selected y_train y_test search forest y_pred accuracy f1 confusion t,
    globals before_cell7 !! "Xtrain_sel" = Some (VFrame Xtrain_sel) ∧
    globals before_cell7 !! "X_test_selected" = Some (VFrame X_test_selected) ∧
    globals before_cell7 !! "y_train" = Some (VSeries y_train) ∧
    globals before_cell7 !! "y_test" = Some (VSeries y_test) ∧
    fit (GridSearchCV (RandomForestClassifier None None 42) [10; 20] [10; 20] 3)
        (rows Xtrain_sel).*2 (values y_train) = Ok search ∧
    fit (RandomForestClassifier (Some 10) (Some 10) 42)
        (rows Xtrain_sel).*2 (values y_train) = Ok forest ∧
    predict forest (rows X_test_selected).*2 = Ok y_pred ∧
    accuracy_score (values y_test) y_pred = Ok accuracy ∧
    f1_score (values y_test) y_pred = Ok f1 ∧
    confusion_matrix (values y_test) y_pred = Ok confusion ∧
    stdout (world_of (run cell7 before_cell7)) = stdout before_cell7 ++
      [ [VStr "Optimal hyperparameters:"; VParams (best_params search)];
        [VStr "Optimal cross-validation score:"; VNum (best_score search)];
        [VStr "Accuracy:"; VNum accuracy];
        [VStr "F1-score:"; VNum f1];
        [VStr "Confusion matrix:"; VMatrix confusion];
        [VStr "Execution time:"; VTime t] ].
Proof.
  exact (CellFacts.final_cell_scores_a_forest_of_fixed_parameters before_cell7 _
           (returned_run cell7 before_cell7 cell7_returns)).
Defined.

Lemma print_loop_lists_the_selected_features_run :
  ∃ importances w2,
    globals (world_of (run (cell6_select ++ cell6_plot ++ [cell6_heading]) before_cell6))
      !! "importances" = Some (VVec importances) ∧
    print_loop (world_of (run (cell6_select ++ cell6_plot ++ [cell6_heading]) before_cell6)) =
      Returns tt w2 ∧
    stdout w2 =
      stdout (world_of (run (cell6_select ++ cell6_plot ++ [cell6_heading]) before_cell6)) ++
      ((fun i => [VStr "Feature"; VInt i; VNum (Numpy.getitem importances i)]) <$>
         FeatureSelection.selected_features importances).
Proof.
  exact (SliceFacts.print_loop_lists_the_selected_features before_cell6 _
           (returned_run _ before_cell6 cell6_reaches_loop)).
Defined.

Lemma cell6_loop_returns :
  returned (run (cell6_select ++ cell6_plot ++ [cell6_heading; print_loop]) before_cell6) = true.
Proof. vm_compute. reflexivity. Qed.

Lemma training_slice_never_fails_run :
  ∃ X_train importances Xtrain_sel w2,
    globals (world_of (run (cell6_select ++ cell6_plot ++ [cell6_heading; print_loop])
                         before_cell6)) !! "X_train" = Some (VFrame X_train) ∧
    globals (world_of (run (cell6_select ++ cell6_plot ++ [cell6_heading; print_loop])
                         before_cell6)) !! "importances" = Some (VVec importances) ∧
    select_into "Xtrain_sel" "X_train"
      (world_of (run (cell6_select ++ cell6_plot ++ [cell6_heading; print_loop])
                   before_cell6)) = Returns tt w2 ∧
    globals w2 !! "Xtrain_sel" = Some (VFrame Xtrain_sel) ∧
    select_columns X_train (FeatureSelection.selected_features importances) = Ok Xtrain_sel ∧
    index Xtrain_sel = index X_train ∧
    Forall (fun r : row => length r.2 = length (FeatureSelection.selected_features importances))
      (rows Xtrain_sel).
Proof.
  exact (SliceFacts.training_slice_never_fails before_cell6 _
           (returned_run _ before_cell6 cell6_loop_returns)).
Defined.

(** A table of two rows with one column per importance. *)
Lemma selected_features_slice_returns_example :
  NoDup (FeatureSelection.selected_features [1 # 8; 3 # 4; 1 # 8]%Q) ∧
  ∃ X', select_columns (table ["a"; "b"; "c"] [[1; 2; 3]; [4; 5; 6]])
          (FeatureSelection.selected_features [1 # 8; 3 # 4; 1 # 8]%Q) = Ok X' ∧
        index X' = index (table ["a"; "b"; "c"] [[1; 2; 3]; [4; 5; 6]]) ∧
        Forall2 (fun r r' : row =>
                   Forall2 (fun j c => r.2 !! j = Some c)
                     (FeatureSelection.selected_features [1 # 8; 3 # 4; 1 # 8]%Q) r'.2)
          (rows (table ["a"; "b"; "c"] [[1; 2; 3]; [4; 5; 6]])) (rows X').
Proof.
  apply (SliceFacts.selected_features_slice_returns [1 # 8; 3 # 4; 1 # 8]%Q
           (table ["a"; "b"; "c"] [[1; 2; 3]; [4; 5; 6]])).
  repeat constructor.
Defined.

(** The library over a disk whose one table has no label column. *)
Definition unlabelled : Library :=
  library (fun _ => Ok (table ["requests"; "nodes"] [[18; 2]; [5; 1]]))
          (fun _ _ H => match H in _ = r return
                          match r with Ok f => index f = seq 0 (n_rows f) | Raise _ => True end
                        with eq_refl => eq_refl end)
          halving length_halving.

Lemma table_without_label_column_ends_in_KeyError_run :
  ∃ w, run (H0 := unlabelled) notebook fresh = Raises KeyError w ∧
       stdout w = stdout (H0 := unlabelled) fresh ++
         [ [VStr "# of observations:"; VInt 2]; [VStr "# of variables:"; VInt 2] ] ∧
       globals w =
         <["df" := VFrame (table ["requests"; "nodes"] [[18; 2]; [5; 1]])]>
           (globals (H0 := unlabelled) fresh).
Proof.
  apply (CellFacts.table_without_label_column_ends_in_KeyError (H0 := unlabelled) fresh
           (table ["requests"; "nodes"] [[18; 2]; [5; 1]])).
  - intros m. reflexivity.
  - reflexivity.
  - cbn [columns table]. rewrite !not_elem_of_cons.
    repeat split; try discriminate. apply not_elem_of_nil.
Defined.

Lemma cell3_assignments_return : returned (run (take 2 cell3) before_cell3) = true.
Proof. vm_compute. reflexivity. Qed.

Lemma features_and_labels_divide_the_table_run :
  ∃ df j X y,
    globals before_cell3 !! "df" = Some (VFrame df) ∧
    columns df !! j = Some "label" ∧
    globals (world_of (run (take 2 cell3) before_cell3)) !! "X" = Some (VFrame X) ∧
    globals (world_of (run (take 2 cell3) before_cell3)) !! "y" = Some (VSeries y) ∧
    columns X = delete j (columns df) ∧
    rows X = (fun r : row => (r.1, delete j r.2)) <$> rows df ∧
    Forall2 (fun (r : row) (l : nat * cell) => l.1 = r.1 ∧ r.2 !! j = Some l.2) (rows df) y.
Proof.
  exact (CellFacts.features_and_labels_divide_the_table before_cell3 _
           (returned_run _ before_cell3 cell3_assignments_return)).
Defined.

(** A training set of three rows and a test set of two. *)
Definition small_X_train : frame := table ["requests"; "nodes"] [[18; 2]; [1141; 5]; [5; 1]].
Definition small_y_train : series := [(0, 0); (1, 1); (2, 0)].
Definition small_X_test : frame := table ["requests"; "nodes"] [[950; 4]; [80; 2]].
Definition small_y_test : series := [(0, 1); (1, 0)].

Definition no_scores : Pipeline.scores := ([], [], []).

Lemma supervised_evaluation_returns :
  returned (Pipeline.myEvaluateSupervisedModelPerformance
              small_X_train small_y_train small_X_test small_y_test fresh) = true.
Proof. vm_compute. reflexivity. Qed.

Lemma supervised_evaluation_scores_three_models_run :
  ∃ r1 p1 f1 m1 r2 p2 f2 m2 r3 p3 f3 m3,
    FunctionFacts.scored DecisionTreeClassifier
      small_X_train small_y_train small_X_test small_y_test r1 p1 f1 m1 ∧
    FunctionFacts.scored (BaggingClassifier 10 42)
      small_X_train small_y_train small_X_test small_y_test r2 p2 f2 m2 ∧
    FunctionFacts.scored (RandomForestClassifier (Some 10) None 42)
      small_X_train small_y_train small_X_test small_y_test r3 p3 f3 m3 ∧
    value_of no_scores
      (Pipeline.myEvaluateSupervisedModelPerformance
         small_X_train small_y_train small_X_test small_y_test fresh) =
      ([r1; r2; r3], [p1; p2; p3], [f1; f2; f3]) ∧
    stdout (world_of (Pipeline.myEvaluateSupervisedModelPerformance
                        small_X_train small_y_train small_X_test small_y_test fresh)) =
    stdout fresh ++
      [ [VStr "Training time for model"; VInt 1;
         VTime (cost "myDecisionTree: clf.fit"); VStr "seconds"];
        [VStr "Confusion matrix for model"; VInt 1; VMatrix m1];
        [VStr "Training time for model"; VInt 2;
         VTime (cost "myBagging: bagging_clf.fit"); VStr "seconds"];
        [VStr "Confusion matrix for model"; VInt 2; VMatrix m2];
        [VStr "Training time for model"; VInt 3;
         VTime (cost "myRandomForest: clf.fit"); VStr "seconds"];
        [VStr "Confusion matrix for model"; VInt 3; VMatrix m3];
        [VStr "Recalls:"; VVec [r1; r2; r3]];
        [VStr "Precisions:"; VVec [p1; p2; p3]];
        [VStr "F1 scores:"; VVec [f1; f2; f3]] ] ∧
    globals (world_of (Pipeline.myEvaluateSupervisedModelPerformance
                         small_X_train small_y_train small_X_test small_y_test fresh)) =
    globals fresh.
Proof.
  exact (FunctionFacts.supervised_evaluation_scores_three_models _ _ _ _ _ _ _
           (returned_value no_scores _ supervised_evaluation_returns)).
Defined.

Lemma unsupervised_evaluation_returns :
  returned (Pipeline.myEvaluateUnsupervisedModelPerformance
              small_X_train small_y_train small_X_test small_y_test fresh) = true.
Proof. vm_compute. reflexivity. Qed.

Lemma unsupervised_evaluation_scores_the_pipeline_run :
  ∃ r p f m,
    FunctionFacts.scored (PCA_RandomForest 2 50 42)
      small_X_train small_y_train small_X_test small_y_test r p f m ∧
    value_of no_scores
      (Pipeline.myEvaluateUnsupervisedModelPerformance
         small_X_train small_y_train small_X_test small_y_test fresh) = ([r], [p], [f]) ∧
    stdout (world_of (Pipeline.myEvaluateUnsupervisedModelPerformance
                        small_X_train small_y_train small_X_test small_y_test fresh)) =
    stdout fresh ++
      [ [VStr "Training time for model"; VTime (cost "myPCARF: pipeline.fit"); VStr "seconds"];
        [VStr "Confusion matrix for model"; VMatrix m];
        [VStr "Recalls:"; VVec [r]];
        [VStr "Precisions:"; VVec [p]];
        [VStr "F1 scores:"; VVec [f]] ] ∧
    globals (world_of (Pipeline.myEvaluateUnsupervisedModelPerformance
                         small_X_train small_y_train small_X_test small_y_test fresh)) =
    globals fresh.
Proof.
  exact (FunctionFacts.unsupervised_evaluation_scores_the_pipeline _ _ _ _ _ _ _
           (returned_value no_scores _ unsupervised_evaluation_returns)).
Defined.

(** A fitted forest of three importances, plotted with two names and
    with three. *)
Definition small_forest : estimator :=
  {| spec := RandomForestClassifier (Some 10) None 42;
     fitted_ := Some (halving 3);
     feature_names_in_ := None |}.

Lemma plot_feature_importance_needs_a_name_per_feature_run :
  (has_feature_importances (spec small_forest) = false →
   Pipeline.plot_feature_importance small_forest ["requests"; "nodes"] fresh =
   Raises AttributeError fresh) ∧
  (∀ f, has_feature_importances (spec small_forest) = true →
     fitted_ small_forest = Some f →
     (length ["requests"; "nodes"] < length (feature_importances f) →
      Pipeline.plot_feature_importance small_forest ["requests"; "nodes"] fresh =
      Raises IndexError
        (advance (cost "plt.barh") (advance (cost "plt.title")
           (advance (cost "plt.figure") fresh)))) ∧
     (length (feature_importances f) ≤ length ["requests"; "nodes"] →
      ∃ w', Pipeline.plot_feature_importance small_forest ["requests"; "nodes"] fresh =
              Returns tt w' ∧
            stdout w' = stdout fresh ∧ globals w' = globals fresh)).
Proof.
  apply (FunctionFacts.plot_feature_importance_needs_a_name_per_feature
           small_forest ["requests"; "nodes"] fresh).
  intros g. reflexivity.
Defined.

Definition no_split : frame * frame * series * series :=
  (table [] [], table [] [], [], []).

Lemma small_split_returns :
  returned (Pipeline.myTrainTestSplit
              (table ["requests"; "nodes"; "label"] [[18; 2; 0]; [5; 1; 0]; [80; 2; 0]; [1; 1; 0]])
              (table ["requests"; "nodes"; "label"] [[1141; 5; 1]; [950; 4; 1]; [700; 6; 1]])
              fresh) = true.
Proof. vm_compute. reflexivity. Qed.

Lemma myTrainTestSplit_keeps_labels_with_their_rows_run :
  let normalData :=
    table ["requests"; "nodes"; "label"] [[18; 2; 0]; [5; 1; 0]; [80; 2; 0]; [1; 1; 0]] in
  let anomalousData :=
    table ["requests"; "nodes"; "label"] [[1141; 5; 1]; [950; 4; 1]; [700; 6; 1]] in
  let r := value_of no_split (Pipeline.myTrainTestSplit normalData anomalousData fresh) in
  Forall2 (fun (r : row) (l : nat * cell) =>
             l.1 = r.1 ∧ (r.1, r.2 ++ [l.2]) ∈ rows normalData ++ rows anomalousData)
    (rows r.1.1.1) r.1.2 ∧
  Forall2 (fun (r : row) (l : nat * cell) =>
             l.1 = r.1 ∧ (r.1, r.2 ++ [l.2]) ∈ rows normalData ++ rows anomalousData)
    (rows r.1.1.2) r.2.
Proof.
  intros normalData anomalousData r.
  pose proof (returned_value no_split _ small_split_returns) as Hrun.
  fold normalData anomalousData r in Hrun.
  destruct r as [[[X_train X_test] y_train] y_test].
  exact (FunctionFacts.myTrainTestSplit_keeps_labels_with_their_rows
           normalData anomalousData _ _ _ _ _ _ eq_refl Hrun).
Defined.

Lemma myTrainTestSplit_needs_a_label_column_example :
  Pipeline.myTrainTestSplit
    (table ["requests"; "label"] [[18; 0]; [5; 0]]) (table [] [[]; []]) fresh =
  Raises IndexError fresh.
Proof.
  apply (FunctionFacts.myTrainTestSplit_needs_a_label_column _ _ fresh (0, [])).
  - cbn [rows table imap]. rewrite elem_of_app. right. by left.
  - reflexivity.
Defined.

Lemma pipeline_notebook_returns : returned (run Pipeline.notebook fresh) = true.
Proof. vm_compute. reflexivity. Qed.

Lemma pipeline_notebook_loads_and_defines_run :
  ∃ normalData anomalousData,
    read_csv "normal.csv" = Ok normalData ∧
    read_csv "anomalous.csv" = Ok anomalousData ∧
    files_read (world_of (run Pipeline.notebook fresh)) =
      files_read fresh ++ ["normal.csv"; "anomalous.csv"] ∧
    stdout (world_of (run Pipeline.notebook fresh)) = stdout fresh ++
      [ [VStr "Shape of normal dataset:"; VInt (n_rows normalData); VInt (n_columns normalData)];
        [VStr "Shape of anomalous dataset:";
         VInt (n_rows anomalousData); VInt (n_columns anomalousData)] ] ∧
    globals (world_of (run Pipeline.notebook fresh)) !! "normalData" =
      Some (VFrame normalData) ∧
    globals (world_of (run Pipeline.notebook fresh)) !! "anomalousData" =
      Some (VFrame anomalousData) ∧
    Forall (fun name => globals (world_of (run Pipeline.notebook fresh)) !! name =
                        Some (VFunction name))
      [ "myTrainTestSplit"; "myDecisionTree"; "myBagging"; "myRandomForest";
        "plot_feature_importance"; "myEvaluateSupervisedModelPerformance"; "myPCARF";
        "myEvaluateUnsupervisedModelPerformance" ].
Proof.
  exact (FunctionFacts.pipeline_notebook_loads_and_defines fresh _
           (returned_run _ fresh pipeline_notebook_returns)).
Defined.

End MoreRuns.
